(** * ReferralOS: claim processing, reward ledger and webhook delivery

    A shallow embedding of the claim route, the reward engine, the rate
    limiter, the webhook enqueue helpers, the replay route and the webhook
    worker, with the properties of the specification proved (or refuted)
    over it, followed by the referral-code generator, the scope checks of
    an API key, the webhook signature and further properties of the code.

    Conventions of the embedding.
    - A database table is the list of its rows in insertion order; a
      [findFirst] is the first row that satisfies the [where] clause.
    - The [rate_limits] table, which the code only reaches through its
      unique key (tenant, key, window start), is a finite map from that key
      to the counter.
    - Values the environment draws (the clock, the UUIDs of
      [defaultRandom()], the outcome of a fetch, whether a statement of the
      rate-limit store errors) are explicit inputs.
    - JSON numbers are integers (amounts are whole credit units; the
      ledger total is cast to [int] by the query itself). A string is the
      sequence of its code units, here 8-bit characters.
    - A request runs alone: the SERIALIZABLE transaction is one atomic
      step that either commits or throws and leaves the tables as they
      were. The handler is modelled from the point where [withAuth] has
      authenticated the API key and passes the tenant id.
    - PostgreSQL refuses a text parameter that holds the code unit 0: the
      statement throws. The lookups are modelled for parameters without
      it ([DbHelpers.text_parameter]).
    - Log lines, the human-readable message of an error reply and the
      [meta] block of a reply are not modelled; foreign keys are taken to
      hold. *)

From Stdlib Require Import ZArith Lia Bool List String Ascii.
From stdpp Require Import base option list strings gmap pretty.
Import ListNotations.

Local Open Scope string_scope.
Local Open Scope Z_scope.

(** ** JavaScript strings and JSON values *)

Module Js.

(** The code units [String.prototype.trim] removes, among the 8-bit ones:
    TAB, LF, VT, FF, CR, the space and the no-break space U+00A0. *)
Definition is_space (c : ascii) : bool :=
  let n := nat_of_ascii c in
  (Nat.eqb n 9 || Nat.eqb n 10 || Nat.eqb n 11 || Nat.eqb n 12
   || Nat.eqb n 13 || Nat.eqb n 32 || Nat.eqb n 160)%bool.

Fixpoint trim_start (l : list ascii) : list ascii :=
  match l with
  | c :: l' => if is_space c then trim_start l' else l
  | [] => []
  end.

Definition trim (s : string) : string :=
  string_of_list_ascii
    (rev (trim_start (rev (trim_start (list_ascii_of_string s))))).

Definition lower_char (c : ascii) : ascii :=
  let n := nat_of_ascii c in
  if (Nat.leb 65 n && Nat.leb n 90)%bool then ascii_of_nat (n + 32) else c.

Definition toLowerCase (s : string) : string :=
  string_of_list_ascii (map lower_char (list_ascii_of_string s)).

(** [s.slice(0, n)]. *)
Definition slice0 (n : nat) (s : string) : string := substring 0 n s.

(** [s.split(",")[0]]. *)
Fixpoint before_comma (s : string) : string :=
  match s with
  | EmptyString => EmptyString
  | String c s' =>
      if Ascii.eqb c ","%char then EmptyString else String c (before_comma s')
  end.

(** A string is truthy when it is not empty. *)
Definition nonempty (s : string) : bool :=
  match s with EmptyString => false | _ => true end.

(** [Math.ceil(a / b)] for a positive divisor. *)
Definition ceil_div (a b : Z) : Z := - ((- a) / b).

(** A parsed JSON value. An object is the list of its members; a parsed
    object has no repeated key, so the first match is the member. *)
#[warnings="-register-all"]
Inductive json : Type :=
| JNull
| JBool (b : bool)
| JNum (n : Z)
| JStr (s : string)
| JArr (items : list json)
| JObj (members : list (string * json)).

Fixpoint assoc (k : string) (ms : list (string * json)) : option json :=
  match ms with
  | [] => None
  | (k', v) :: ms' => if String.eqb k k' then Some v else assoc k ms'
  end.

(** [o.k]: [None] is [undefined] (no such member, or [o] has no members). *)
Definition get (o : json) (k : string) : option json :=
  match o with
  | JObj ms => assoc k ms
  | _ => None
  end.

(** [!!v]. *)
Definition truthy (v : json) : bool :=
  match v with
  | JNull => false
  | JBool b => b
  | JNum n => negb (Z.eqb n 0)
  | JStr s => nonempty s
  | JArr _ | JObj _ => true
  end.

End Js.

(** ** The reward engine ([lib/rewards/normalize], [lib/rewards/engine]) *)

Module Rewards.
Import Js.

Record RewardRulesConfig : Type := {
  onboarding_bonus : Z;
  referral_reward_free : Z;
  referral_reward_pro : Z;
  referral_reward_power_pro : Z;
  currency : string;
}.

Definition DEFAULT_REWARD_RULES : RewardRulesConfig := {|
  onboarding_bonus := 0;
  referral_reward_free := 100;
  referral_reward_pro := 200;
  referral_reward_power_pro := 300;
  currency := "AUD";
|}.

(** [typeof raw.k === "number" ? raw.k : dflt]. *)
Definition number_or (raw : json) (k : string) (dflt : Z) : Z :=
  match get raw k with
  | Some (JNum n) => n
  | _ => dflt
  end.

(** [typeof raw.k === "string" && raw.k.trim() !== "" ? raw.k : dflt]. *)
Definition text_or (raw : json) (k : string) (dflt : string) : string :=
  match get raw k with
  | Some (JStr s) => if nonempty (trim s) then s else dflt
  | _ => dflt
  end.

(** [rawRules] is [None] for [null] and [undefined]. *)
Definition normalizeRewardRules (rawRules : option json) : RewardRulesConfig :=
  match rawRules with
  | None => DEFAULT_REWARD_RULES
  | Some raw =>
      if negb (truthy raw) then DEFAULT_REWARD_RULES
      else {|
        onboarding_bonus :=
          number_or raw "onboarding_bonus" (onboarding_bonus DEFAULT_REWARD_RULES);
        referral_reward_free :=
          number_or raw "referral_reward_free"
            (referral_reward_free DEFAULT_REWARD_RULES);
        referral_reward_pro :=
          number_or raw "referral_reward_pro"
            (referral_reward_pro DEFAULT_REWARD_RULES);
        referral_reward_power_pro :=
          number_or raw "referral_reward_power_pro"
            (referral_reward_power_pro DEFAULT_REWARD_RULES);
        currency := text_or raw "currency" (currency DEFAULT_REWARD_RULES);
      |}
  end.

Inductive SubscriptionTier : Type := free | pro | power_pro.

Definition tier_name (t : SubscriptionTier) : string :=
  match t with
  | free => "free"
  | pro => "pro"
  | power_pro => "power_pro"
  end.

Definition getRewardAmountForTier
    (rules : RewardRulesConfig) (tier : SubscriptionTier) : Z :=
  match tier with
  | free => referral_reward_free rules
  | pro => referral_reward_pro rules
  | power_pro => referral_reward_power_pro rules
  end.

Definition normalizeSubscriptionTier (tier : option string) : SubscriptionTier :=
  match tier with
  | None => free
  | Some t =>
      if negb (nonempty t) then free
      else
        let normalized := trim (toLowerCase t) in
        if String.eqb normalized "pro" then pro
        else if (String.eqb normalized "power_pro"
                 || String.eqb normalized "powerpro")%bool then power_pro
        else free
  end.

Record RewardJson : Type := {
  type : string;
  amount : Z;
  reward_currency : string;
  description : string;
  referralId : option string;
  referrerTier : option string;
  referredExternalUserId : option string;
  referrerExternalUserId : option string;
}.

Record RewardEntry : Type := {
  userId : string;
  eventId : string;
  source : string;
  rewardJson : RewardJson;
}.

Record CalculateRewardsInput : Type := {
  in_referralId : string;
  in_referrerUserId : string;
  in_referrerExternalUserId : string;
  in_referrerTier : string;
  in_referredUserId : string;
  in_referredExternalUserId : string;
  in_tenantRewardSettings : option json;
}.

Record CalculateRewardsOutput : Type := {
  referrerReward : option RewardEntry;
  referredReward : option RewardEntry;
}.

Definition generateReferralEventId (referralId userId : string) : string :=
  "ref_reward_" +:+ referralId +:+ "_" +:+ userId.

Definition generateOnboardingEventId (referralId userId : string) : string :=
  "onboard_" +:+ referralId +:+ "_" +:+ userId.

Definition calculateReferrerReward
    (input : CalculateRewardsInput) (rules : RewardRulesConfig)
    (tier : SubscriptionTier) : option RewardEntry :=
  let amount := getRewardAmountForTier rules tier in
  if amount <=? 0 then None
  else
    let eventId :=
      "ref_reward_" +:+ in_referralId input +:+ "_" +:+ in_referrerUserId input in
    Some {|
      userId := in_referrerUserId input;
      eventId := eventId;
      source := "referral_reward";
      rewardJson := {|
        type := "credit";
        amount := amount;
        reward_currency := currency rules;
        description :=
          "Referral reward for referring " +:+ in_referredExternalUserId input;
        referralId := Some (in_referralId input);
        referrerTier := Some (tier_name tier);
        referredExternalUserId := Some (in_referredExternalUserId input);
        referrerExternalUserId := None;
      |};
    |}.

Definition calculateReferredReward
    (input : CalculateRewardsInput) (rules : RewardRulesConfig)
    : option RewardEntry :=
  let amount := onboarding_bonus rules in
  if amount <=? 0 then None
  else
    let eventId :=
      "onboard_" +:+ in_referralId input +:+ "_" +:+ in_referredUserId input in
    Some {|
      userId := in_referredUserId input;
      eventId := eventId;
      source := "onboarding_bonus";
      rewardJson := {|
        type := "credit";
        amount := amount;
        reward_currency := currency rules;
        description := "Welcome bonus for signing up via referral";
        referralId := Some (in_referralId input);
        referrerTier := None;
        referredExternalUserId := None;
        referrerExternalUserId := Some (in_referrerExternalUserId input);
      |};
    |}.

Definition calculateRewards (input : CalculateRewardsInput)
    : CalculateRewardsOutput :=
  let rules := normalizeRewardRules (in_tenantRewardSettings input) in
  let tier := normalizeSubscriptionTier (Some (in_referrerTier input)) in
  let referrerReward := calculateReferrerReward input rules tier in
  let referredReward := calculateReferredReward input rules in
  {| referrerReward := referrerReward; referredReward := referredReward |}.

End Rewards.

(** ** The tables ([db/schema]) *)

(** Each table is a module named after the drizzle table, so that a column
    reads [users.tenantId] as in the source. Columns that no modelled query
    reads or writes ([slug], [name], [brandingJson], [updatedAt], ...) are
    left out. Primary keys are the UUIDs drawn by [defaultRandom()]; a draw
    is taken not to collide with an existing key. *)

Module tenants.
Record row : Type := {
  id : string;
  referralSettingsJson : option Js.json;
  webhookUrl : option string;
}.
End tenants.

Module users.
Record row : Type := {
  id : string;
  tenantId : string;
  externalUserId : string;
  email : option string;
  plan : string;
  referralCode : string;
}.
End users.

Module referrals.
Record row : Type := {
  id : string;
  tenantId : string;
  referrerUserId : string;
  referredExternalUserId : string;
  referredUserId : option string;
  refCodeUsed : string;
  status : string;
  createdAt : Z;
  completedAt : option Z;
}.
End referrals.

Module rewardsLedger.
Record row : Type := {
  id : string;
  tenantId : string;
  userId : string;
  source : string;
  eventId : string;
  rewardJson : Rewards.RewardJson;
  createdAt : Z;
}.
End rewardsLedger.

Module events.
(** The three shapes of [payloadJson] the modelled code writes. *)
Inductive payload : Type :=
| ReferralClaimed
    (referralId referrerUserId referredUserId referralCode : string)
    (referrer referred : option Rewards.RewardJson)
| WebhookSent
    (deliveryId eventId : string) (statusCode : option Z)
    (attemptCount : nat) (url : string)
| WebhookNotSent
    (deliveryId eventId : string) (statusCode : option Z)
    (attemptCount : nat) (error : option string) (url : string).

Record row : Type := {
  id : string;
  tenantId : string;
  type : string;
  payloadJson : payload;
  createdAt : Z;
}.
End events.

Module webhookDeliveries.
Record row : Type := {
  id : string;
  tenantId : string;
  eventId : string;
  url : string;
  status : string;
  attemptCount : nat;
  lastAttemptAt : option Z;
  nextAttemptAt : option Z;
  lastError : option string;
}.
End webhookDeliveries.

(** The database. [rate_limits] maps (tenant_id, key, window_start) to
    [count]. *)
Record Db : Type := {
  tenants_tbl : list tenants.row;
  users_tbl : list users.row;
  referrals_tbl : list referrals.row;
  rewards_ledger_tbl : list rewardsLedger.row;
  events_tbl : list events.row;
  rate_limits_tbl : gmap (string * string * Z) Z;
  webhook_deliveries_tbl : list webhookDeliveries.row;
}.

Definition set_users (v : list users.row) (db : Db) : Db :=
  {| tenants_tbl := tenants_tbl db; users_tbl := v;
     referrals_tbl := referrals_tbl db;
     rewards_ledger_tbl := rewards_ledger_tbl db;
     events_tbl := events_tbl db; rate_limits_tbl := rate_limits_tbl db;
     webhook_deliveries_tbl := webhook_deliveries_tbl db |}.

Definition set_referrals (v : list referrals.row) (db : Db) : Db :=
  {| tenants_tbl := tenants_tbl db; users_tbl := users_tbl db;
     referrals_tbl := v;
     rewards_ledger_tbl := rewards_ledger_tbl db;
     events_tbl := events_tbl db; rate_limits_tbl := rate_limits_tbl db;
     webhook_deliveries_tbl := webhook_deliveries_tbl db |}.

Definition set_rewards_ledger (v : list rewardsLedger.row) (db : Db) : Db :=
  {| tenants_tbl := tenants_tbl db; users_tbl := users_tbl db;
     referrals_tbl := referrals_tbl db;
     rewards_ledger_tbl := v;
     events_tbl := events_tbl db; rate_limits_tbl := rate_limits_tbl db;
     webhook_deliveries_tbl := webhook_deliveries_tbl db |}.

Definition set_events (v : list events.row) (db : Db) : Db :=
  {| tenants_tbl := tenants_tbl db; users_tbl := users_tbl db;
     referrals_tbl := referrals_tbl db;
     rewards_ledger_tbl := rewards_ledger_tbl db;
     events_tbl := v; rate_limits_tbl := rate_limits_tbl db;
     webhook_deliveries_tbl := webhook_deliveries_tbl db |}.

Definition set_rate_limits (v : gmap (string * string * Z) Z) (db : Db) : Db :=
  {| tenants_tbl := tenants_tbl db; users_tbl := users_tbl db;
     referrals_tbl := referrals_tbl db;
     rewards_ledger_tbl := rewards_ledger_tbl db;
     events_tbl := events_tbl db; rate_limits_tbl := v;
     webhook_deliveries_tbl := webhook_deliveries_tbl db |}.

Definition set_webhook_deliveries (v : list webhookDeliveries.row) (db : Db) : Db :=
  {| tenants_tbl := tenants_tbl db; users_tbl := users_tbl db;
     referrals_tbl := referrals_tbl db;
     rewards_ledger_tbl := rewards_ledger_tbl db;
     events_tbl := events_tbl db; rate_limits_tbl := rate_limits_tbl db;
     webhook_deliveries_tbl := v |}.

(** ** The rate limiter ([lib/rate-limit]) *)

Module RateLimit.
Import Js.

Definition WINDOW_MS : Z := 60000.

Record RateLimitConfig : Type := {
  key : string;
  tenantId : string;
  limit : Z;
  windowMs : option Z;
}.

Record RateLimitResult : Type := {
  allowed : bool;
  remaining : Z;
  resetAt : Z;
  retryAfterSeconds : Z;
}.

(** [now - (now % windowMs)]; [%] truncates like [Z.rem]. *)
Definition window_start (now windowMs : Z) : Z := now - Z.rem now windowMs.

(** [INSERT ... VALUES (tenant, key, window, amount) ON CONFLICT (tenant_id,
    key, window_start) DO UPDATE SET count = count + amount RETURNING count]. *)
Definition upsert (tenantId key : string) (windowStart amount : Z)
    (store : gmap (string * string * Z) Z) : Z * gmap (string * string * Z) Z :=
  let count :=
    match store !! (tenantId, key, windowStart) with
    | Some c => c + amount
    | None => amount
    end in
  (count, <[(tenantId, key, windowStart) := count]> store).

(** [store_ok] tells whether the statement runs ([true]) or the store
    errors ([false]), which the [catch] turns into an allowing result. *)
Definition checkRateLimit (config : RateLimitConfig) (now : Z) (store_ok : bool)
    (store : gmap (string * string * Z) Z)
    : RateLimitResult * gmap (string * string * Z) Z :=
  let windowMs := default WINDOW_MS (windowMs config) in
  let windowStart := window_start now windowMs in
  let resetAt := ceil_div (windowStart + windowMs) 1000 in
  if store_ok then
    let '(count, store') :=
      upsert (tenantId config) (key config) windowStart 1 store in
    let allowed := count <=? limit config in
    let remaining := Z.max 0 (limit config - count) in
    let retryAfterSeconds :=
      if allowed then 0 else ceil_div (resetAt * 1000 - now) 1000 in
    ({| allowed := allowed; remaining := remaining; resetAt := resetAt;
        retryAfterSeconds := retryAfterSeconds |}, store')
  else
    ({| allowed := true; remaining := limit config; resetAt := resetAt;
        retryAfterSeconds := 0 |}, store).

Definition incrementRateLimitKey (tenantId key : string) (amount : Z) (now : Z)
    (store_ok : bool) (store : gmap (string * string * Z) Z)
    : gmap (string * string * Z) Z :=
  let windowStart := window_start now WINDOW_MS in
  if store_ok then snd (upsert tenantId key windowStart amount store)
  else store.

Definition CLAIM_PER_IP : Z := 20.
Definition CLAIM_PER_USER : Z := 10.
Definition UPSERT_PER_TENANT : Z := 60.
Definition INVALID_REF_PER_IP : Z := 5.

End RateLimit.

(** ** Queries of [lib/db-helpers] *)

Module DbHelpers.

(** A string PostgreSQL takes as a text parameter: it holds no code unit
    0. With any other string the statement throws; the lookups below are
    the statements for the strings it takes. *)
Definition text_parameter (s : string) : bool :=
  forallb (fun c => negb (Nat.eqb (nat_of_ascii c) 0)) (list_ascii_of_string s).

Definition getUserByExternalId (tenantId externalUserId : string) (db : Db)
    : option users.row :=
  find (fun u => String.eqb (users.tenantId u) tenantId
                 && String.eqb (users.externalUserId u) externalUserId)
       (users_tbl db).

Definition getUserByReferralCode (tenantId referralCode : string) (db : Db)
    : option users.row :=
  find (fun u => String.eqb (users.tenantId u) tenantId
                 && String.eqb (users.referralCode u) referralCode)
       (users_tbl db).

Definition getUserById (userId : string) (db : Db) : option users.row :=
  find (fun u => String.eqb (users.id u) userId) (users_tbl db).

Definition getTenant (tenantId : string) (db : Db) : option tenants.row :=
  find (fun t => String.eqb (tenants.id t) tenantId) (tenants_tbl db).

Definition getReferralByReferredExternalUserId
    (tenantId referredExternalUserId : string) (db : Db)
    : option referrals.row :=
  find (fun r => String.eqb (referrals.tenantId r) tenantId
                 && String.eqb (referrals.referredExternalUserId r)
                      referredExternalUserId)
       (referrals_tbl db).

Definition countReferralsByReferrer (tenantId referrerUserId : string) (db : Db)
    : Z :=
  Z.of_nat (length (List.filter
    (fun r => String.eqb (referrals.tenantId r) tenantId
              && String.eqb (referrals.referrerUserId r) referrerUserId)
    (referrals_tbl db))).

(** [COALESCE(SUM((reward_json->>'amount')::numeric), 0)::int]: the cast to
    a 32-bit [int] fails the query ([None]) when the sum is out of range. *)
Definition sum_amounts (rows : list rewardsLedger.row) : Z :=
  fold_right Z.add 0
    (map (fun l => Rewards.amount (rewardsLedger.rewardJson l)) rows).

Definition sumRewardsByUser (tenantId userId : string) (db : Db) : option Z :=
  let total := sum_amounts (List.filter
    (fun l => String.eqb (rewardsLedger.tenantId l) tenantId
              && String.eqb (rewardsLedger.userId l) userId)
    (rewards_ledger_tbl db)) in
  if ((-2147483648 <=? total) && (total <=? 2147483647))%bool
  then Some total else None.

End DbHelpers.

(** ** Enqueueing a delivery ([lib/webhooks/enqueue]) *)

Module Enqueue.

Record EnqueueResult : Type := {
  deliveryId : string;
  eventId : string;
}.

(** [newId] is the UUID the insert draws, [now] the clock value of
    [new Date()]. *)
Definition enqueueWebhookDelivery (tenantId eventId webhookUrl : string)
    (now : Z) (newId : string) (db : Db) : EnqueueResult * Db :=
  let delivery := {|
    webhookDeliveries.id := newId;
    webhookDeliveries.tenantId := tenantId;
    webhookDeliveries.eventId := eventId;
    webhookDeliveries.url := webhookUrl;
    webhookDeliveries.status := "pending";
    webhookDeliveries.attemptCount := 0%nat;
    webhookDeliveries.lastAttemptAt := None;
    webhookDeliveries.nextAttemptAt := Some now;
    webhookDeliveries.lastError := None;
  |} in
  ({| deliveryId := webhookDeliveries.id delivery; eventId := eventId |},
   set_webhook_deliveries (webhook_deliveries_tbl db ++ [delivery]) db).

(** [tenant?.webhookUrl ?? null]. *)
Definition getTenantWebhookUrl (tenantId : string) (db : Db) : option string :=
  match DbHelpers.getTenant tenantId db with
  | Some tenant => tenants.webhookUrl tenant
  | None => None
  end.

(** [!webhookUrl]: the column is null or the empty string. *)
Definition url_unset (webhookUrl : option string) : bool :=
  match webhookUrl with
  | Some u => negb (Js.nonempty u)
  | None => true
  end.

Definition enqueueWebhookForExistingEvent (tenantId eventId : string)
    (now : Z) (newId : string) (db : Db) : option EnqueueResult * Db :=
  let webhookUrl := getTenantWebhookUrl tenantId db in
  match webhookUrl with
  | Some u =>
      if Js.nonempty u then
        let '(r, db') := enqueueWebhookDelivery tenantId eventId u now newId db in
        (Some r, db')
      else (None, db)
  | None => (None, db)
  end.

End Enqueue.

(** ** Statements run inside [db.transaction] *)

(** A transaction step reads and writes the tables, or throws ([None]);
    a throw anywhere aborts the whole transaction. *)
Module Tx.

Definition t (A : Type) : Type := Db -> option (A * Db).

Definition ret {A : Type} (a : A) : t A := fun db => Some (a, db).

Definition bind {A B : Type} (m : t A) (k : A -> t B) : t B :=
  fun db =>
    match m db with
    | Some (a, db') => k a db'
    | None => None
    end.

Definition throw {A : Type} : t A := fun _ => None.

Definition query {A : Type} (q : Db -> A) : t A := fun db => Some (q db, db).

(** [insert(users).values(u).onConflictDoNothing().returning()]: the unique
    indexes are (tenant, external user id) and (tenant, referral code). *)
Definition insert_user_onConflictDoNothing (u : users.row) : t (option users.row) :=
  fun db =>
    if existsb
         (fun v => String.eqb (users.tenantId v) (users.tenantId u)
                   && (String.eqb (users.externalUserId v) (users.externalUserId u)
                       || String.eqb (users.referralCode v) (users.referralCode u)))
         (users_tbl db)
    then Some (None, db)
    else Some (Some u, set_users (users_tbl db ++ [u]) db).

(** [insert(referrals).values(r).returning()]: a second row for the same
    (tenant, referred external user id) violates the unique index. *)
Definition insert_referral (r : referrals.row) : t referrals.row :=
  fun db =>
    if existsb
         (fun v => String.eqb (referrals.tenantId v) (referrals.tenantId r)
                   && String.eqb (referrals.referredExternalUserId v)
                        (referrals.referredExternalUserId r))
         (referrals_tbl db)
    then None
    else Some (r, set_referrals (referrals_tbl db ++ [r]) db).

(** The unique index of the ledger: (tenant, event id, user). *)
Definition ledger_conflict (l v : rewardsLedger.row) : bool :=
  String.eqb (rewardsLedger.tenantId v) (rewardsLedger.tenantId l)
  && String.eqb (rewardsLedger.eventId v) (rewardsLedger.eventId l)
  && String.eqb (rewardsLedger.userId v) (rewardsLedger.userId l).

(** [insert(rewardsLedger).values(l).onConflictDoNothing()]. *)
Definition insert_ledger_onConflictDoNothing (l : rewardsLedger.row) : t unit :=
  fun db =>
    if existsb (ledger_conflict l) (rewards_ledger_tbl db)
    then Some (tt, db)
    else Some (tt, set_rewards_ledger (rewards_ledger_tbl db ++ [l]) db).

(** [insert(events).values(e).returning()]. *)
Definition insert_event (e : events.row) : t events.row :=
  fun db => Some (e, set_events (events_tbl db ++ [e]) db).

End Tx.

Notation "'do' x <- m ; k" := (Tx.bind m (fun x => k))
  (at level 10, x name, m at level 100, k at level 200).

(** ** The claim route ([app/api/v1/referrals/claim/route]) *)

Module Claim.
Import Js.

Definition MAX_EXTERNAL_USER_ID_LENGTH : nat := 255.
Definition MAX_REFERRAL_CODE_LENGTH : nat := 50.

Record ClaimReferralInput : Type := {
  referralCode : string;
  referredUserId : string;
}.

(** [z.string().min(1)] on a member of the body. *)
Definition string_min1 (v : option json) : option string :=
  match v with
  | Some (JStr s) => if nonempty s then Some s else None
  | _ => None
  end.

(** [claimReferralSchema.safeParse]; [None] is a failed parse. *)
Definition safeParse (data : json) : option ClaimReferralInput :=
  match data with
  | JObj _ =>
      match string_min1 (get data "referralCode"),
            string_min1 (get data "referredUserId") with
      | Some c, Some u => Some {| referralCode := c; referredUserId := u |}
      | _, _ => None
      end
  | _ => None
  end.

(** The request: the two headers [getClientIp] reads, and the body
    ([None] when it is not valid JSON, so that [parseJsonBody] fails). *)
Record Request : Type := {
  x_forwarded_for : option string;
  x_real_ip : option string;
  body : option json;
}.

Definition getClientIp (request : Request) : string :=
  match x_forwarded_for request with
  | Some xff =>
      if nonempty xff then trim (before_comma xff)
      else match x_real_ip request with
           | Some realIp => if nonempty realIp then realIp else "unknown"
           | None => "unknown"
           end
  | None =>
      match x_real_ip request with
      | Some realIp => if nonempty realIp then realIp else "unknown"
      | None => "unknown"
      end
  end.

Record ReferralView : Type := {
  id : string;
  referrerUserId : string;
  referredExternalUserId : string;
  refCodeUsed : string;
  status : string;
  createdAt : Z;
}.

Record RewardView : Type := {
  amount : Z;
  currency : string;
}.

Record ClaimReferralResponse : Type := {
  referral : ReferralView;
  referrerReward : option RewardView;
  referredReward : option RewardView;
  alreadyProcessed : bool;
}.

(** The [details] argument of [errorResponse]. *)
Inductive Details : Type :=
| NoDetails
| RateLimitDetails (limit : option Z) (retryAfterSeconds : Z)
| ValidationErrors
| CapDetails (limit current : Z).

(** What the handler produces: one of the two response builders of
    [lib/request] (the human-readable message is left out), or an
    exception that escapes it. *)
Inductive Response : Type :=
| successResponse (data : ClaimReferralResponse) (status : Z)
| errorResponse (code : string) (status : Z) (details : Details)
| thrown.

(** The statements sent to the rate-limit store, in source order. *)
Inductive RlCall : Type :=
| ClaimIpCheck
| ClaimUserCheck
| InvalidRefIncrement
| InvalidRefCheck.

(** What the environment contributes to one request. *)
Record Env : Type := {
  now : Z;
  store_ok : RlCall -> bool;
  enqueue_ok : bool;
  newUserId : string;
  newReferralId : string;
  newReferrerLedgerId : string;
  newReferredLedgerId : string;
  newEventId : string;
  newDeliveryId : string;
}.

(** [checkRateLimit({ tenantId, key, limit })] as the handler calls it:
    the statement runs on the [rate_limits] table of the database. *)
Definition check (tenantId key : string) (limit : Z) (call : RlCall)
    (env : Env) (db : Db) : RateLimit.RateLimitResult * Db :=
  let '(r, store) :=
    RateLimit.checkRateLimit
      {| RateLimit.key := key; RateLimit.tenantId := tenantId;
         RateLimit.limit := limit; RateLimit.windowMs := None |}
      (now env) (store_ok env call) (rate_limits_tbl db) in
  (r, set_rate_limits store db).

(** The body of the idempotent reply, shared by the two places that
    build it. *)
Definition replay_response (existingReferral : referrals.row) (db : Db)
    : Response :=
  let referrerUser :=
    DbHelpers.getUserById (referrals.referrerUserId existingReferral) db in
  successResponse
    {| referral := {|
         id := referrals.id existingReferral;
         referrerUserId :=
           match referrerUser with
           | Some u =>
               if nonempty (users.externalUserId u) then users.externalUserId u
               else referrals.referrerUserId existingReferral
           | None => referrals.referrerUserId existingReferral
           end;
         referredExternalUserId :=
           referrals.referredExternalUserId existingReferral;
         refCodeUsed := referrals.refCodeUsed existingReferral;
         status := referrals.status existingReferral;
         createdAt := referrals.createdAt existingReferral;
       |};
       referrerReward := None;
       referredReward := None;
       alreadyProcessed := true;
    |} 200.

(** [referralSettings?.max_referrals_per_referrer], read at its declared
    type [number | undefined]. *)
Definition maxReferralsPerReferrer (tenant : option tenants.row) : option Z :=
  match tenant with
  | Some t =>
      match tenants.referralSettingsJson t with
      | Some settings =>
          match get settings "max_referrals_per_referrer" with
          | Some (JNum n) => Some n
          | _ => None
          end
      | None => None
      end
  | None => None
  end.

Definition tenantRewardSettings (tenant : option tenants.row) : option json :=
  match tenant with
  | Some t => tenants.referralSettingsJson t
  | None => None
  end.

Inductive TxOutcome : Type :=
| AlreadyProcessed (referral : referrals.row)
| Created (referral : referrals.row)
    (rewards : Rewards.CalculateRewardsOutput) (eventId : string).

Definition ledger_row (tenantId id : string) (e : Rewards.RewardEntry)
    (createdAt : Z) : rewardsLedger.row :=
  {| rewardsLedger.id := id;
     rewardsLedger.tenantId := tenantId;
     rewardsLedger.userId := Rewards.userId e;
     rewardsLedger.source := Rewards.source e;
     rewardsLedger.eventId := Rewards.eventId e;
     rewardsLedger.rewardJson := Rewards.rewardJson e;
     rewardsLedger.createdAt := createdAt |}.

Definition insert_reward (tenantId id : string)
    (reward : option Rewards.RewardEntry) (createdAt : Z) : Tx.t unit :=
  match reward with
  | Some e => Tx.insert_ledger_onConflictDoNothing (ledger_row tenantId id e createdAt)
  | None => Tx.ret tt
  end.

(** The callback passed to [db.transaction]. [referredUser0] is the value
    of the variable [referredUser] read before the transaction starts. *)
Definition transaction (tenantId : string) (input : ClaimReferralInput)
    (referrer : users.row) (tenant : option tenants.row)
    (referredUser0 : option users.row) (env : Env) : Tx.t TxOutcome :=
  do doubleCheck <- Tx.query (DbHelpers.getReferralByReferredExternalUserId
                             tenantId (referredUserId input)) ;
  match doubleCheck with
  | Some r => Tx.ret (AlreadyProcessed r)
  | None =>
      do referredUser <-
        match referredUser0 with
        | Some u => Tx.ret (Some u)
        | None =>
            do newUser <- Tx.insert_user_onConflictDoNothing
              {| users.id := newUserId env;
                 users.tenantId := tenantId;
                 users.externalUserId := referredUserId input;
                 users.email := None;
                 users.plan := "free";
                 users.referralCode :=
                   "ref_pending_" +:+ slice0 8 (referredUserId input) |} ;
            match newUser with
            | Some u => Tx.ret (Some u)
            | None =>
                Tx.query (DbHelpers.getUserByExternalId
                            tenantId (referredUserId input))
            end
        end ;
      match referredUser with
      | None => Tx.throw
      | Some referredUser =>
          do newReferral <- Tx.insert_referral
            {| referrals.id := newReferralId env;
               referrals.tenantId := tenantId;
               referrals.referrerUserId := users.id referrer;
               referrals.referredExternalUserId := referredUserId input;
               referrals.referredUserId := Some (users.id referredUser);
               referrals.refCodeUsed := referralCode input;
               referrals.status := "completed";
               referrals.createdAt := now env;
               referrals.completedAt := Some (now env) |} ;
          let rewardCalc := Rewards.calculateRewards
            {| Rewards.in_referralId := referrals.id newReferral;
               Rewards.in_referrerUserId := users.id referrer;
               Rewards.in_referrerExternalUserId := users.externalUserId referrer;
               Rewards.in_referrerTier := users.plan referrer;
               Rewards.in_referredUserId := users.id referredUser;
               Rewards.in_referredExternalUserId := referredUserId input;
               Rewards.in_tenantRewardSettings := tenantRewardSettings tenant |} in
          do _ <- insert_reward tenantId (newReferrerLedgerId env)
                 (Rewards.referrerReward rewardCalc) (now env) ;
          do _ <- insert_reward tenantId (newReferredLedgerId env)
                 (Rewards.referredReward rewardCalc) (now env) ;
          do claimEvent <- Tx.insert_event
            {| events.id := newEventId env;
               events.tenantId := tenantId;
               events.type := "referral.claimed";
               events.payloadJson :=
                 events.ReferralClaimed
                   (referrals.id newReferral)
                   (users.externalUserId referrer)
                   (referredUserId input)
                   (referralCode input)
                   (option_map Rewards.rewardJson
                      (Rewards.referrerReward rewardCalc))
                   (option_map Rewards.rewardJson
                      (Rewards.referredReward rewardCalc));
               events.createdAt := now env |} ;
          Tx.ret (Created newReferral rewardCalc (events.id claimEvent))
      end
  end.

Definition reward_view (e : option Rewards.RewardEntry) : option RewardView :=
  match e with
  | Some r =>
      Some {| amount := Rewards.amount (Rewards.rewardJson r);
              currency := Rewards.reward_currency (Rewards.rewardJson r) |}
  | None => None
  end.

(** After the commit: the fire-and-forget enqueue, whose rejection the
    empty [catch] swallows, and the 201 reply. [enqueue_ok env = false] is
    an enqueue whose statements fail. *)
Definition after_commit (tenantId : string) (referrer : users.row)
    (newReferral : referrals.row) (rewards : Rewards.CalculateRewardsOutput)
    (eventId : string) (env : Env) (db : Db) : Response * Db :=
  let db' :=
    if nonempty eventId then
      if enqueue_ok env then
        snd (Enqueue.enqueueWebhookForExistingEvent
               tenantId eventId (now env) (newDeliveryId env) db)
      else db
    else db in
  (successResponse
     {| referral := {|
          id := referrals.id newReferral;
          referrerUserId := users.externalUserId referrer;
          referredExternalUserId := referrals.referredExternalUserId newReferral;
          refCodeUsed := referrals.refCodeUsed newReferral;
          status := referrals.status newReferral;
          createdAt := referrals.createdAt newReferral;
        |};
        referrerReward := reward_view (Rewards.referrerReward rewards);
        referredReward := reward_view (Rewards.referredReward rewards);
        alreadyProcessed := false;
     |} 201, db').

(** From the resolved referrer on: self-referral, cap, transaction. *)
Definition claim_with_referrer (tenantId : string) (input : ClaimReferralInput)
    (referrer : users.row) (env : Env) (db : Db) : Response * Db :=
  if String.eqb (users.externalUserId referrer) (referredUserId input) then
    (errorResponse "SELF_REFERRAL" 400 NoDetails, db)
  else
    let tenant := DbHelpers.getTenant tenantId db in
    let capped :=
      match maxReferralsPerReferrer tenant with
      | Some max =>
          if 0 <? max then
            let currentCount :=
              DbHelpers.countReferralsByReferrer tenantId (users.id referrer) db in
            if max <=? currentCount then Some (max, currentCount) else None
          else None
      | None => None
      end in
    match capped with
    | Some (max, currentCount) =>
        (errorResponse "REFERRAL_CAP_REACHED" 400 (CapDetails max currentCount), db)
    | None =>
        let referredUser :=
          DbHelpers.getUserByExternalId tenantId (referredUserId input) db in
        match transaction tenantId input referrer tenant referredUser env db with
        | None => (thrown, db)
        | Some (AlreadyProcessed r, db') => (replay_response r db', db')
        | Some (Created newReferral rewards eventId, db') =>
            after_commit tenantId referrer newReferral rewards eventId env db'
        end
    end.

(** The branch taken when the referral code resolves to no user. *)
Definition claim_code_not_found (tenantId clientIp : string) (env : Env)
    (db : Db) : Response * Db :=
  let db1 := set_rate_limits
    (RateLimit.incrementRateLimitKey tenantId ("invalid_ref:ip:" +:+ clientIp) 1
       (now env) (store_ok env InvalidRefIncrement) (rate_limits_tbl db)) db in
  let '(invalidRefLimit, db2) :=
    check tenantId ("invalid_ref:ip:" +:+ clientIp)
      RateLimit.INVALID_REF_PER_IP InvalidRefCheck env db1 in
  if negb (RateLimit.allowed invalidRefLimit) then
    (errorResponse "RATE_LIMITED" 429
       (RateLimitDetails None (RateLimit.retryAfterSeconds invalidRefLimit)), db2)
  else (errorResponse "REFERRAL_CODE_NOT_FOUND" 404 NoDetails, db2).

(** From the parsed input on: length limits, per-user rate limit,
    idempotency short-circuit, referrer lookup. *)
Definition claim_with_input (tenantId clientIp : string)
    (input : ClaimReferralInput) (env : Env) (db : Db) : Response * Db :=
  if Nat.ltb MAX_EXTERNAL_USER_ID_LENGTH (String.length (referredUserId input))
  then (errorResponse "INVALID_REQUEST" 400 NoDetails, db)
  else if Nat.ltb MAX_REFERRAL_CODE_LENGTH (String.length (referralCode input))
  then (errorResponse "INVALID_REQUEST" 400 NoDetails, db)
  else
    let '(userRateLimit, db1) :=
      check tenantId ("claim:user:" +:+ referredUserId input)
        RateLimit.CLAIM_PER_USER ClaimUserCheck env db in
    if negb (RateLimit.allowed userRateLimit) then
      (errorResponse "RATE_LIMITED" 429
         (RateLimitDetails (Some RateLimit.CLAIM_PER_USER)
            (RateLimit.retryAfterSeconds userRateLimit)), db1)
    else
      match DbHelpers.getReferralByReferredExternalUserId
              tenantId (referredUserId input) db1 with
      | Some existingReferral => (replay_response existingReferral db1, db1)
      | None =>
          match DbHelpers.getUserByReferralCode
                  tenantId (referralCode input) db1 with
          | None => claim_code_not_found tenantId clientIp env db1
          | Some referrer => claim_with_referrer tenantId input referrer env db1
          end
      end.

Definition handleClaimReferral (tenantId : string) (request : Request)
    (env : Env) (db : Db) : Response * Db :=
  let clientIp := getClientIp request in
  let '(ipRateLimit, db0) :=
    check tenantId ("claim:ip:" +:+ clientIp)
      RateLimit.CLAIM_PER_IP ClaimIpCheck env db in
  if negb (RateLimit.allowed ipRateLimit) then
    (errorResponse "RATE_LIMITED" 429
       (RateLimitDetails (Some RateLimit.CLAIM_PER_IP)
          (RateLimit.retryAfterSeconds ipRateLimit)), db0)
  else
    match body request with
    | None => (errorResponse "INVALID_REQUEST" 400 NoDetails, db0)
    | Some data =>
        match safeParse data with
        | None => (errorResponse "INVALID_REQUEST" 400 ValidationErrors, db0)
        | Some input => claim_with_input tenantId clientIp input env db0
        end
    end.

End Claim.

(** ** The replay route ([app/api/v1/webhooks/replay/route]) *)

Module Replay.

Inductive HandlerOutcome : Type :=
| Ok (eventId deliveryId eventType : string) (status : Z)
| Err (code : string) (status : Z).

(** [eq(events.id, eventId)]: the column is a [uuid], so the request's
    text is read as a UUID and compared by value; the schema has let
    through hexadecimal digits of either case, and the case makes no
    difference to the value. *)
Definition same_uuid (id eventId : string) : bool :=
  String.eqb (Js.toLowerCase id) (Js.toLowerCase eventId).

(** The handler from [const { eventId } = validation.data] on: [eventId]
    has passed the zod UUID schema. [newId] is the UUID the insert draws. *)
Definition POST (tenantId eventId : string) (now : Z) (newId : string)
    (db : Db) : HandlerOutcome * Db :=
  let event :=
    find (fun e => String.eqb (events.tenantId e) tenantId
                   && same_uuid (events.id e) eventId)
         (events_tbl db) in
  match event with
  | None => (Err "EVENT_NOT_FOUND" 404, db)
  | Some event =>
      let tenant :=
        find (fun t => String.eqb (tenants.id t) tenantId) (tenants_tbl db) in
      let webhookUrl :=
        match tenant with
        | Some t => tenants.webhookUrl t
        | None => None
        end in
      match webhookUrl with
      | Some u =>
          if Js.nonempty u then
            let delivery := {|
              webhookDeliveries.id := newId;
              webhookDeliveries.tenantId := tenantId;
              webhookDeliveries.eventId := events.id event;
              webhookDeliveries.url := u;
              webhookDeliveries.status := "pending";
              webhookDeliveries.attemptCount := 0%nat;
              webhookDeliveries.lastAttemptAt := None;
              webhookDeliveries.nextAttemptAt := Some now;
              webhookDeliveries.lastError := None;
            |} in
            (Ok (events.id event) (webhookDeliveries.id delivery)
                (events.type event) 201,
             set_webhook_deliveries (webhook_deliveries_tbl db ++ [delivery]) db)
          else (Err "WEBHOOK_NOT_CONFIGURED" 400, db)
      | None => (Err "WEBHOOK_NOT_CONFIGURED" 400, db)
      end
  end.

End Replay.

(** ** The webhook worker ([workers/webhook-worker]) *)

Module Worker.

(** The environment variables the worker reads at start-up, as integers. *)
Record Config : Type := {
  WEBHOOK_RETRY_LIMIT : Z;
  WEBHOOK_TIMEOUT_MS : Z;
  BATCH_SIZE : nat;
  CONCURRENCY : nat;
  WEBHOOK_SIGNING_SECRET : option string;
}.

(** The values used when the variables are not set. *)
Definition default_config (secret : option string) : Config := {|
  WEBHOOK_RETRY_LIMIT := 6;
  WEBHOOK_TIMEOUT_MS := 30000;
  BATCH_SIZE := 10;
  CONCURRENCY := 5;
  WEBHOOK_SIGNING_SECRET := secret;
|}.

Definition RETRY_DELAYS_MS : list Z :=
  [0; 10000; 60000; 300000; 1800000; 7200000].

Definition getNextAttemptDelay (attemptCount : nat) : Z :=
  if Nat.leb (length RETRY_DELAYS_MS) attemptCount then
    nth (length RETRY_DELAYS_MS - 1) RETRY_DELAYS_MS 0
  else nth attemptCount RETRY_DELAYS_MS 0.

Record DeliveryRecord : Type := {
  id : string;
  tenantId : string;
  eventId : string;
  url : string;
  status : string;
  attemptCount : nat;
}.

Definition record_of (d : webhookDeliveries.row) : DeliveryRecord := {|
  id := webhookDeliveries.id d;
  tenantId := webhookDeliveries.tenantId d;
  eventId := webhookDeliveries.eventId d;
  url := webhookDeliveries.url d;
  status := webhookDeliveries.status d;
  attemptCount := webhookDeliveries.attemptCount d;
|}.

(** [status = 'pending' AND next_attempt_at <= now]; a null
    [next_attempt_at] satisfies no comparison. *)
Definition due (now : Z) (d : webhookDeliveries.row) : bool :=
  String.eqb (webhookDeliveries.status d) "pending"
  && match webhookDeliveries.nextAttemptAt d with
     | Some t => t <=? now
     | None => false
     end.

(** One worker polls alone, so no row is skipped as locked. *)
Definition fetchDueDeliveries (cfg : Config) (now : Z) (db : Db)
    : list DeliveryRecord :=
  map record_of
    (firstn (BATCH_SIZE cfg) (List.filter (due now) (webhook_deliveries_tbl db))).

(** The body that is serialised and posted. *)
Record WebhookBody : Type := {
  body_id : string;
  body_type : string;
  body_tenantId : string;
  body_timestamp : Z;
  body_data : events.payload;
}.

(** An outgoing request; the three signed headers are not part of the
    model, only that building them throws without a signing secret. *)
Record HttpRequest : Type := {
  req_url : string;
  req_body : WebhookBody;
}.

(** How a [fetch] ends: a response with its status and text, the abort of
    the timeout, another [Error], or a thrown value that is no [Error]. *)
Inductive FetchOutcome : Type :=
| Responded (status : Z) (text : string)
| Aborted
| Rejected (message : string)
| RejectedOther.

(** [response.ok]. *)
Definition ok_status (status : Z) : bool := (200 <=? status) && (status <=? 299).

Definition success_of (o : FetchOutcome) : bool :=
  match o with
  | Responded status _ => ok_status status
  | _ => false
  end.

Definition statusCode_of (o : FetchOutcome) : option Z :=
  match o with
  | Responded status _ => Some status
  | _ => None
  end.

Definition errorMessage_of (cfg : Config) (o : FetchOutcome) : option string :=
  match o with
  | Responded status text =>
      if ok_status status then None
      else Some ("HTTP " +:+ pretty status +:+ ": " +:+ Js.slice0 200 text)
  | Aborted =>
      Some ("Timeout after " +:+ pretty (WEBHOOK_TIMEOUT_MS cfg) +:+ "ms")
  | Rejected message => Some (Js.slice0 200 message)
  | RejectedOther => Some "Unknown error"
  end.

(** [update(webhookDeliveries).set(...).where(eq(webhookDeliveries.id, id))]. *)
Definition update_delivery (deliveryId : string)
    (set : webhookDeliveries.row -> webhookDeliveries.row)
    (rows : list webhookDeliveries.row) : list webhookDeliveries.row :=
  map (fun r => if String.eqb (webhookDeliveries.id r) deliveryId then set r else r)
      rows.

(** What the environment contributes to one delivery attempt. *)
Record Attempt : Type := {
  fetch : HttpRequest -> FetchOutcome;
  now : Z;
  newEventId : string;
}.

(** The result is the database after the attempt and the requests sent;
    [None] is an exception ([getWebhookHeaders] without a signing secret),
    raised before anything is written. *)
Definition processDelivery (cfg : Config) (delivery : DeliveryRecord)
    (a : Attempt) (db : Db) : option (Db * list HttpRequest) :=
  let event :=
    find (fun e => String.eqb (events.tenantId e) (tenantId delivery)
                   && String.eqb (events.id e) (eventId delivery))
         (events_tbl db) in
  match event with
  | None =>
      Some
        (set_webhook_deliveries
           (update_delivery (id delivery)
              (fun r => {|
                 webhookDeliveries.id := webhookDeliveries.id r;
                 webhookDeliveries.tenantId := webhookDeliveries.tenantId r;
                 webhookDeliveries.eventId := webhookDeliveries.eventId r;
                 webhookDeliveries.url := webhookDeliveries.url r;
                 webhookDeliveries.status := "failed";
                 webhookDeliveries.attemptCount := webhookDeliveries.attemptCount r;
                 webhookDeliveries.lastAttemptAt := Some (now a);
                 webhookDeliveries.nextAttemptAt := None;
                 webhookDeliveries.lastError := Some "Event not found";
               |})
              (webhook_deliveries_tbl db)) db,
         [])
  | Some event =>
      let payload := {|
        body_id := events.id event;
        body_type := events.type event;
        body_tenantId := events.tenantId event;
        body_timestamp := events.createdAt event;
        body_data := events.payloadJson event;
      |} in
      match WEBHOOK_SIGNING_SECRET cfg with
      | None => None
      | Some secret =>
          if negb (Js.nonempty secret) then None
          else
            let request := {| req_url := url delivery; req_body := payload |} in
            let outcome := fetch a request in
            let statusCode := statusCode_of outcome in
            let errorMessage := errorMessage_of cfg outcome in
            let success := success_of outcome in
            let newAttemptCount := (attemptCount delivery + 1)%nat in
            if success then
              let db1 :=
                set_webhook_deliveries
                  (update_delivery (id delivery)
                     (fun r => {|
                        webhookDeliveries.id := webhookDeliveries.id r;
                        webhookDeliveries.tenantId := webhookDeliveries.tenantId r;
                        webhookDeliveries.eventId := webhookDeliveries.eventId r;
                        webhookDeliveries.url := webhookDeliveries.url r;
                        webhookDeliveries.status := "success";
                        webhookDeliveries.attemptCount := newAttemptCount;
                        webhookDeliveries.lastAttemptAt := Some (now a);
                        webhookDeliveries.nextAttemptAt := None;
                        webhookDeliveries.lastError := None;
                      |})
                     (webhook_deliveries_tbl db)) db in
              Some
                (set_events
                   (events_tbl db1 ++
                    [{| events.id := newEventId a;
                        events.tenantId := tenantId delivery;
                        events.type := "webhook.sent";
                        events.payloadJson :=
                          events.WebhookSent (id delivery) (eventId delivery)
                            statusCode newAttemptCount (url delivery);
                        events.createdAt := now a |}]) db1,
                 [request])
            else
              let exhausted :=
                WEBHOOK_RETRY_LIMIT cfg <=? Z.of_nat newAttemptCount in
              let newStatus := if exhausted then "failed" else "pending" in
              let nextAttemptAt :=
                if exhausted then None
                else Some (now a + getNextAttemptDelay newAttemptCount) in
              let db1 :=
                set_webhook_deliveries
                  (update_delivery (id delivery)
                     (fun r => {|
                        webhookDeliveries.id := webhookDeliveries.id r;
                        webhookDeliveries.tenantId := webhookDeliveries.tenantId r;
                        webhookDeliveries.eventId := webhookDeliveries.eventId r;
                        webhookDeliveries.url := webhookDeliveries.url r;
                        webhookDeliveries.status := newStatus;
                        webhookDeliveries.attemptCount := newAttemptCount;
                        webhookDeliveries.lastAttemptAt := Some (now a);
                        webhookDeliveries.nextAttemptAt := nextAttemptAt;
                        webhookDeliveries.lastError := errorMessage;
                      |})
                     (webhook_deliveries_tbl db)) db in
              Some
                (set_events
                   (events_tbl db1 ++
                    [{| events.id := newEventId a;
                        events.tenantId := tenantId delivery;
                        events.type :=
                          if exhausted then "webhook.exhausted" else "webhook.failed";
                        events.payloadJson :=
                          events.WebhookNotSent (id delivery) (eventId delivery)
                            statusCode newAttemptCount errorMessage (url delivery);
                        events.createdAt := now a |}]) db1,
                 [request])
      end
  end.

(** The deliveries of a batch, taken one after the other in batch order
    (a chunk of [CONCURRENCY] deliveries runs interleaved in the source;
    each delivery writes its own row and appends its own event). A
    delivery that throws is logged and skipped. [attempt] gives the
    environment of the attempt made for a delivery id. *)
Fixpoint processWithConcurrency (cfg : Config) (deliveries : list DeliveryRecord)
    (attempt : string -> Attempt) (db : Db) : Db * list HttpRequest :=
  match deliveries with
  | [] => (db, [])
  | delivery :: rest =>
      let '(db1, sent1) :=
        match processDelivery cfg delivery (attempt (id delivery)) db with
        | Some r => r
        | None => (db, [])
        end in
      let '(db2, sent2) := processWithConcurrency cfg rest attempt db1 in
      (db2, (sent1 ++ sent2)%list)
  end.

(** One turn of [runWorkerLoop]: poll at [now], then process the batch. *)
Definition poll (cfg : Config) (now : Z) (attempt : string -> Attempt)
    (db : Db) : Db * list HttpRequest :=
  processWithConcurrency cfg (fetchDueDeliveries cfg now db) attempt db.

(** [runWorkerLoop] up to shutdown: one entry of [turns] per turn of the
    loop, with the clock value of its poll and the environment of its
    attempts. The sleep between two turns shows in the clock values. *)
Fixpoint runWorkerLoop (cfg : Config) (turns : list (Z * (string -> Attempt)))
    (db : Db) : Db * list HttpRequest :=
  match turns with
  | [] => (db, [])
  | (now, attempt) :: rest =>
      let '(db1, sent1) := poll cfg now attempt db in
      let '(db2, sent2) := runWorkerLoop cfg rest db1 in
      (db2, (sent1 ++ sent2)%list)
  end.

End Worker.

(** ** The reward evaluator as the specification words it *)

Module RewardSpec.
Import Js Rewards.

(** The number configured under [field], if the rules are an object that
    has a numeric member of that name. *)
Definition configured_number (rules : option json) (field : string) : option Z :=
  match rules with
  | Some (JObj members) =>
      match assoc field members with
      | Some (JNum n) => Some n
      | _ => None
      end
  | _ => None
  end.

Definition documented_default (tier : SubscriptionTier) : Z :=
  match tier with
  | free => 100
  | pro => 200
  | power_pro => 300
  end.

Definition documented_onboarding_bonus : Z := 0.

Definition tier_field (tier : SubscriptionTier) : string :=
  match tier with
  | free => "referral_reward_free"
  | pro => "referral_reward_pro"
  | power_pro => "referral_reward_power_pro"
  end.

(** White space as ECMAScript defines it, for 8-bit code units: character
    tabulation, line feed, line tabulation, form feed, carriage return,
    space, no-break space. *)
Definition white_space (c : ascii) : bool :=
  existsb (Nat.eqb (nat_of_ascii c)) [9; 10; 11; 12; 13; 32; 160]%nat.

(** The string holds nothing but white space. *)
Definition blank (s : string) : bool :=
  forallb white_space (list_ascii_of_string s).

(** The characters without the white space they begin with. *)
Fixpoint drop_blank_start (l : list ascii) : list ascii :=
  match l with
  | [] => []
  | c :: rest => if white_space c then drop_blank_start rest else l
  end.

(** The characters without the white space they end with. *)
Fixpoint drop_blank_end (l : list ascii) : list ascii :=
  match l with
  | [] => []
  | c :: rest =>
      match drop_blank_end rest with
      | [] => if white_space c then [] else [c]
      | kept => c :: kept
      end
  end.

(** The name a tier is read as: letter case and the white space around
    it do not count. *)
Definition tier_read_as (t : string) : string :=
  string_of_list_ascii
    (drop_blank_end (drop_blank_start (list_ascii_of_string (toLowerCase t)))).

(** The tier a referrer is rewarded at: a missing tier and a tier that
    names none of the paid tiers are the lowest tier. *)
Definition reference_tier (tier : option string) : SubscriptionTier :=
  match tier with
  | None => free
  | Some t =>
      let name := tier_read_as t in
      if String.eqb name "pro" then pro
      else if String.eqb name "power_pro" then power_pro
      else if String.eqb name "powerpro" then power_pro
      else free
  end.

Definition reference_referrer_amount (rules : option json) (tier : option string)
    : Z :=
  let t := reference_tier tier in
  default (documented_default t) (configured_number rules (tier_field t)).

Definition reference_referred_amount (rules : option json) : Z :=
  default documented_onboarding_bonus (configured_number rules "onboarding_bonus").

(** The rules hold no currency, or hold the empty string. *)
Definition currency_missing_or_empty (rules : option json) : bool :=
  match rules with
  | Some (JObj members) =>
      match assoc "currency" members with
      | None => true
      | Some (JStr s) => negb (nonempty s)
      | Some _ => false
      end
  | _ => true
  end.

(** The currency of the rewards: the configured string, unless it is
    missing, not a string, empty or blank, and then AUD. *)
Definition reference_currency (rules : option json) : string :=
  match rules with
  | Some (JObj members) =>
      match assoc "currency" members with
      | Some (JStr s) => if blank s then "AUD" else s
      | _ => "AUD"
      end
  | _ => "AUD"
  end.

(** A side is granted only a positive amount. *)
Definition granted (amount : Z) : option Z :=
  if 0 <? amount then Some amount else None.

Definition entry_amount (e : RewardEntry) : Z := amount (rewardJson e).

Definition entry_currency (e : RewardEntry) : string :=
  reward_currency (rewardJson e).

End RewardSpec.

(** ** Referral codes ([lib/referral-code]) *)

From Stdlib Require Strings.Byte.

Module ReferralCode.

Definition URL_SAFE_CHARS : string :=
  "ABCDEFGHJKLMNPQRSTUVWXYZabcdefghjkmnpqrstuvwxyz23456789".

(** [chars[n]] as the concatenation sees it: an index past the end is
    [undefined], which [+=] prints. *)
Definition char_at (chars : string) (n : nat) : string :=
  match String.get n chars with
  | Some c => String c EmptyString
  | None => "undefined"
  end.

(** [bytes] is the buffer of [crypto.randomBytes(length)]: [bytes i] is
    [bytes[i]], read for [i < length] only. *)
Definition generateUrlSafeRandom (length : nat) (bytes : nat -> Byte.byte)
    : string :=
  fold_left
    (fun result i =>
       result +:+ char_at URL_SAFE_CHARS
                    (Byte.to_nat (bytes i) mod String.length URL_SAFE_CHARS))
    (seq 0 length) "".

Definition generateReferralCodeCandidate (bytes : nat -> Byte.byte) : string :=
  let randomPart := generateUrlSafeRandom 12 bytes in
  "ref_" +:+ randomPart.

Definition checkCodeExists (tenantId code : string) (db : Db) : bool :=
  match find (fun u => String.eqb (users.tenantId u) tenantId
                       && String.eqb (users.referralCode u) code)
             (users_tbl db) with
  | Some _ => true
  | None => false
  end.

(** The loop of [generateUniqueReferralCode] from attempt number [attempt]
    with [remaining] attempts left; [draws n] is the buffer the [n]-th
    candidate is made of. [None] is the final [throw]. *)
Fixpoint generateUniqueReferralCode_from (tenantId : string)
    (attempt remaining : nat) (draws : nat -> nat -> Byte.byte) (db : Db)
    : option string :=
  match remaining with
  | O => None
  | S remaining' =>
      let code := generateReferralCodeCandidate (draws attempt) in
      let exists_ := checkCodeExists tenantId code db in
      if negb exists_ then Some code
      else generateUniqueReferralCode_from tenantId (S attempt) remaining' draws db
  end.

Definition generateUniqueReferralCode (tenantId : string)
    (maxAttempts : option nat) (draws : nat -> nat -> Byte.byte) (db : Db)
    : option string :=
  generateUniqueReferralCode_from tenantId 0 (default 5%nat maxAttempts) draws db.

End ReferralCode.

(** ** API-key scopes and the bearer header ([lib/auth]) *)

Module Auth.

Record AuthContext : Type := {
  tenantId : string;
  apiKeyId : string;
  scopes : list string;
}.

(** [s.split(" ")]. *)
Fixpoint split_space (s : string) : list string :=
  match s with
  | EmptyString => [EmptyString]
  | String c s' =>
      if Ascii.eqb c " "%char then EmptyString :: split_space s'
      else
        match split_space s' with
        | part :: parts => String c part :: parts
        | [] => [String c EmptyString]
        end
  end.

(** [None] is [null]. Only the ASCII letters matter to the comparison with
    ["bearer"], so [Js.toLowerCase] stands for [toLowerCase]. *)
Definition extractBearerToken (authHeader : option string) : option string :=
  match authHeader with
  | None => None
  | Some h =>
      if negb (Js.nonempty h) then None
      else
        match split_space h with
        | [scheme; token] =>
            if negb (String.eqb (Js.toLowerCase scheme) "bearer") then None
            else Some token
        | _ => None
        end
  end.

(** [list.includes(s)]. *)
Definition includes (l : list string) (s : string) : bool :=
  existsb (String.eqb s) l.

Definition hasScope (context : AuthContext) (requiredScope : string) : bool :=
  if includes (scopes context) "admin" then true
  else if includes (scopes context) "write"
          && (String.eqb requiredScope "read" || String.eqb requiredScope "write")
  then true
  else includes (scopes context) requiredScope.

Definition hasAnyScope (context : AuthContext) (requiredScopes : list string)
    : bool :=
  existsb (fun scope => hasScope context scope) requiredScopes.

Definition hasAllScopes (context : AuthContext) (requiredScopes : list string)
    : bool :=
  forallb (fun scope => hasScope context scope) requiredScopes.

End Auth.

(** ** Housekeeping of the rate-limit table ([lib/rate-limit]) *)

Module RateLimitCleanup.

(** [DELETE FROM rate_limits WHERE window_start < cutoff], with the number
    of deleted rows; a store error is caught and counts as 0 rows. *)
Definition cleanupOldRateLimits (now : Z) (store_ok : bool)
    (store : gmap (string * string * Z) Z)
    : Z * gmap (string * string * Z) Z :=
  let cutoff := now - 5 * 60 * 1000 in
  if store_ok then
    let kept :=
      filter (fun kv : (string * string * Z) * Z => ~ (snd (fst kv) < cutoff))
             store in
    (Z.of_nat (size store) - Z.of_nat (size kept), kept)
  else (0, store).

(** [getRateLimitHeaders]. *)
Definition getRateLimitHeaders (result : RateLimit.RateLimitResult) (limit : Z)
    : list (string * string) :=
  [("X-RateLimit-Limit", pretty limit);
   ("X-RateLimit-Remaining", pretty (RateLimit.remaining result));
   ("X-RateLimit-Reset", pretty (RateLimit.resetAt result))].

End RateLimitCleanup.

(** ** Signing a webhook ([lib/webhooks/sign]) *)

Module Sign.

Record WebhookSignature : Type := {
  timestamp : string;
  signature : string;
}.

(** [process.env.WEBHOOK_SIGNING_SECRET], or the [throw] ([None]) when it
    is unset or empty. *)
Definition getWebhookSigningSecret (env_secret : option string) : option string :=
  match env_secret with
  | Some secret => if Js.nonempty secret then Some secret else None
  | None => None
  end.

(** The number of bytes of [Buffer.from(s)]: a code unit from 128 up takes
    two bytes in UTF-8. *)
Fixpoint byteLength (s : string) : nat :=
  match s with
  | EmptyString => O
  | String c s' =>
      ((if Nat.ltb (nat_of_ascii c) 128 then 1 else 2) + byteLength s')%nat
  end.

(** [crypto.timingSafeEqual(Buffer.from(a), Buffer.from(b))]: a
    [RangeError] ([None]) when the byte lengths differ. *)
Definition timingSafeEqual (a b : string) : option bool :=
  if Nat.eqb (byteLength a) (byteLength b) then Some (String.eqb a b) else None.

Section WithHmac.

(** [crypto.createHmac("sha256", secret).update(message).digest("hex")]. *)
Variable hmac_sha256_hex : string -> string -> string.

Definition signWebhook (env_secret : option string) (now : Z)
    (payload : string) (ts : option string) : option WebhookSignature :=
  match getWebhookSigningSecret env_secret with
  | None => None
  | Some secret =>
      let timestamp := default (pretty (now / 1000)) ts in
      let message := timestamp +:+ "." +:+ payload in
      let signature := hmac_sha256_hex secret message in
      Some {| timestamp := timestamp; signature := signature |}
  end.

Definition getWebhookHeaders (env_secret : option string) (now : Z)
    (payload : string) : option (list (string * string)) :=
  match signWebhook env_secret now payload None with
  | None => None
  | Some s =>
      Some [("content-type", "application/json");
            ("x-referralos-ts", timestamp s);
            ("x-referralos-signature", signature s)]
  end.

Definition verifyWebhookSignature (env_secret : option string)
    (payload timestamp signature : string) : option bool :=
  match getWebhookSigningSecret env_secret with
  | None => None
  | Some secret =>
      let message := timestamp +:+ "." +:+ payload in
      let expectedSignature := hmac_sha256_hex secret message in
      timingSafeEqual signature expectedSignature
  end.

End WithHmac.

End Sign.

(** ** Creating an event with its delivery ([lib/webhooks/enqueue]) *)

Module CreateEvent.

Record CreateEventResult : Type := {
  eventId : string;
  deliveryId : option string;
  webhookEnqueued : bool;
}.

Definition createEventAndEnqueueWebhook (tenantId eventType : string)
    (payload : events.payload) (now : Z) (newEventId newDeliveryId : string)
    (db : Db) : CreateEventResult * Db :=
  let event := {|
    events.id := newEventId;
    events.tenantId := tenantId;
    events.type := eventType;
    events.payloadJson := payload;
    events.createdAt := now;
  |} in
  let db1 := set_events (events_tbl db ++ [event]) db in
  let webhookUrl := Enqueue.getTenantWebhookUrl tenantId db1 in
  if Enqueue.url_unset webhookUrl then
    ({| eventId := events.id event; deliveryId := None;
        webhookEnqueued := false |}, db1)
  else
    let '(result, db2) :=
      Enqueue.enqueueWebhookDelivery tenantId (events.id event)
        (default "" webhookUrl) now newDeliveryId db1 in
    ({| eventId := events.id event;
        deliveryId := Some (Enqueue.deliveryId result);
        webhookEnqueued := true |}, db2).

End CreateEvent.

(** ** The claim route when another claim commits in between *)

Module ClaimOverlap.
Import Claim.

(** [Claim.claim_with_referrer] when the database changes between the
    reads the handler makes before its transaction (the tenant, the
    referral count of the referrer and the referred user, lines 220-248)
    and the transaction itself (line 250): [seen] is the database those
    reads see, [db] the one the transaction starts from. The count is
    not read again inside the transaction. *)
Definition claim_with_referrer (tenantId : string) (input : ClaimReferralInput)
    (referrer : users.row) (env : Env) (seen db : Db) : Response * Db :=
  if String.eqb (users.externalUserId referrer) (referredUserId input) then
    (errorResponse "SELF_REFERRAL" 400 NoDetails, db)
  else
    let tenant := DbHelpers.getTenant tenantId seen in
    let capped :=
      match maxReferralsPerReferrer tenant with
      | Some max =>
          if 0 <? max then
            let currentCount :=
              DbHelpers.countReferralsByReferrer tenantId (users.id referrer)
                seen in
            if max <=? currentCount then Some (max, currentCount) else None
          else None
      | None => None
      end in
    match capped with
    | Some (max, currentCount) =>
        (errorResponse "REFERRAL_CAP_REACHED" 400 (CapDetails max currentCount), db)
    | None =>
        let referredUser :=
          DbHelpers.getUserByExternalId tenantId (referredUserId input) seen in
        match transaction tenantId input referrer tenant referredUser env db with
        | None => (thrown, db)
        | Some (AlreadyProcessed r, db') => (replay_response r db', db')
        | Some (Created newReferral rewards eventId, db') =>
            after_commit tenantId referrer newReferral rewards eventId env db'
        end
    end.

End ClaimOverlap.

(** ** Vocabulary of the statements *)

Module ClaimSpec.
Import Js.

(** Two ledger rows under one idempotency key. *)
Definition same_key (l v : rewardsLedger.row) : Prop :=
  rewardsLedger.tenantId v = rewardsLedger.tenantId l
  /\ rewardsLedger.eventId v = rewardsLedger.eventId l
  /\ rewardsLedger.userId v = rewardsLedger.userId l.

(** The counter of [key] in the one-minute window that contains [now]. *)
Definition counter (tenantId key : string) (now : Z) (db : Db) : Z :=
  default 0 (rate_limits_tbl db
               !! (tenantId, key, RateLimit.window_start now RateLimit.WINDOW_MS)).

(** A check of [key] against [limit] lets the request through: the store
    errors, or the counter stays within the limit once this request is
    counted. *)
Definition admits (tenantId key : string) (limit : Z) (ok : bool) (now : Z)
    (db : Db) : Prop :=
  ok = false \/ counter tenantId key now db + 1 <= limit.

Definition ip_key (request : Claim.Request) : string :=
  "claim:ip:" +:+ Claim.getClientIp request.

Definition user_key (input : Claim.ClaimReferralInput) : string :=
  "claim:user:" +:+ Claim.referredUserId input.

Definition invalid_ref_key (request : Claim.Request) : string :=
  "invalid_ref:ip:" +:+ Claim.getClientIp request.

(** The request carries a well-formed body: valid JSON that passes the
    schema, with both strings within their length bounds. *)
Definition well_formed (request : Claim.Request) (input : Claim.ClaimReferralInput)
    : Prop :=
  (exists data, Claim.body request = Some data /\ Claim.safeParse data = Some input)
  /\ (String.length (Claim.referredUserId input)
      <= Claim.MAX_EXTERNAL_USER_ID_LENGTH)%nat
  /\ (String.length (Claim.referralCode input)
      <= Claim.MAX_REFERRAL_CODE_LENGTH)%nat.

(** The body parses but one of the two strings is too long. *)
Definition too_long (request : Claim.Request) (input : Claim.ClaimReferralInput)
    : Prop :=
  (exists data, Claim.body request = Some data /\ Claim.safeParse data = Some input)
  /\ ((Claim.MAX_EXTERNAL_USER_ID_LENGTH
       < String.length (Claim.referredUserId input))%nat
      \/ (Claim.MAX_REFERRAL_CODE_LENGTH
          < String.length (Claim.referralCode input))%nat).

(** The body is not valid JSON, or does not pass the schema, or carries a
    string that is too long. *)
Definition malformed (request : Claim.Request) : Prop :=
  Claim.body request = None
  \/ (exists data, Claim.body request = Some data /\ Claim.safeParse data = None)
  \/ (exists input, too_long request input).

(** Both strings of the claim can be sent to the database: neither holds
    the code unit 0. *)
Definition storable (input : Claim.ClaimReferralInput) : Prop :=
  DbHelpers.text_parameter (Claim.referralCode input) = true
  /\ DbHelpers.text_parameter (Claim.referredUserId input) = true.

(** No user of the tenant owns [code]. *)
Definition code_unknown (tenantId code : string) (db : Db) : Prop :=
  forall u, In u (users_tbl db) -> users.tenantId u = tenantId ->
            users.referralCode u <> code.

(** No referral of the tenant names [externalUserId] as the referred
    user. *)
Definition not_referred (tenantId externalUserId : string) (db : Db) : Prop :=
  forall r, In r (referrals_tbl db) -> referrals.tenantId r = tenantId ->
            referrals.referredExternalUserId r <> externalUserId.

(** The request gets past both request-rate checks. *)
Definition admitted (tenantId : string) (request : Claim.Request)
    (input : Claim.ClaimReferralInput) (env : Claim.Env) (db : Db) : Prop :=
  admits tenantId (ip_key request) RateLimit.CLAIM_PER_IP
    (Claim.store_ok env Claim.ClaimIpCheck) (Claim.now env) db
  /\ admits tenantId (user_key input) RateLimit.CLAIM_PER_USER
       (Claim.store_ok env Claim.ClaimUserCheck) (Claim.now env) db.

Definition code_of (r : Claim.Response) : option string :=
  match r with
  | Claim.errorResponse code _ _ => Some code
  | _ => None
  end.

Definition status_of (r : Claim.Response) : option Z :=
  match r with
  | Claim.successResponse _ status => Some status
  | Claim.errorResponse _ status _ => Some status
  | Claim.thrown => None
  end.

Definition data_of (r : Claim.Response) : option Claim.ClaimReferralResponse :=
  match r with
  | Claim.successResponse data _ => Some data
  | _ => None
  end.

(** The idempotent reply for the referral [r]. *)
Definition is_replay_of (r : referrals.row) (resp : Claim.Response) : Prop :=
  exists data,
    resp = Claim.successResponse data 200
    /\ Claim.alreadyProcessed data = true
    /\ Claim.id (Claim.referral data) = referrals.id r
    /\ Claim.referrerReward data = None
    /\ Claim.referredReward data = None.

(** The business tables are the same in both databases (the rate-limit
    counters may differ). *)
Definition same_rows (db db' : Db) : Prop :=
  users_tbl db' = users_tbl db
  /\ referrals_tbl db' = referrals_tbl db
  /\ rewards_ledger_tbl db' = rewards_ledger_tbl db
  /\ events_tbl db' = events_tbl db
  /\ webhook_deliveries_tbl db' = webhook_deliveries_tbl db
  /\ tenants_tbl db' = tenants_tbl db.

(** Everything but the delivery queue is the same in both databases. *)
Definition same_but_queue (db db' : Db) : Prop :=
  users_tbl db' = users_tbl db
  /\ referrals_tbl db' = referrals_tbl db
  /\ rewards_ledger_tbl db' = rewards_ledger_tbl db
  /\ events_tbl db' = events_tbl db
  /\ rate_limits_tbl db' = rate_limits_tbl db
  /\ tenants_tbl db' = tenants_tbl db.

(** A transaction step that leaves the delivery queue alone. *)
Definition keeps_queue {A : Type} (m : Tx.t A) : Prop :=
  forall db a db',
    m db = Some (a, db') ->
    webhook_deliveries_tbl db' = webhook_deliveries_tbl db.

Definition with_enqueue (ok : bool) (env : Claim.Env) : Claim.Env := {|
  Claim.now := Claim.now env;
  Claim.store_ok := Claim.store_ok env;
  Claim.enqueue_ok := ok;
  Claim.newUserId := Claim.newUserId env;
  Claim.newReferralId := Claim.newReferralId env;
  Claim.newReferrerLedgerId := Claim.newReferrerLedgerId env;
  Claim.newReferredLedgerId := Claim.newReferredLedgerId env;
  Claim.newEventId := Claim.newEventId env;
  Claim.newDeliveryId := Claim.newDeliveryId env;
|}.

Definition with_store (ok : Claim.RlCall -> bool) (env : Claim.Env) : Claim.Env := {|
  Claim.now := Claim.now env;
  Claim.store_ok := ok;
  Claim.enqueue_ok := Claim.enqueue_ok env;
  Claim.newUserId := Claim.newUserId env;
  Claim.newReferralId := Claim.newReferralId env;
  Claim.newReferrerLedgerId := Claim.newReferrerLedgerId env;
  Claim.newReferredLedgerId := Claim.newReferredLedgerId env;
  Claim.newEventId := Claim.newEventId env;
  Claim.newDeliveryId := Claim.newDeliveryId env;
|}.

(** The same request sent [n] times, one after the other. *)
Fixpoint repeat_claim (n : nat) (tenantId : string) (request : Claim.Request)
    (env : Claim.Env) (db : Db) : Db :=
  match n with
  | O => db
  | S n' =>
      repeat_claim n' tenantId request env
        (snd (Claim.handleClaimReferral tenantId request env db))
  end.

End ClaimSpec.

Module WorkerSpec.

(** [eventId] names an event of the tenant. *)
Definition event_exists (tenantId eventId : string) (db : Db) : Prop :=
  exists e, In e (events_tbl db)
            /\ events.tenantId e = tenantId /\ events.id e = eventId.



(** The destination a tenant has configured, if any. *)
Definition destination (tenantId : string) (db : Db) : option string :=
  match Enqueue.getTenantWebhookUrl tenantId db with
  | Some u => if Js.nonempty u then Some u else None
  | None => None
  end.

(** The row a replay or an enqueue inserts. *)
Definition fresh_delivery (id tenantId eventId url : string) (now : Z)
    : webhookDeliveries.row := {|
  webhookDeliveries.id := id;
  webhookDeliveries.tenantId := tenantId;
  webhookDeliveries.eventId := eventId;
  webhookDeliveries.url := url;
  webhookDeliveries.status := "pending";
  webhookDeliveries.attemptCount := 0%nat;
  webhookDeliveries.lastAttemptAt := None;
  webhookDeliveries.nextAttemptAt := Some now;
  webhookDeliveries.lastError := None;
|}.

(** The back-off table in milliseconds: immediate, 10 s, 60 s, 5 min,
    30 min, 2 h, and 2 h for every later attempt. *)
Definition backoff_ms (attempts : nat) : Z :=
  match attempts with
  | 0%nat => 0
  | 1%nat => 10 * 1000
  | 2%nat => 60 * 1000
  | 3%nat => 5 * 60 * 1000
  | 4%nat => 30 * 60 * 1000
  | _ => 2 * 60 * 60 * 1000
  end.

(** The columns an attempt never writes. *)
Definition same_identity (r r' : webhookDeliveries.row) : Prop :=
  webhookDeliveries.id r' = webhookDeliveries.id r
  /\ webhookDeliveries.tenantId r' = webhookDeliveries.tenantId r
  /\ webhookDeliveries.eventId r' = webhookDeliveries.eventId r
  /\ webhookDeliveries.url r' = webhookDeliveries.url r.

(** How a row looks after its delivery found no event. *)
Definition abandoned (now : Z) (r r' : webhookDeliveries.row) : Prop :=
  same_identity r r'
  /\ webhookDeliveries.status r' = "failed"
  /\ webhookDeliveries.lastError r' = Some "Event not found"
  /\ webhookDeliveries.nextAttemptAt r' = None
  /\ webhookDeliveries.lastAttemptAt r' = Some now
  /\ webhookDeliveries.attemptCount r' = webhookDeliveries.attemptCount r.

(** How a row looks after a failed attempt at [now] under retry limit
    [limit]. *)
Definition after_failure (limit now : Z) (r r' : webhookDeliveries.row) : Prop :=
  let count := S (webhookDeliveries.attemptCount r) in
  same_identity r r'
  /\ webhookDeliveries.attemptCount r' = count
  /\ webhookDeliveries.lastAttemptAt r' = Some now
  /\ if Z.of_nat count <? limit then
       webhookDeliveries.status r' = "pending"
       /\ webhookDeliveries.nextAttemptAt r' = Some (now + backoff_ms count)
     else
       webhookDeliveries.status r' = "failed"
       /\ webhookDeliveries.nextAttemptAt r' = None.

(** The type of the event appended after a failed attempt that brought
    the counter to [count]. *)
Definition failure_event_type (limit : Z) (count : nat) : string :=
  if Z.of_nat count <? limit then "webhook.failed" else "webhook.exhausted".

(** [new] is [old] with the rows of id [deliveryId] changed as [change]
    says and every other row kept. *)
Definition rows_changed (deliveryId : string)
    (change : webhookDeliveries.row -> webhookDeliveries.row -> Prop)
    (old new : list webhookDeliveries.row) : Prop :=
  Forall2
    (fun r r' => if String.eqb (webhookDeliveries.id r) deliveryId
                 then change r r' else r' = r)
    old new.

(** The worker has a signing secret. *)
Definition signing_configured (cfg : Worker.Config) : Prop :=
  exists secret,
    Worker.WEBHOOK_SIGNING_SECRET cfg = Some secret /\ Js.nonempty secret = true.

(** The attempt fails whatever is posted to [url]: the destination
    answers outside 2xx, the call times out, or the network errors. *)
Definition attempt_fails (a : Worker.Attempt) (url : string) : Prop :=
  forall body,
    Worker.success_of
      (Worker.fetch a {| Worker.req_url := url; Worker.req_body := body |})
    = false.

Definition unique_ids (db : Db) : Prop :=
  NoDup (map webhookDeliveries.id (webhook_deliveries_tbl db)).

(** Every delivery the poller picks during the turns of a run. *)
Fixpoint selected (cfg : Worker.Config)
    (turns : list (Z * (string -> Worker.Attempt))) (db : Db)
    : list Worker.DeliveryRecord :=
  match turns with
  | [] => []
  | (now, attempt) :: rest =>
      (Worker.fetchDueDeliveries cfg now db
       ++ selected cfg rest (fst (Worker.poll cfg now attempt db)))%list
  end.

End WorkerSpec.

(** ** Vocabulary of the further properties *)

Module ClaimFacts.

(** The unique index of [referrals]. *)
Definition referral_key (r : referrals.row) : string * string :=
  (referrals.tenantId r, referrals.referredExternalUserId r).

(** At most one referral per (tenant, referred external user id). *)
Definition referrals_unique (db : Db) : Prop :=
  NoDup (map referral_key (referrals_tbl db)).

(** The referral row a first claim writes. *)
Definition new_referral (tenantId : string) (input : Claim.ClaimReferralInput)
    (referrer referredUser : users.row) (env : Claim.Env) : referrals.row := {|
  referrals.id := Claim.newReferralId env;
  referrals.tenantId := tenantId;
  referrals.referrerUserId := users.id referrer;
  referrals.referredExternalUserId := Claim.referredUserId input;
  referrals.referredUserId := Some (users.id referredUser);
  referrals.refCodeUsed := Claim.referralCode input;
  referrals.status := "completed";
  referrals.createdAt := Claim.now env;
  referrals.completedAt := Some (Claim.now env);
|}.

(** The user row a first claim writes for a referred user it does not
    know yet. *)
Definition placeholder_user (tenantId : string) (input : Claim.ClaimReferralInput)
    (env : Claim.Env) : users.row := {|
  users.id := Claim.newUserId env;
  users.tenantId := tenantId;
  users.externalUserId := Claim.referredUserId input;
  users.email := None;
  users.plan := "free";
  users.referralCode := "ref_pending_" +:+ Js.slice0 8 (Claim.referredUserId input);
|}.

(** The ledger after a grant under [onConflictDoNothing]. *)
Definition granted_ledger (tenantId id : string)
    (reward : option Rewards.RewardEntry) (createdAt : Z)
    (rows : list rewardsLedger.row) : list rewardsLedger.row :=
  match reward with
  | Some e =>
      let l := Claim.ledger_row tenantId id e createdAt in
      if existsb (Tx.ledger_conflict l) rows then rows else (rows ++ [l])%list
  | None => rows
  end.

(** The referrer has a cap and has used it up. *)
Definition cap_reached (tenantId : string) (referrer : users.row) (db : Db)
    : Prop :=
  exists max,
    Claim.maxReferralsPerReferrer (DbHelpers.getTenant tenantId db) = Some max
    /\ 0 < max
    /\ max <= DbHelpers.countReferralsByReferrer tenantId (users.id referrer) db.

(** The referrer has no cap, or has room under it. *)
Definition cap_open (tenantId : string) (referrer : users.row) (db : Db)
    : Prop :=
  match Claim.maxReferralsPerReferrer (DbHelpers.getTenant tenantId db) with
  | Some max =>
      max <= 0
      \/ DbHelpers.countReferralsByReferrer tenantId (users.id referrer) db < max
  | None => True
  end.

(** The reward a ledger row pays, as a reply shows it. *)
Definition reward_of_row (l : rewardsLedger.row) : Claim.RewardView := {|
  Claim.amount := Rewards.amount (rewardsLedger.rewardJson l);
  Claim.currency := Rewards.reward_currency (rewardsLedger.rewardJson l);
|}.

(** No ledger row carries an event id derived from [referralId]. *)
Definition keys_unused (referralId : string) (db : Db) : Prop :=
  forall l userId,
    In l (rewards_ledger_tbl db) ->
    rewardsLedger.eventId l <> Rewards.generateReferralEventId referralId userId
    /\ rewardsLedger.eventId l
       <> Rewards.generateOnboardingEventId referralId userId.

(** The claim resolves to [referrer]: the first user of the tenant that
    owns the referral code. *)
Definition resolves_to (tenantId : string) (input : Claim.ClaimReferralInput)
    (referrer : users.row) (db : Db) : Prop :=
  DbHelpers.getUserByReferralCode tenantId (Claim.referralCode input) db
  = Some referrer.

(** No user of the tenant has the external id [externalUserId]. *)
Definition user_unknown (tenantId externalUserId : string) (db : Db) : Prop :=
  forall u, In u (users_tbl db) -> users.tenantId u = tenantId ->
            users.externalUserId u <> externalUserId.

(** Some user of the tenant already owns the referral code the handler
    would give the new referred user. *)
Definition placeholder_taken (tenantId : string)
    (input : Claim.ClaimReferralInput) (db : Db) : Prop :=
  exists u, In u (users_tbl db)
            /\ users.tenantId u = tenantId
            /\ users.referralCode u
               = "ref_pending_" +:+ Js.slice0 8 (Claim.referredUserId input).

End ClaimFacts.

Module WorkerFacts.

(** The attempt gets a 2xx answer whatever is posted to [url]. *)
Definition attempt_succeeds (a : Worker.Attempt) (url : string) : Prop :=
  forall body,
    Worker.success_of
      (Worker.fetch a {| Worker.req_url := url; Worker.req_body := body |})
    = true.

(** How a row looks after a delivered attempt at [now]. *)
Definition after_success (now : Z) (r r' : webhookDeliveries.row) : Prop :=
  WorkerSpec.same_identity r r'
  /\ webhookDeliveries.status r' = "success"
  /\ webhookDeliveries.attemptCount r' = S (webhookDeliveries.attemptCount r)
  /\ webhookDeliveries.lastAttemptAt r' = Some now
  /\ webhookDeliveries.nextAttemptAt r' = None
  /\ webhookDeliveries.lastError r' = None.

(** The request is the event [e] posted to [url]. *)
Definition carries (request : Worker.HttpRequest) (url : string) (e : events.row)
    : Prop :=
  Worker.req_url request = url
  /\ Worker.body_id (Worker.req_body request) = events.id e
  /\ Worker.body_type (Worker.req_body request) = events.type e
  /\ Worker.body_tenantId (Worker.req_body request) = events.tenantId e
  /\ Worker.body_timestamp (Worker.req_body request) = events.createdAt e
  /\ Worker.body_data (Worker.req_body request) = events.payloadJson e.

(** A row the poller can never pick: it is not pending, or it has no
    next attempt. *)
Definition settled (r : webhookDeliveries.row) : Prop :=
  webhookDeliveries.status r <> "pending"
  \/ webhookDeliveries.nextAttemptAt r = None.

(** The worker has no usable signing secret. *)
Definition secret_missing (cfg : Worker.Config) : Prop :=
  Worker.WEBHOOK_SIGNING_SECRET cfg = None
  \/ Worker.WEBHOOK_SIGNING_SECRET cfg = Some "".

(** Every delivery in the queue refers to an event of its tenant. *)
Definition events_present (db : Db) : Prop :=
  forall r, In r (webhook_deliveries_tbl db) ->
            WorkerSpec.event_exists (webhookDeliveries.tenantId r)
              (webhookDeliveries.eventId r) db.

(** No row has used more attempts than the retry limit allows, and a
    pending row has at least one attempt left. *)
Definition within_budget (cfg : Worker.Config) (db : Db) : Prop :=
  forall r, In r (webhook_deliveries_tbl db) ->
            Z.of_nat (webhookDeliveries.attemptCount r)
            <= Worker.WEBHOOK_RETRY_LIMIT cfg
            /\ (webhookDeliveries.status r = "pending" ->
                Z.of_nat (webhookDeliveries.attemptCount r)
                < Worker.WEBHOOK_RETRY_LIMIT cfg).

(** [l] is the beginning of [l']. *)
Definition extends {A : Type} (l l' : list A) : Prop :=
  exists added, l' = (l ++ added)%list.

End WorkerFacts.

Module RateLimitFacts.

(** The window of a configuration, with the default applied. *)
Definition window_of (config : RateLimit.RateLimitConfig) : Z :=
  default RateLimit.WINDOW_MS (RateLimit.windowMs config).

(** The counter of the configuration's key in the window starting at
    [windowStart]; 0 when there is no row. *)
Definition count_in (config : RateLimit.RateLimitConfig) (windowStart : Z)
    (store : gmap (string * string * Z) Z) : Z :=
  default 0 (store !! (RateLimit.tenantId config, RateLimit.key config, windowStart)).

(** Successive checks of one limit at the given clock values, the store
    answering every time. *)
Fixpoint checks (config : RateLimit.RateLimitConfig) (nows : list Z)
    (store : gmap (string * string * Z) Z)
    : list RateLimit.RateLimitResult * gmap (string * string * Z) Z :=
  match nows with
  | [] => ([], store)
  | now :: rest =>
      let '(r, store1) := RateLimit.checkRateLimit config now true store in
      let '(rs, store2) := checks config rest store1 in
      (r :: rs, store2)
  end.

(** All the clock values fall in the window starting at [windowStart]. *)
Definition in_window (config : RateLimit.RateLimitConfig) (windowStart : Z)
    (nows : list Z) : Prop :=
  Forall (fun now => RateLimit.window_start now (window_of config) = windowStart)
         nows.

End RateLimitFacts.

Module CodeFacts.

(** The character is one of [URL_SAFE_CHARS]. *)
Definition url_safe (c : ascii) : Prop :=
  existsb (Ascii.eqb c) (list_ascii_of_string ReferralCode.URL_SAFE_CHARS) = true.

(** Characters that are easily taken for one another. *)
Definition ambiguous (c : ascii) : Prop :=
  In c (list_ascii_of_string "IOilo01").

(** The candidate of the [n]-th attempt. *)
Definition candidate (draws : nat -> nat -> Byte.byte) (n : nat) : string :=
  ReferralCode.generateReferralCodeCandidate (draws n).

(** Some user of the tenant owns the code. *)
Definition taken (tenantId code : string) (db : Db) : Prop :=
  exists u, In u (users_tbl db)
            /\ users.tenantId u = tenantId /\ users.referralCode u = code.

(** The database with one more user. *)
Definition with_user (u : users.row) (db : Db) : Db :=
  set_users (users_tbl db ++ [u]) db.

End CodeFacts.

Module AuthFacts.

(** The string holds no space. *)
Definition no_space (s : string) : Prop :=
  ~ In " "%char (list_ascii_of_string s).

(** Every scope of the first key is a scope of the second. *)
Definition at_least (c1 c2 : Auth.AuthContext) : Prop :=
  forall s, In s (Auth.scopes c1) -> In s (Auth.scopes c2).

End AuthFacts.

Module RewardFacts.

(** Every ledger row was granted for one of the referrals [ids]: its
    event id is a referral-reward or an onboarding key of one of them. *)
Definition keyed_by (ids : list string) (db : Db) : Prop :=
  forall l, In l (rewards_ledger_tbl db) ->
    exists referralId userId,
      In referralId ids
      /\ (rewardsLedger.eventId l
          = Rewards.generateReferralEventId referralId userId
          \/ rewardsLedger.eventId l
             = Rewards.generateOnboardingEventId referralId userId).

End RewardFacts.

(** ** A small tenant used in the examples *)

Module Scenario.
Import Js.

(** Tenant [t1] grants 200 units to pro-tier referrers and nothing to the
    referred user; it has a webhook destination. *)
Definition settings : json :=
  JObj [("referral_reward_pro", JNum 200); ("onboarding_bonus", JNum 0)].

Definition tenant1 : tenants.row := {|
  tenants.id := "t1";
  tenants.referralSettingsJson := Some settings;
  tenants.webhookUrl := Some "https://example.test/hook";
|}.

(** The referrer: external id [u1], tier [pro], code [REF123]. *)
Definition referrer1 : users.row := {|
  users.id := "U1";
  users.tenantId := "t1";
  users.externalUserId := "u1";
  users.email := None;
  users.plan := "pro";
  users.referralCode := "REF123";
|}.

Definition db0 : Db := {|
  tenants_tbl := [tenant1];
  users_tbl := [referrer1];
  referrals_tbl := [];
  rewards_ledger_tbl := [];
  events_tbl := [];
  rate_limits_tbl := ∅;
  webhook_deliveries_tbl := [];
|}.

Definition claim_body (code user : string) : json :=
  JObj [("referralCode", JStr code); ("referredUserId", JStr user)].

Definition request1 : Claim.Request := {|
  Claim.x_forwarded_for := Some "203.0.113.7, 10.0.0.1";
  Claim.x_real_ip := None;
  Claim.body := Some (claim_body "REF123" "u2");
|}.

Definition all_ok (c : Claim.RlCall) : bool := true.
Definition store_down (c : Claim.RlCall) : bool := false.

Definition env1 : Claim.Env := {|
  Claim.now := 1700000012345;
  Claim.store_ok := all_ok;
  Claim.enqueue_ok := true;
  Claim.newUserId := "U2";
  Claim.newReferralId := "R1";
  Claim.newReferrerLedgerId := "L1";
  Claim.newReferredLedgerId := "L2";
  Claim.newEventId := "E1";
  Claim.newDeliveryId := "D1";
|}.

(** The same environment at a later clock value, with fresh draws. *)
Definition env2 : Claim.Env := {|
  Claim.now := 1700000013000;
  Claim.store_ok := all_ok;
  Claim.enqueue_ok := true;
  Claim.newUserId := "U3";
  Claim.newReferralId := "R2";
  Claim.newReferrerLedgerId := "L3";
  Claim.newReferredLedgerId := "L4";
  Claim.newEventId := "E2";
  Claim.newDeliveryId := "D2";
|}.

(** A claim whose referral code has 51 characters. *)
Definition request_long : Claim.Request := {|
  Claim.x_forwarded_for := Some "203.0.113.7, 10.0.0.1";
  Claim.x_real_ip := None;
  Claim.body :=
    Some (claim_body "REF0123456789012345678901234567890123456789012345678"
            "u2");
|}.

(** A claim under a code nobody owns. *)
Definition request_unknown : Claim.Request := {|
  Claim.x_forwarded_for := Some "203.0.113.7, 10.0.0.1";
  Claim.x_real_ip := None;
  Claim.body := Some (claim_body "NOPE" "u2");
|}.

(** The database after the first claim of [request1]. *)
Definition db1 : Db := snd (Claim.handleClaimReferral "t1" request1 env1 db0).

(** The input the claim of [request1] hands to the reward engine, with the
    tier written the way a caller might send it. *)
Definition rewards_input : Rewards.CalculateRewardsInput := {|
  Rewards.in_referralId := "R1";
  Rewards.in_referrerUserId := "U1";
  Rewards.in_referrerExternalUserId := "u1";
  Rewards.in_referrerTier := " Pro ";
  Rewards.in_referredUserId := "U2";
  Rewards.in_referredExternalUserId := "u2";
  Rewards.in_tenantRewardSettings := Some settings;
|}.

(** A tenant that pays free-tier referrers nothing. *)
Definition rewards_input_zero : Rewards.CalculateRewardsInput := {|
  Rewards.in_referralId := "R7";
  Rewards.in_referrerUserId := "U1";
  Rewards.in_referrerExternalUserId := "u1";
  Rewards.in_referrerTier := "gold";
  Rewards.in_referredUserId := "U2";
  Rewards.in_referredExternalUserId := "u2";
  Rewards.in_tenantRewardSettings :=
    Some (JObj [("referral_reward_free", JNum 0)]);
|}.

(** A tier followed by a no-break space. *)
Definition tier_padded : string := " PRO" +:+ String (ascii_of_nat 160) "".

(** A tenant that pays in New Zealand dollars. *)
Definition rewards_input_nzd : Rewards.CalculateRewardsInput := {|
  Rewards.in_referralId := "R8";
  Rewards.in_referrerUserId := "U1";
  Rewards.in_referrerExternalUserId := "u1";
  Rewards.in_referrerTier := tier_padded;
  Rewards.in_referredUserId := "U2";
  Rewards.in_referredExternalUserId := "u2";
  Rewards.in_tenantRewardSettings := Some (JObj [("currency", JStr "NZD")]);
|}.

(** A second grant for the referral of [db1], under the key of the first. *)
Definition duplicate_grant : rewardsLedger.row := {|
  rewardsLedger.id := "L9";
  rewardsLedger.tenantId := "t1";
  rewardsLedger.userId := "U1";
  rewardsLedger.source := "referral_reward";
  rewardsLedger.eventId := Rewards.generateReferralEventId "R1" "U1";
  rewardsLedger.rewardJson := {|
    Rewards.type := "credit";
    Rewards.amount := 999;
    Rewards.reward_currency := "AUD";
    Rewards.description := "retried grant";
    Rewards.referralId := Some "R1";
    Rewards.referrerTier := Some "pro";
    Rewards.referredExternalUserId := Some "u2";
    Rewards.referrerExternalUserId := None;
  |};
  rewardsLedger.createdAt := 1700000099999;
|}.

Definition input1 : Claim.ClaimReferralInput := {|
  Claim.referralCode := "REF123";
  Claim.referredUserId := "u2";
|}.

(** The referral the first claim creates. *)
Definition referral1 : referrals.row := {|
  referrals.id := "R1";
  referrals.tenantId := "t1";
  referrals.referrerUserId := "U1";
  referrals.referredExternalUserId := "u2";
  referrals.referredUserId := Some "U2";
  referrals.refCodeUsed := "REF123";
  referrals.status := "completed";
  referrals.createdAt := 1700000012345;
  referrals.completedAt := Some 1700000012345;
|}.

(** The database after the claim of [request1] was sent ten times within
    one minute. *)
Definition db_after_ten : Db :=
  ClaimSpec.repeat_claim 10 "t1" request1 env1 db0.

(** The database after twenty claims with an overlong code came from one
    address within one minute. *)
Definition db_after_twenty : Db :=
  ClaimSpec.repeat_claim 20 "t1" request_long env1 db0.

Definition input_long : Claim.ClaimReferralInput := {|
  Claim.referralCode := "REF0123456789012345678901234567890123456789012345678";
  Claim.referredUserId := "u2";
|}.

Definition input_unknown : Claim.ClaimReferralInput := {|
  Claim.referralCode := "NOPE";
  Claim.referredUserId := "u2";
|}.

(** A claim under an unknown code for a user nobody has referred yet. *)
Definition request_unknown3 : Claim.Request := {|
  Claim.x_forwarded_for := Some "203.0.113.7, 10.0.0.1";
  Claim.x_real_ip := None;
  Claim.body := Some (claim_body "NOPE" "u3");
|}.

Definition input_unknown3 : Claim.ClaimReferralInput := {|
  Claim.referralCode := "NOPE";
  Claim.referredUserId := "u3";
|}.


(** The worker with its default settings and a signing secret. *)
Definition cfg : Worker.Config := Worker.default_config (Some "whsec_test").

(** A destination that is down: every attempt made at [now] is answered
    503, and the event it records gets the id [eventId]. *)
Definition failing (now : Z) (eventId : string) (deliveryId : string)
    : Worker.Attempt := {|
  Worker.fetch := fun _ => Worker.Responded 503 "unavailable";
  Worker.now := now;
  Worker.newEventId := eventId;
|}.

(** Turn [k] of the worker, three hours after turn [k - 1]. *)
Definition turn (k : nat) : Z * (string -> Worker.Attempt) :=
  let at_ms := 1700000000000 + Z.of_nat k * 10800000 in
  (at_ms, failing (at_ms + 150) ("W" +:+ pretty k)).

Definition six_turns : list (Z * (string -> Worker.Attempt)) :=
  map turn [1; 2; 3; 4; 5; 6]%nat.

(** The queue row of [db1] and the database after six failed attempts. *)
Definition delivery1 : webhookDeliveries.row :=
  WorkerSpec.fresh_delivery "D1" "t1" "E1" "https://example.test/hook"
    1700000012345.

Definition db_exhausted : Db := fst (Worker.runWorkerLoop cfg six_turns db1).

Definition delivery1_exhausted : webhookDeliveries.row := {|
  webhookDeliveries.id := "D1";
  webhookDeliveries.tenantId := "t1";
  webhookDeliveries.eventId := "E1";
  webhookDeliveries.url := "https://example.test/hook";
  webhookDeliveries.status := "failed";
  webhookDeliveries.attemptCount := 6%nat;
  webhookDeliveries.lastAttemptAt := Some 1700064800150;
  webhookDeliveries.nextAttemptAt := None;
  webhookDeliveries.lastError := Some "HTTP 503: unavailable";
|}.

(** [db1] with the claimed event gone from the event log. *)
Definition db1_orphan : Db := set_events [] db1.

End Scenario.

(** ** Further situations used in the examples *)

Module Cases.
Import Js.

(** The referrer [u1] claims under the referrer's own code. *)
Definition request_self : Claim.Request := {|
  Claim.x_forwarded_for := None;
  Claim.x_real_ip := Some "198.51.100.4";
  Claim.body := Some (Scenario.claim_body "REF123" "u1");
|}.

Definition input_self : Claim.ClaimReferralInput := {|
  Claim.referralCode := "REF123";
  Claim.referredUserId := "u1";
|}.

(** [db1] for a tenant that lets a referrer refer one user only. *)
Definition db1_capped : Db := {|
  tenants_tbl :=
    [{| tenants.id := "t1";
        tenants.referralSettingsJson :=
          Some (JObj [("max_referrals_per_referrer", JNum 1)]);
        tenants.webhookUrl := None |}];
  users_tbl := users_tbl Scenario.db1;
  referrals_tbl := referrals_tbl Scenario.db1;
  rewards_ledger_tbl := rewards_ledger_tbl Scenario.db1;
  events_tbl := events_tbl Scenario.db1;
  rate_limits_tbl := rate_limits_tbl Scenario.db1;
  webhook_deliveries_tbl := webhook_deliveries_tbl Scenario.db1;
|}.

(** [db0] for a tenant that lets a referrer refer one user only. *)
Definition db0_capped : Db := {|
  tenants_tbl := tenants_tbl db1_capped;
  users_tbl := users_tbl Scenario.db0;
  referrals_tbl := [];
  rewards_ledger_tbl := [];
  events_tbl := [];
  rate_limits_tbl := ∅;
  webhook_deliveries_tbl := [];
|}.

(** A claim under [REF123] for a user nobody has referred. *)
Definition request_u3 : Claim.Request := {|
  Claim.x_forwarded_for := None;
  Claim.x_real_ip := Some "198.51.100.4";
  Claim.body := Some (Scenario.claim_body "REF123" "u3");
|}.

Definition input_u3 : Claim.ClaimReferralInput := {|
  Claim.referralCode := "REF123";
  Claim.referredUserId := "u3";
|}.

(** Two referred users whose external ids agree on their first eight
    characters. *)
Definition request_customer_001 : Claim.Request := {|
  Claim.x_forwarded_for := None;
  Claim.x_real_ip := Some "198.51.100.4";
  Claim.body := Some (Scenario.claim_body "REF123" "customer_001");
|}.

Definition request_customer_002 : Claim.Request := {|
  Claim.x_forwarded_for := None;
  Claim.x_real_ip := Some "198.51.100.4";
  Claim.body := Some (Scenario.claim_body "REF123" "customer_002");
|}.

Definition input_customer_002 : Claim.ClaimReferralInput := {|
  Claim.referralCode := "REF123";
  Claim.referredUserId := "customer_002";
|}.

(** The database after [customer_001] was referred. *)
Definition db_customer : Db :=
  snd (Claim.handleClaimReferral "t1" request_customer_001 Scenario.env1
         Scenario.db0).

(** A destination that is up: every attempt made at [now] is answered
    200, and the event it records gets the id [eventId]. *)
Definition answering (now : Z) (eventId : string) (deliveryId : string)
    : Worker.Attempt := {|
  Worker.fetch := fun _ => Worker.Responded 200 "ok";
  Worker.now := now;
  Worker.newEventId := eventId;
|}.

(** [db1] after its delivery went through at the first turn. *)
Definition db_delivered : Db :=
  fst (Worker.runWorkerLoop Scenario.cfg
         [(1700000013000, answering 1700000013150 "W1")] Scenario.db1).

Definition delivery1_delivered : webhookDeliveries.row := {|
  webhookDeliveries.id := "D1";
  webhookDeliveries.tenantId := "t1";
  webhookDeliveries.eventId := "E1";
  webhookDeliveries.url := "https://example.test/hook";
  webhookDeliveries.status := "success";
  webhookDeliveries.attemptCount := 1%nat;
  webhookDeliveries.lastAttemptAt := Some 1700000013150;
  webhookDeliveries.nextAttemptAt := None;
  webhookDeliveries.lastError := None;
|}.

(** A limit of two per minute on one key, three requests within three
    seconds, and the store after the first two. *)
Definition two_per_minute : RateLimit.RateLimitConfig := {|
  RateLimit.key := "claim:user:u2";
  RateLimit.tenantId := "t1";
  RateLimit.limit := 2;
  RateLimit.windowMs := None;
|}.

Definition three_clicks : list Z :=
  [1700000000000; 1700000001000; 1700000002000].

Definition two_counted : gmap (string * string * Z) Z :=
  {[ ("t1", "claim:user:u2", 1699999980000) := 2 ]}.

(** Two API keys of tenant t1. *)
Definition writer_key : Auth.AuthContext := {|
  Auth.tenantId := "t1"; Auth.apiKeyId := "k1"; Auth.scopes := ["write"];
|}.

Definition owner_key : Auth.AuthContext := {|
  Auth.tenantId := "t1"; Auth.apiKeyId := "k2";
  Auth.scopes := ["write"; "admin"];
|}.

(** A stand-in for the keyed hash in examples. *)
Definition toy_hmac (secret message : string) : string :=
  secret +:+ ":" +:+ message.

(** Random bytes that all come out 0. *)
Definition zero_draws (attempt i : nat) : Byte.byte := Byte.x00.

End Cases.

(** * Properties *)

(** Closes a conjunction of closed equations by evaluation. *)
Ltac by_computation :=
  repeat match goal with |- _ /\ _ => split end; vm_compute; reflexivity.

(** ** The reward evaluator *)

Section RewardEvaluator.
Import Js Rewards RewardSpec.

Lemma falsy_not_configured (raw : json) (field : string) :
  truthy raw = false -> configured_number (Some raw) field = None.
Proof. destruct raw; simpl; congruence. Qed.

Lemma falsy_no_member (raw : json) (field : string) :
  truthy raw = false -> get raw field = None.
Proof. destruct raw; simpl; congruence. Qed.

Lemma number_or_reference (raw : json) (field : string) (dflt : Z) :
  number_or raw field dflt = default dflt (configured_number (Some raw) field).
Proof.
  unfold number_or, configured_number, get.
  destruct raw as [| | | | |members]; try reflexivity.
  destruct (assoc field members) as [[]|]; reflexivity.
Qed.

Lemma normalize_field_reference (rules : option json) (tier : SubscriptionTier) :
  getRewardAmountForTier (normalizeRewardRules rules) tier
  = default (documented_default tier) (configured_number rules (tier_field tier)).
Proof.
  destruct rules as [raw|]; [|destruct tier; reflexivity].
  unfold normalizeRewardRules.
  destruct (truthy raw) eqn:Ht; cbv [negb].
  - destruct tier; simpl; apply number_or_reference.
  - rewrite falsy_not_configured by assumption. destruct tier; reflexivity.
Qed.

Lemma normalize_bonus_reference (rules : option json) :
  onboarding_bonus (normalizeRewardRules rules) = reference_referred_amount rules.
Proof.
  unfold reference_referred_amount.
  destruct rules as [raw|]; [|reflexivity].
  unfold normalizeRewardRules.
  destruct (truthy raw) eqn:Ht; cbv [negb].
  - apply number_or_reference.
  - rewrite falsy_not_configured by assumption. reflexivity.
Qed.

Lemma is_space_white_space (c : ascii) : is_space c = white_space c.
Proof. destruct c as [[] [] [] [] [] [] [] []]; reflexivity. Qed.

Lemma trim_start_drop (l : list ascii) : trim_start l = drop_blank_start l.
Proof.
  induction l as [|c l IH]; [reflexivity|].
  cbn [trim_start drop_blank_start]. rewrite is_space_white_space, IH.
  reflexivity.
Qed.

Lemma trim_start_snoc (l : list ascii) (c : ascii) :
  trim_start (l ++ [c])
  = match trim_start l with
    | [] => if is_space c then [] else [c]
    | kept => (kept ++ [c])%list
    end.
Proof.
  induction l as [|x l IH]; [reflexivity|].
  cbn [app trim_start]. destruct (is_space x); [exact IH|reflexivity].
Qed.

Lemma rev_trim_start_rev (l : list ascii) :
  rev (trim_start (rev l)) = drop_blank_end l.
Proof.
  induction l as [|c l IH]; [reflexivity|].
  cbn [rev drop_blank_end]. rewrite trim_start_snoc, <- IH.
  destruct (trim_start (rev l)) as [|x kept] eqn:Hkept.
  - cbn [rev]. rewrite is_space_white_space.
    destruct (white_space c); reflexivity.
  - rewrite rev_app_distr. cbn [rev app].
    destruct (rev kept ++ [x])%list eqn:Hrev; [|reflexivity].
    apply app_eq_nil in Hrev as [_ Hrev]. discriminate.
Qed.

(** [trim] removes the white space at both ends, and nothing else. *)
Lemma trim_drops_blanks (s : string) :
  trim s
  = string_of_list_ascii
      (drop_blank_end (drop_blank_start (list_ascii_of_string s))).
Proof.
  unfold trim. rewrite rev_trim_start_rev, trim_start_drop. reflexivity.
Qed.

Lemma drop_blank_start_all (l : list ascii) :
  forallb white_space l = true -> drop_blank_start l = [].
Proof.
  induction l as [|c l IH]; [reflexivity|].
  cbn [forallb drop_blank_start]. destruct (white_space c); [exact IH|discriminate].
Qed.

Lemma drop_blank_start_some (l : list ascii) :
  forallb white_space l = false ->
  exists c kept, drop_blank_start l = c :: kept /\ white_space c = false.
Proof.
  induction l as [|c l IH]; [discriminate|].
  cbn [forallb drop_blank_start]. destruct (white_space c) eqn:Hc.
  - exact IH.
  - intros _. exists c, l. split; [reflexivity|exact Hc].
Qed.

Lemma drop_blank_end_some (c : ascii) (l : list ascii) :
  white_space c = false -> drop_blank_end (c :: l) <> [].
Proof.
  intros Hc. cbn [drop_blank_end]. rewrite Hc.
  destruct (drop_blank_end l); discriminate.
Qed.

Lemma trim_nonempty (s : string) : nonempty (trim s) = negb (blank s).
Proof.
  rewrite trim_drops_blanks. unfold blank.
  destruct (forallb white_space (list_ascii_of_string s)) eqn:Hall.
  - rewrite (drop_blank_start_all _ Hall). reflexivity.
  - destruct (drop_blank_start_some _ Hall) as (c & kept & -> & Hc).
    pose proof (drop_blank_end_some c kept Hc) as Hne.
    destruct (drop_blank_end (c :: kept)); [contradiction|reflexivity].
Qed.

Lemma normalize_tier_reference (tier : option string) :
  normalizeSubscriptionTier tier = reference_tier tier.
Proof.
  destruct tier as [t|]; [|reflexivity].
  unfold normalizeSubscriptionTier, reference_tier, tier_read_as.
  rewrite <- trim_drops_blanks.
  destruct t as [|c t]; [reflexivity|]. simpl negb. cbv iota.
  destruct (String.eqb _ "pro"); [reflexivity|].
  destruct (String.eqb _ "power_pro"); [reflexivity|].
  destruct (String.eqb _ "powerpro"); reflexivity.
Qed.

Lemma normalize_currency_reference (rules : option json) :
  currency (normalizeRewardRules rules) = reference_currency rules.
Proof.
  destruct rules as [raw|]; [|reflexivity].
  unfold normalizeRewardRules.
  destruct (truthy raw) eqn:Ht; cbv [negb].
  - cbn [currency]. unfold text_or, get, reference_currency.
    destruct raw as [| | | | |members]; try reflexivity.
    destruct (assoc "currency" members) as [[| | |s| |]|]; try reflexivity.
    rewrite trim_nonempty. destruct (blank s); reflexivity.
  - destruct raw as [|[]|n|s| |]; try discriminate; reflexivity.
Qed.

Lemma reference_currency_default (rules : option json) :
  currency_missing_or_empty rules = true -> reference_currency rules = "AUD".
Proof.
  unfold currency_missing_or_empty, reference_currency.
  destruct rules as [[| | | | |members]|]; try reflexivity.
  destruct (assoc "currency" members) as [[| | |s| |]|]; try reflexivity;
    try discriminate.
  destruct s; [reflexivity|discriminate].
Qed.

Lemma normalize_currency_default (rules : option json) :
  currency_missing_or_empty rules = true ->
  currency (normalizeRewardRules rules) = "AUD".
Proof.
  intros H. rewrite normalize_currency_reference.
  apply reference_currency_default, H.
Qed.

Lemma entry_currency_reference (input : CalculateRewardsInput) (e : RewardEntry) :
  referrerReward (calculateRewards input) = Some e
  \/ referredReward (calculateRewards input) = Some e ->
  entry_currency e = reference_currency (in_tenantRewardSettings input).
Proof.
  unfold calculateRewards, calculateReferrerReward, calculateReferredReward.
  cbn [referrerReward referredReward].
  intros [He|He]; destruct (_ <=? 0); try discriminate;
    injection He as <-; apply normalize_currency_reference.
Qed.

(** C4. [calculateRewards] agrees with the reference evaluation: each side
    carries exactly the reference amount when that amount is positive and
    no entry otherwise (so the claim transaction inserts no ledger row for
    it); the reference amount is the configured per-tier number, or the
    documented default 100 / 200 / 300 / 0 when the number is missing or
    not numeric, at the normalized tier, a missing or unknown tier being
    the free tier (a tier is read without regard to letter case and to
    the white space around it); every entry is in the configured
    currency, and in AUD when the currency is missing, not a string,
    empty or blank. *)
Theorem calculateRewards_reference (input : CalculateRewardsInput) :
  let rules := in_tenantRewardSettings input in
  let out := calculateRewards input in
  option_map entry_amount (referrerReward out)
    = granted (reference_referrer_amount rules (Some (in_referrerTier input)))
  /\ option_map entry_amount (referredReward out)
    = granted (reference_referred_amount rules)
  /\ normalizeSubscriptionTier None = free
  /\ (forall tier, normalizeSubscriptionTier tier = reference_tier tier)
  /\ (forall tier field,
        configured_number rules field = None ->
        field = tier_field tier ->
        getRewardAmountForTier (normalizeRewardRules rules) tier
        = documented_default tier)
  /\ (configured_number rules "onboarding_bonus" = None ->
      referredReward out = None)
  /\ (currency_missing_or_empty rules = true ->
      forall e, referrerReward out = Some e \/ referredReward out = Some e ->
      entry_currency e = "AUD")
  /\ (forall e, referrerReward out = Some e \/ referredReward out = Some e ->
      entry_currency e = reference_currency rules)
  /\ (forall tenantId id createdAt db,
        reference_referrer_amount rules (Some (in_referrerTier input)) <= 0 ->
        Claim.insert_reward tenantId id (referrerReward out) createdAt db
        = Some (tt, db))
  /\ (forall tenantId id createdAt db,
        reference_referred_amount rules <= 0 ->
        Claim.insert_reward tenantId id (referredReward out) createdAt db
        = Some (tt, db)).
Proof.
  intros rules out.
  assert (Hrefr : referrerReward out
                  = calculateReferrerReward input (normalizeRewardRules rules)
                      (normalizeSubscriptionTier (Some (in_referrerTier input))))
    by reflexivity.
  assert (Hrefd : referredReward out
                  = calculateReferredReward input (normalizeRewardRules rules))
    by reflexivity.
  assert (HA : getRewardAmountForTier (normalizeRewardRules rules)
                 (normalizeSubscriptionTier (Some (in_referrerTier input)))
               = reference_referrer_amount rules (Some (in_referrerTier input))).
  { rewrite normalize_field_reference, normalize_tier_reference. reflexivity. }
  assert (HB := normalize_bonus_reference rules).
  assert (E1 : option_map entry_amount (referrerReward out)
               = granted (reference_referrer_amount rules
                            (Some (in_referrerTier input)))).
  { rewrite Hrefr. unfold calculateReferrerReward, granted. rewrite HA.
    destruct (Z.leb_spec (reference_referrer_amount rules
                            (Some (in_referrerTier input))) 0) as [Hle|Hgt];
      destruct (Z.ltb_spec 0 (reference_referrer_amount rules
                                (Some (in_referrerTier input))));
      try lia; reflexivity. }
  assert (E2 : option_map entry_amount (referredReward out)
               = granted (reference_referred_amount rules)).
  { rewrite Hrefd. unfold calculateReferredReward, granted. rewrite HB.
    destruct (Z.leb_spec (reference_referred_amount rules) 0);
      destruct (Z.ltb_spec 0 (reference_referred_amount rules));
      try lia; reflexivity. }
  repeat split.
  - exact E1.
  - exact E2.
  - apply normalize_tier_reference.
  - intros tier field Hnone ->. rewrite normalize_field_reference, Hnone.
    reflexivity.
  - intros Hnone. rewrite Hrefd. unfold calculateReferredReward.
    rewrite HB. unfold reference_referred_amount. rewrite Hnone. reflexivity.
  - intros Hcur e [He|He].
    + rewrite Hrefr in He. unfold calculateReferrerReward in He.
      destruct (_ <=? 0); [discriminate|]. injection He as <-.
      unfold entry_currency. simpl. apply normalize_currency_default, Hcur.
    + rewrite Hrefd in He. unfold calculateReferredReward in He.
      destruct (_ <=? 0); [discriminate|]. injection He as <-.
      unfold entry_currency. simpl. apply normalize_currency_default, Hcur.
  - intros e He. apply (entry_currency_reference input e He).
  - intros tenantId id createdAt db Hle.
    revert E1. destruct (referrerReward out) as [e|]; [|reflexivity].
    intros E1. unfold granted in E1.
    destruct (Z.ltb_spec 0 (reference_referrer_amount rules
                              (Some (in_referrerTier input))));
      [lia|discriminate].
  - intros tenantId id createdAt db Hle.
    revert E2. destruct (referredReward out) as [e|]; [|reflexivity].
    intros E2. unfold granted in E2.
    destruct (Z.ltb_spec 0 (reference_referred_amount rules));
      [lia|discriminate].
Qed.

End RewardEvaluator.

Lemma calculateRewards_reference_witness :
  let out := Rewards.calculateRewards Scenario.rewards_input in
  let zero := Rewards.calculateRewards Scenario.rewards_input_zero in
  option_map RewardSpec.entry_amount (Rewards.referrerReward out) = Some 200
  /\ option_map RewardSpec.entry_amount (Rewards.referredReward out) = None
  /\ (forall e, Rewards.referrerReward out = Some e ->
      RewardSpec.entry_currency e = "AUD")
  /\ Rewards.getRewardAmountForTier
       (Rewards.normalizeRewardRules (Some Scenario.settings)) Rewards.free = 100
  /\ Rewards.referredReward zero = None
  /\ Claim.insert_reward "t1" "L1" (Rewards.referrerReward zero) 0 Scenario.db0
     = Some (tt, Scenario.db0)
  /\ Claim.insert_reward "t1" "L2" (Rewards.referredReward zero) 0 Scenario.db0
     = Some (tt, Scenario.db0)
  /\ Rewards.normalizeSubscriptionTier (Some Scenario.tier_padded) = Rewards.pro
  /\ (forall e,
        Rewards.referrerReward (Rewards.calculateRewards Scenario.rewards_input_nzd)
        = Some e ->
        RewardSpec.entry_currency e = "NZD").
Proof.
  destruct (calculateRewards_reference Scenario.rewards_input)
    as (H1 & H2 & _ & H4 & H5 & _ & H7 & _ & _ & _).
  destruct (calculateRewards_reference Scenario.rewards_input_zero)
    as (_ & _ & _ & _ & _ & Z6 & _ & _ & Z8 & Z9).
  destruct (calculateRewards_reference Scenario.rewards_input_nzd)
    as (_ & _ & _ & _ & _ & _ & _ & N8 & _ & _).
  split; [exact H1|].
  split; [exact H2|].
  split; [intros e He; apply H7; [reflexivity|left; exact He]|].
  split; [apply (H5 Rewards.free "referral_reward_free"); reflexivity|].
  split; [apply Z6; reflexivity|].
  split; [apply Z8; vm_compute; discriminate|].
  split; [apply Z9; vm_compute; discriminate|].
  split; [rewrite H4; reflexivity|].
  intros e He. rewrite (N8 e (or_introl He)). reflexivity.
Defined.

(** ** The reward ledger *)

Section RewardLedger.
Import ClaimSpec.

Lemma ledger_conflict_iff (l v : rewardsLedger.row) :
  Tx.ledger_conflict l v = true <-> same_key l v.
Proof.
  unfold Tx.ledger_conflict, same_key.
  rewrite !andb_true_iff, !String.eqb_eq. tauto.
Qed.

Lemma key_present_conflict (l : rewardsLedger.row) (rows : list rewardsLedger.row) :
  (exists v, In v rows /\ same_key l v) ->
  existsb (Tx.ledger_conflict l) rows = true.
Proof.
  intros (v & Hin & Hk). apply existsb_exists. exists v.
  split; [exact Hin|]. apply ledger_conflict_iff, Hk.
Qed.

(** C2. Inserting a ledger entry whose (tenant, event id, user) key is
    already in the ledger succeeds without writing: the database is the
    one before the insert, so the ledger has no new row and every
    per-user total of [sumRewardsByUser] is what it was. *)
Theorem ledger_insert_same_key_noop (l : rewardsLedger.row) (db : Db) :
  (exists v, In v (rewards_ledger_tbl db) /\ same_key l v) ->
  exists db',
    Tx.insert_ledger_onConflictDoNothing l db = Some (tt, db')
    /\ rewards_ledger_tbl db' = rewards_ledger_tbl db
    /\ length (rewards_ledger_tbl db') = length (rewards_ledger_tbl db)
    /\ forall tenantId userId,
         DbHelpers.sumRewardsByUser tenantId userId db'
         = DbHelpers.sumRewardsByUser tenantId userId db.
Proof.
  intros Hkey. exists db.
  unfold Tx.insert_ledger_onConflictDoNothing.
  rewrite (key_present_conflict l _ Hkey). auto.
Qed.

Lemma ledger_insert_same_key_noop_witness :
  exists db',
    Tx.insert_ledger_onConflictDoNothing Scenario.duplicate_grant Scenario.db1
    = Some (tt, db')
    /\ length (rewards_ledger_tbl db') = 1%nat
    /\ DbHelpers.sumRewardsByUser "t1" "U1" db' = Some 200.
Proof.
  destruct (ledger_insert_same_key_noop Scenario.duplicate_grant Scenario.db1)
    as (db' & Hins & Hrows & Hlen & Hsum).
  - eexists. split; [left; reflexivity|]. repeat split.
  - exists db'. split; [exact Hins|]. split.
    + rewrite Hlen. reflexivity.
    + rewrite Hsum. reflexivity.
Defined.

(** The second of two inserts under one key finds the key, whether or
    not the first one wrote. *)
Lemma ledger_second_insert_noop (l1 l2 : rewardsLedger.row) (db db1 : Db) :
  same_key l2 l1 ->
  Tx.insert_ledger_onConflictDoNothing l1 db = Some (tt, db1) ->
  Tx.insert_ledger_onConflictDoNothing l2 db1 = Some (tt, db1).
Proof.
  intros Hk Hins.
  assert (Hpresent : exists v, In v (rewards_ledger_tbl db1) /\ same_key l2 v).
  { unfold Tx.insert_ledger_onConflictDoNothing in Hins.
    destruct (existsb (Tx.ledger_conflict l1) (rewards_ledger_tbl db)) eqn:Hex.
    - injection Hins as <-. apply existsb_exists in Hex as (v & Hin & Hc).
      exists v. split; [exact Hin|]. apply ledger_conflict_iff in Hc.
      unfold same_key in *. intuition congruence.
    - injection Hins as <-. exists l1. split; [|exact Hk].
      simpl. apply in_or_app. right. left. reflexivity. }
  unfold Tx.insert_ledger_onConflictDoNothing in *.
  rewrite (key_present_conflict l2 _ Hpresent). reflexivity.
Qed.

End RewardLedger.

(** ** The rate limiter *)

Section RateLimiter.
Import ClaimSpec.

Lemma set_rate_limits_same (db : Db) : set_rate_limits (rate_limits_tbl db) db = db.
Proof. destruct db; reflexivity. Qed.

Lemma check_store_down (tenantId key : string) (limit : Z) (call : Claim.RlCall)
    (env : Claim.Env) (db : Db) :
  Claim.store_ok env call = false ->
  RateLimit.allowed (fst (Claim.check tenantId key limit call env db)) = true
  /\ snd (Claim.check tenantId key limit call env db) = db.
Proof.
  intros Hdown. unfold Claim.check, RateLimit.checkRateLimit. rewrite Hdown.
  simpl. split; [reflexivity|apply set_rate_limits_same].
Qed.

(** What a check answers, in terms of the counter it reads. *)
Lemma check_allowed_iff (tenantId key : string) (limit : Z) (call : Claim.RlCall)
    (env : Claim.Env) (db : Db) :
  RateLimit.allowed (fst (Claim.check tenantId key limit call env db)) = true
  <-> admits tenantId key limit (Claim.store_ok env call) (Claim.now env) db.
Proof.
  unfold Claim.check, RateLimit.checkRateLimit, admits, counter, RateLimit.upsert.
  simpl. destruct (Claim.store_ok env call); simpl.
  - destruct (rate_limits_tbl db !! _) as [c|]; simpl;
      rewrite Z.leb_le; split; intros; try lia;
      match goal with H : _ \/ _ |- _ => destruct H; [discriminate|lia] end.
  - split; auto.
Qed.

(** A check touches the rate-limit counters only. *)
Lemma check_same_rows (tenantId key : string) (limit : Z) (call : Claim.RlCall)
    (env : Claim.Env) (db : Db) :
  same_rows db (snd (Claim.check tenantId key limit call env db)).
Proof.
  unfold Claim.check.
  destruct (RateLimit.checkRateLimit _ _ _ _) as [r store]. simpl.
  repeat split.
Qed.

Lemma claim_with_referrer_code (tenantId : string)
    (input : Claim.ClaimReferralInput) (referrer : users.row) (env : Claim.Env)
    (db : Db) :
  code_of (fst (Claim.claim_with_referrer tenantId input referrer env db))
  <> Some "RATE_LIMITED".
Proof.
  unfold Claim.claim_with_referrer.
  destruct (String.eqb _ _); [discriminate|].
  destruct (match Claim.maxReferralsPerReferrer _ with Some _ => _ | None => _ end)
    as [[max cur]|]; [discriminate|].
  destruct (Claim.transaction _ _ _ _ _ _ _) as [[[r|r rewards eventId] db']|];
    discriminate.
Qed.

(** C9. The rate limiter fails open. A check whose store statement errors
    answers [allowed = true] with [retryAfterSeconds = 0] and leaves the
    counters as they were; hence, while every statement sent to the
    rate-limit store errors, no claim request is answered RATE_LIMITED. *)
Theorem rate_limiter_fails_open :
  (forall config now store,
     let r := fst (RateLimit.checkRateLimit config now false store) in
     RateLimit.allowed r = true
     /\ RateLimit.retryAfterSeconds r = 0
     /\ snd (RateLimit.checkRateLimit config now false store) = store)
  /\ (forall tenantId request env db,
        (forall call, Claim.store_ok env call = false) ->
        code_of (fst (Claim.handleClaimReferral tenantId request env db))
        <> Some "RATE_LIMITED").
Proof.
  split; [intros; repeat split|].
  intros tenantId request env db Hdown.
  unfold Claim.handleClaimReferral.
  pose proof (check_store_down tenantId ("claim:ip:" +:+ Claim.getClientIp request)
                RateLimit.CLAIM_PER_IP Claim.ClaimIpCheck env db
                (Hdown Claim.ClaimIpCheck)) as [Hip _].
  destruct (Claim.check tenantId _ RateLimit.CLAIM_PER_IP _ env db)
    as [ipRateLimit db0].
  simpl in Hip. rewrite Hip. simpl.
  destruct (Claim.body request) as [data|]; [|discriminate].
  destruct (Claim.safeParse data) as [input|]; [|discriminate].
  unfold Claim.claim_with_input.
  destruct (Nat.ltb _ _); [discriminate|].
  destruct (Nat.ltb _ _); [discriminate|].
  pose proof (check_store_down tenantId
                ("claim:user:" +:+ Claim.referredUserId input)
                RateLimit.CLAIM_PER_USER Claim.ClaimUserCheck env db0
                (Hdown Claim.ClaimUserCheck)) as [Huser _].
  destruct (Claim.check tenantId _ RateLimit.CLAIM_PER_USER _ env db0)
    as [userRateLimit db1].
  simpl in Huser. rewrite Huser. simpl.
  destruct (DbHelpers.getReferralByReferredExternalUserId _ _ db1) as [r|];
    [discriminate|].
  destruct (DbHelpers.getUserByReferralCode _ _ db1) as [referrer|];
    [apply claim_with_referrer_code|].
  unfold Claim.claim_code_not_found.
  match goal with
  | |- context [Claim.check ?t ?k ?l ?c ?e ?d] =>
      pose proof (check_store_down t k l c e d (Hdown c)) as [Hinv _];
      destruct (Claim.check t k l c e d) as [invalidRefLimit db2]
  end.
  simpl in Hinv. rewrite Hinv. discriminate.
Qed.

Lemma rate_limiter_fails_open_witness :
  code_of (fst (Claim.handleClaimReferral "t1" Scenario.request1
                  (with_store Scenario.store_down Scenario.env1) Scenario.db0))
  <> Some "RATE_LIMITED".
Proof.
  destruct rate_limiter_fails_open as [_ H].
  apply H. intros call. reflexivity.
Defined.

(** The twenty-first request of a minute from one address: refused while
    the rate-limit store works, let through to the claim while it is
    down. *)
Example store_outage_lets_requests_through :
  code_of (fst (Claim.handleClaimReferral "t1" Scenario.request1 Scenario.env1
                  Scenario.db_after_twenty))
  = Some "RATE_LIMITED"
  /\ status_of (fst (Claim.handleClaimReferral "t1" Scenario.request1
                       (with_store Scenario.store_down Scenario.env1)
                       Scenario.db_after_twenty))
     = Some 201.
Proof. by_computation. Qed.

End RateLimiter.

(** ** The replay trigger *)

Section ReplayTrigger.
Import WorkerSpec.

Lemma find_event_none (tenantId eventId : string) (db : Db) :
  ~ event_exists tenantId eventId db ->
  find (fun e => String.eqb (events.tenantId e) tenantId
                 && String.eqb (events.id e) eventId) (events_tbl db) = None.
Proof.
  intros Hno.
  destruct (find _ _) as [e|] eqn:Hfind; [|reflexivity].
  apply find_some in Hfind as [Hin Hmatch].
  apply andb_true_iff in Hmatch as [Ht Hi].
  apply String.eqb_eq in Ht, Hi.
  exfalso. apply Hno. exists e. auto.
Qed.

Lemma find_event_some (tenantId eventId : string) (db : Db) :
  event_exists tenantId eventId db ->
  exists e,
    find (fun e => String.eqb (events.tenantId e) tenantId
                   && String.eqb (events.id e) eventId) (events_tbl db) = Some e
    /\ In e (events_tbl db)
    /\ events.tenantId e = tenantId /\ events.id e = eventId.
Proof.
  intros (e0 & Hin & Ht & Hi).
  destruct (find _ _) as [e|] eqn:Hfind.
  - exists e. apply find_some in Hfind as [Hin' Hmatch].
    apply andb_true_iff in Hmatch as [Ht' Hi'].
    apply String.eqb_eq in Ht', Hi'. auto.
  - exfalso. apply (find_none _ _ Hfind) in Hin.
    rewrite Ht, Hi, !String.eqb_refl in Hin. discriminate.
Qed.








End ReplayTrigger.

(** ** The webhook dispatcher *)

Section Dispatcher.
Import WorkerSpec.

Lemma rows_changed_update (deliveryId : string)
    (set : webhookDeliveries.row -> webhookDeliveries.row)
    (change : webhookDeliveries.row -> webhookDeliveries.row -> Prop)
    (rows : list webhookDeliveries.row) :
  (forall r, In r rows -> webhookDeliveries.id r = deliveryId -> change r (set r)) ->
  rows_changed deliveryId change rows (Worker.update_delivery deliveryId set rows).
Proof.
  unfold rows_changed, Worker.update_delivery.
  induction rows as [|r rows IH]; intros Hset; simpl; constructor.
  - destruct (String.eqb _ _) eqn:Heq; [|reflexivity].
    apply Hset; [left; reflexivity|apply String.eqb_eq, Heq].
  - apply IH. intros r' Hin. apply Hset. right. exact Hin.
Qed.

Lemma update_delivery_ids (deliveryId : string)
    (set : webhookDeliveries.row -> webhookDeliveries.row)
    (rows : list webhookDeliveries.row) :
  (forall r, webhookDeliveries.id (set r) = webhookDeliveries.id r) ->
  map webhookDeliveries.id (Worker.update_delivery deliveryId set rows)
  = map webhookDeliveries.id rows.
Proof.
  intros Hid. unfold Worker.update_delivery.
  induction rows as [|r rows IH]; simpl; [reflexivity|].
  rewrite IH. destruct (String.eqb _ _); [rewrite Hid|]; reflexivity.
Qed.

Lemma update_delivery_other (deliveryId : string)
    (set : webhookDeliveries.row -> webhookDeliveries.row)
    (rows : list webhookDeliveries.row) (row : webhookDeliveries.row) :
  In row rows -> webhookDeliveries.id row <> deliveryId ->
  In row (Worker.update_delivery deliveryId set rows).
Proof.
  intros Hin Hne. unfold Worker.update_delivery.
  apply in_map_iff. exists row. split; [|exact Hin].
  destruct (String.eqb _ _) eqn:Heq; [|reflexivity].
  apply String.eqb_eq in Heq. contradiction.
Qed.

Lemma unique_row (rows : list webhookDeliveries.row)
    (r1 r2 : webhookDeliveries.row) :
  NoDup (map webhookDeliveries.id rows) ->
  In r1 rows -> In r2 rows ->
  webhookDeliveries.id r1 = webhookDeliveries.id r2 -> r1 = r2.
Proof.
  induction rows as [|r rows IH]; simpl; intros Hnd H1 H2 Hid; [contradiction|].
  apply NoDup_cons in Hnd as [Hnotin Hnd].
  destruct H1 as [->|H1], H2 as [->|H2].
  - reflexivity.
  - exfalso. apply Hnotin. rewrite Hid.
    apply list_elem_of_In, in_map, H2.
  - exfalso. apply Hnotin. rewrite <- Hid.
    apply list_elem_of_In, in_map, H1.
  - apply IH; assumption.
Qed.

(** Whatever an attempt does to the queue, it does to the rows of the
    delivery's id, and it keeps their id. *)
Lemma processDelivery_shape (cfg : Worker.Config) (delivery : Worker.DeliveryRecord)
    (a : Worker.Attempt) (db db' : Db) (sent : list Worker.HttpRequest) :
  Worker.processDelivery cfg delivery a db = Some (db', sent) ->
  exists set,
    (forall r, webhookDeliveries.id (set r) = webhookDeliveries.id r)
    /\ webhook_deliveries_tbl db'
       = Worker.update_delivery (Worker.id delivery) set (webhook_deliveries_tbl db).
Proof.
  unfold Worker.processDelivery.
  destruct (find _ (events_tbl db)) as [event|].
  - destruct (Worker.WEBHOOK_SIGNING_SECRET cfg) as [secret|]; [|discriminate].
    destruct (negb (Js.nonempty secret)); [discriminate|].
    destruct (Worker.success_of _); intros [= <- _];
      eexists; (split; [|reflexivity]); reflexivity.
  - intros [= <- _]. eexists. split; [|reflexivity]. reflexivity.
Qed.

Lemma getNextAttemptDelay_table (attempts : nat) :
  Worker.getNextAttemptDelay attempts = backoff_ms attempts.
Proof.
  do 6 (destruct attempts as [|attempts]; [reflexivity|]). reflexivity.
Qed.

(** C10. A delivery whose event is not in the event log is given up at
    once: the attempt sends no request, appends no event, and leaves the
    queue as it was except that the rows of that delivery are failed,
    with error "Event not found", no next attempt, and the attempt
    counter they had. *)
Theorem delivery_without_event_is_abandoned (cfg : Worker.Config)
    (delivery : Worker.DeliveryRecord) (a : Worker.Attempt) (db : Db) :
  ~ event_exists (Worker.tenantId delivery) (Worker.eventId delivery) db ->
  exists db',
    Worker.processDelivery cfg delivery a db = Some (db', [])
    /\ events_tbl db' = events_tbl db
    /\ rows_changed (Worker.id delivery) (abandoned (Worker.now a))
         (webhook_deliveries_tbl db) (webhook_deliveries_tbl db').
Proof.
  intros Hno. unfold Worker.processDelivery.
  rewrite (find_event_none _ _ _ Hno).
  eexists. split; [reflexivity|]. split; [reflexivity|].
  apply rows_changed_update. intros r _ _. repeat split.
Qed.

Lemma failed_attempt_transition (cfg : Worker.Config)
    (row : webhookDeliveries.row) (a : Worker.Attempt) (db : Db) :
  unique_ids db ->
  In row (webhook_deliveries_tbl db) ->
  event_exists (webhookDeliveries.tenantId row) (webhookDeliveries.eventId row) db ->
  signing_configured cfg ->
  attempt_fails a (webhookDeliveries.url row) ->
  exists db' request e,
    Worker.processDelivery cfg (Worker.record_of row) a db = Some (db', [request])
    /\ rows_changed (webhookDeliveries.id row)
         (after_failure (Worker.WEBHOOK_RETRY_LIMIT cfg) (Worker.now a))
         (webhook_deliveries_tbl db) (webhook_deliveries_tbl db')
    /\ events_tbl db' = (events_tbl db ++ [e])%list
    /\ events.type e
       = failure_event_type (Worker.WEBHOOK_RETRY_LIMIT cfg)
           (S (webhookDeliveries.attemptCount row)).
Proof.
  intros Huniq Hin Hev (secret & Hsecret & Hnonempty) Hfails.
  destruct (find_event_some _ _ _ Hev) as (event & Hfind & _).
  unfold Worker.processDelivery. cbn [Worker.record_of Worker.tenantId
    Worker.eventId Worker.url Worker.id Worker.attemptCount].
  rewrite Hfind, Hsecret, Hnonempty. cbn [negb].
  rewrite Hfails.
  replace (webhookDeliveries.attemptCount row + 1)%nat
    with (S (webhookDeliveries.attemptCount row)) by lia.
  do 3 eexists. split; [reflexivity|]. split; [|split].
  - cbn [webhook_deliveries_tbl set_events set_webhook_deliveries].
    apply rows_changed_update. intros r Hr Hid.
    pose proof (unique_row _ r row Huniq Hr Hin Hid) as ->.
    unfold after_failure, same_identity. cbn.
    rewrite getNextAttemptDelay_table, Z.leb_antisym.
    destruct (Z.of_nat (S (webhookDeliveries.attemptCount row))
              <? Worker.WEBHOOK_RETRY_LIMIT cfg); cbn; auto 10.
  - reflexivity.
  - unfold failure_event_type. cbn. rewrite Z.leb_antisym.
    destruct (Z.of_nat (S (webhookDeliveries.attemptCount row))
              <? Worker.WEBHOOK_RETRY_LIMIT cfg); reflexivity.
Qed.

Lemma In_firstn {A : Type} (n : nat) (l : list A) (x : A) :
  In x (firstn n l) -> In x l.
Proof.
  revert l. induction n as [|n IH]; intros [|y l]; simpl; try tauto.
  intros [->|Hin]; [left; reflexivity|right; apply IH, Hin].
Qed.

Lemma poller_selects_due (cfg : Worker.Config) (now : Z) (db : Db)
    (d : Worker.DeliveryRecord) :
  In d (Worker.fetchDueDeliveries cfg now db) ->
  exists row,
    In row (webhook_deliveries_tbl db)
    /\ d = Worker.record_of row
    /\ webhookDeliveries.status row = "pending"
    /\ exists t, webhookDeliveries.nextAttemptAt row = Some t /\ t <= now.
Proof.
  unfold Worker.fetchDueDeliveries. intros Hin.
  apply in_map_iff in Hin as (row & <- & Hin).
  apply In_firstn, filter_In in Hin as [Hrow Hdue].
  exists row. split; [exact Hrow|]. split; [reflexivity|].
  unfold Worker.due in Hdue. apply andb_true_iff in Hdue as [Hst Hat].
  apply String.eqb_eq in Hst. split; [exact Hst|].
  destruct (webhookDeliveries.nextAttemptAt row) as [t|]; [|discriminate].
  exists t. split; [reflexivity|]. apply Z.leb_le, Hat.
Qed.

Lemma failed_row_not_selected (cfg : Worker.Config) (now : Z) (db : Db)
    (row : webhookDeliveries.row) (d : Worker.DeliveryRecord) :
  unique_ids db ->
  In row (webhook_deliveries_tbl db) ->
  webhookDeliveries.status row = "failed" ->
  In d (Worker.fetchDueDeliveries cfg now db) ->
  Worker.id d <> webhookDeliveries.id row.
Proof.
  intros Huniq Hin Hfailed Hd Hid.
  apply poller_selects_due in Hd as (r & Hr & -> & Hpending & _).
  pose proof (unique_row _ r row Huniq Hr Hin Hid) as ->.
  rewrite Hfailed in Hpending. discriminate.
Qed.

Lemma batch_keeps_other_rows (cfg : Worker.Config)
    (deliveries : list Worker.DeliveryRecord) (attempt : string -> Worker.Attempt)
    (db : Db) (row : webhookDeliveries.row) :
  (forall d, In d deliveries -> Worker.id d <> webhookDeliveries.id row) ->
  In row (webhook_deliveries_tbl db) ->
  let db' := fst (Worker.processWithConcurrency cfg deliveries attempt db) in
  In row (webhook_deliveries_tbl db')
  /\ map webhookDeliveries.id (webhook_deliveries_tbl db')
     = map webhookDeliveries.id (webhook_deliveries_tbl db).
Proof.
  revert db. induction deliveries as [|d rest IH]; intros db Hother Hin; [auto|].
  cbn [Worker.processWithConcurrency].
  destruct (Worker.processDelivery cfg d (attempt (Worker.id d)) db)
    as [[db1 sent1]|] eqn:Hstep.
  - destruct (processDelivery_shape _ _ _ _ _ _ Hstep) as (set & Hset & Hrows).
    assert (Hin1 : In row (webhook_deliveries_tbl db1)).
    { rewrite Hrows. apply update_delivery_other; [exact Hin|].
      intros Heq. apply (Hother d); [left; reflexivity|symmetry; exact Heq]. }
    specialize (IH db1 (fun d' H => Hother d' (or_intror H)) Hin1).
    destruct (Worker.processWithConcurrency cfg rest attempt db1) as [db2 sent2].
    cbn [fst] in *. destruct IH as [IH1 IH2]. split; [exact IH1|].
    rewrite IH2, Hrows. apply update_delivery_ids, Hset.
  - specialize (IH db (fun d' H => Hother d' (or_intror H)) Hin).
    destruct (Worker.processWithConcurrency cfg rest attempt db) as [db2 sent2].
    exact IH.
Qed.

Lemma failed_row_stays (cfg : Worker.Config)
    (turns : list (Z * (string -> Worker.Attempt))) (db : Db)
    (row : webhookDeliveries.row) :
  unique_ids db ->
  In row (webhook_deliveries_tbl db) ->
  webhookDeliveries.status row = "failed" ->
  (forall d, In d (selected cfg turns db) ->
             Worker.id d <> webhookDeliveries.id row)
  /\ In row (webhook_deliveries_tbl (fst (Worker.runWorkerLoop cfg turns db))).
Proof.
  revert db. induction turns as [|[now attempt] rest IH];
    intros db Huniq Hin Hfailed; [split; [intros d []|exact Hin]|].
  cbn [selected Worker.runWorkerLoop].
  assert (Hbatch : forall d, In d (Worker.fetchDueDeliveries cfg now db) ->
                             Worker.id d <> webhookDeliveries.id row)
    by (intros d; apply failed_row_not_selected; assumption).
  destruct (batch_keeps_other_rows cfg _ attempt db row Hbatch Hin)
    as [Hin1 Hids].
  fold (Worker.poll cfg now attempt db) in Hin1, Hids.
  assert (Huniq1 : unique_ids (fst (Worker.poll cfg now attempt db)))
    by (unfold unique_ids; rewrite Hids; exact Huniq).
  destruct (IH _ Huniq1 Hin1 Hfailed) as [IHsel IHin].
  destruct (Worker.poll cfg now attempt db) as [db1 sent1]. cbn [fst] in *.
  destruct (Worker.runWorkerLoop cfg rest db1) as [db2 sent2]. cbn [fst] in *.
  split; [|exact IHin].
  intros d Hd. apply in_app_or in Hd as [Hd|Hd]; [apply Hbatch|apply IHsel]; exact Hd.
Qed.

(** C3. A failed attempt (no 2xx answer, a timeout, a network error)
    counts one more attempt on the delivery. While the new count is
    below the retry limit the row stays pending, due again after the
    delay the back-off table gives for the new count (0, 10 s, 60 s,
    5 min, 30 min, 2 h, and 2 h from then on), and a [webhook.failed]
    event is appended; once the new count reaches the limit the row is
    failed with no next attempt and a [webhook.exhausted] event is
    appended. The poller picks only pending rows whose next attempt is
    due, and a failed row is not picked in any later turn of the worker
    loop, which leaves it in the queue as it is. *)
Theorem failed_delivery_backs_off_then_exhausts (cfg : Worker.Config) :
  (forall secret, Worker.WEBHOOK_RETRY_LIMIT (Worker.default_config secret) = 6)
  /\ (forall attempts, Worker.getNextAttemptDelay attempts = backoff_ms attempts)
  /\ (forall row a db,
        unique_ids db ->
        In row (webhook_deliveries_tbl db) ->
        event_exists (webhookDeliveries.tenantId row)
          (webhookDeliveries.eventId row) db ->
        signing_configured cfg ->
        attempt_fails a (webhookDeliveries.url row) ->
        exists db' request e,
          Worker.processDelivery cfg (Worker.record_of row) a db
          = Some (db', [request])
          /\ rows_changed (webhookDeliveries.id row)
               (after_failure (Worker.WEBHOOK_RETRY_LIMIT cfg) (Worker.now a))
               (webhook_deliveries_tbl db) (webhook_deliveries_tbl db')
          /\ events_tbl db' = (events_tbl db ++ [e])%list
          /\ events.type e
             = failure_event_type (Worker.WEBHOOK_RETRY_LIMIT cfg)
                 (S (webhookDeliveries.attemptCount row)))
  /\ (forall now db d,
        In d (Worker.fetchDueDeliveries cfg now db) ->
        exists row,
          In row (webhook_deliveries_tbl db)
          /\ d = Worker.record_of row
          /\ webhookDeliveries.status row = "pending"
          /\ exists t, webhookDeliveries.nextAttemptAt row = Some t /\ t <= now)
  /\ (forall turns db row,
        unique_ids db ->
        In row (webhook_deliveries_tbl db) ->
        webhookDeliveries.status row = "failed" ->
        (forall d, In d (selected cfg turns db) ->
                   Worker.id d <> webhookDeliveries.id row)
        /\ In row (webhook_deliveries_tbl
                     (fst (Worker.runWorkerLoop cfg turns db)))).
Proof.
  split; [reflexivity|].
  split; [apply getNextAttemptDelay_table|].
  split; [intros; apply failed_attempt_transition; assumption|].
  split; [intros now db d; apply poller_selects_due|].
  intros turns db row. apply failed_row_stays.
Qed.

Lemma failed_delivery_backs_off_then_exhausts_witness :
  Worker.getNextAttemptDelay 9 = 7200000
  /\ (exists db' request e,
        Worker.processDelivery Scenario.cfg
          (Worker.record_of Scenario.delivery1)
          (Scenario.failing 1700000013000 "W1" "D1") Scenario.db1
        = Some (db', [request])
        /\ rows_changed "D1" (after_failure 6 1700000013000)
             (webhook_deliveries_tbl Scenario.db1) (webhook_deliveries_tbl db')
        /\ events_tbl db' = (events_tbl Scenario.db1 ++ [e])%list
        /\ events.type e = "webhook.failed")
  /\ (forall d,
        In d (Worker.fetchDueDeliveries Scenario.cfg 1700000013000 Scenario.db1) ->
        exists row,
          In row (webhook_deliveries_tbl Scenario.db1)
          /\ d = Worker.record_of row
          /\ webhookDeliveries.status row = "pending"
          /\ exists t, webhookDeliveries.nextAttemptAt row = Some t
                       /\ t <= 1700000013000)
  /\ (forall d,
        In d (selected Scenario.cfg [Scenario.turn 7; Scenario.turn 8]
                Scenario.db_exhausted) ->
        Worker.id d <> "D1").
Proof.
  destruct (failed_delivery_backs_off_then_exhausts Scenario.cfg)
    as (_ & Htable & Hstep & Hpoll & Hstays).
  split; [apply (Htable 9%nat)|].
  split; [|split].
  - apply (Hstep Scenario.delivery1
             (Scenario.failing 1700000013000 "W1" "D1") Scenario.db1).
    + unfold unique_ids. vm_compute. repeat constructor. intros H.
      inversion H.
    + vm_compute. left. reflexivity.
    + eexists. split; [vm_compute; left; reflexivity|]. split; reflexivity.
    + exists "whsec_test". split; reflexivity.
    + intros body. reflexivity.
  - apply Hpoll.
  - destruct (Hstays [Scenario.turn 7; Scenario.turn 8] Scenario.db_exhausted
                Scenario.delivery1_exhausted) as [Hsel _].
    + unfold unique_ids. vm_compute. repeat constructor. intros H.
      inversion H.
    + vm_compute. left. reflexivity.
    + reflexivity.
    + exact Hsel.
Defined.

(** Six failed attempts in a row exhaust the delivery of the first claim;
    five [webhook.failed] events and one [webhook.exhausted] event follow
    the claim in the event log; later turns pick nothing and send
    nothing; a replay then puts a new pending row behind the failed one,
    and the next turn picks that row. *)
Example six_failures_exhaust :
  webhook_deliveries_tbl Scenario.db_exhausted = [Scenario.delivery1_exhausted]
  /\ map events.type (events_tbl Scenario.db_exhausted)
     = ["referral.claimed"; "webhook.failed"; "webhook.failed";
        "webhook.failed"; "webhook.failed"; "webhook.failed";
        "webhook.exhausted"]
  /\ length (snd (Worker.runWorkerLoop Scenario.cfg Scenario.six_turns
                    Scenario.db1)) = 6%nat
  /\ snd (Worker.runWorkerLoop Scenario.cfg [Scenario.turn 7; Scenario.turn 8]
            Scenario.db_exhausted) = []
  /\ (let replayed :=
        snd (Replay.POST "t1" "E1" 1700080000000 "D2" Scenario.db_exhausted) in
      webhook_deliveries_tbl replayed
      = [Scenario.delivery1_exhausted;
         fresh_delivery "D2" "t1" "E1" "https://example.test/hook" 1700080000000]
      /\ map Worker.id
           (Worker.fetchDueDeliveries Scenario.cfg 1700080001000 replayed)
         = ["D2"]).
Proof. cbv zeta. by_computation. Qed.

Lemma delivery_without_event_is_abandoned_witness :
  exists db',
    Worker.processDelivery Scenario.cfg (Worker.record_of Scenario.delivery1)
      (Scenario.failing 1700000013000 "W1" "D1") Scenario.db1_orphan
    = Some (db', [])
    /\ events_tbl db' = events_tbl Scenario.db1_orphan
    /\ rows_changed "D1" (abandoned 1700000013000)
         (webhook_deliveries_tbl Scenario.db1_orphan)
         (webhook_deliveries_tbl db').
Proof.
  apply (delivery_without_event_is_abandoned Scenario.cfg
           (Worker.record_of Scenario.delivery1)
           (Scenario.failing 1700000013000 "W1" "D1") Scenario.db1_orphan).
  intros (e & Hin & _). vm_compute in Hin. exact Hin.
Defined.

End Dispatcher.

(** ** The claim route *)

Section ClaimRoute.
Import ClaimSpec.

Lemma same_rows_refl (db : Db) : same_rows db db.
Proof. repeat split. Qed.

Lemma same_rows_trans (db1 db2 db3 : Db) :
  same_rows db1 db2 -> same_rows db2 db3 -> same_rows db1 db3.
Proof. unfold same_rows. intuition congruence. Qed.

Lemma same_rows_referral (db db' : Db) (tenantId externalUserId : string) :
  same_rows db db' ->
  DbHelpers.getReferralByReferredExternalUserId tenantId externalUserId db'
  = DbHelpers.getReferralByReferredExternalUserId tenantId externalUserId db.
Proof.
  intros (_ & H & _). unfold DbHelpers.getReferralByReferredExternalUserId.
  rewrite H. reflexivity.
Qed.

Lemma same_rows_referrer (db db' : Db) (tenantId code : string) :
  same_rows db db' ->
  DbHelpers.getUserByReferralCode tenantId code db'
  = DbHelpers.getUserByReferralCode tenantId code db.
Proof.
  intros (H & _). unfold DbHelpers.getUserByReferralCode.
  rewrite H. reflexivity.
Qed.

(** A check counts under its own key only. *)
Lemma check_other_counter (tenantId key key' : string) (limit : Z)
    (call : Claim.RlCall) (env : Claim.Env) (db : Db) :
  key <> key' ->
  counter tenantId key' (Claim.now env)
    (snd (Claim.check tenantId key limit call env db))
  = counter tenantId key' (Claim.now env) db.
Proof.
  intros Hne. unfold Claim.check, RateLimit.checkRateLimit, counter,
    RateLimit.upsert. simpl.
  destruct (Claim.store_ok env call); simpl; [|reflexivity].
  rewrite lookup_insert_ne; [reflexivity|congruence].
Qed.

Lemma ip_key_not_user_key (request : Claim.Request)
    (input : Claim.ClaimReferralInput) :
  ip_key request <> user_key input.
Proof. unfold ip_key, user_key. simpl. discriminate. Qed.

Lemma well_formed_lengths (request : Claim.Request)
    (input : Claim.ClaimReferralInput) :
  well_formed request input ->
  Nat.ltb Claim.MAX_EXTERNAL_USER_ID_LENGTH
    (String.length (Claim.referredUserId input)) = false
  /\ Nat.ltb Claim.MAX_REFERRAL_CODE_LENGTH
       (String.length (Claim.referralCode input)) = false.
Proof.
  intros (_ & Hu & Hc). split; apply Nat.ltb_ge; assumption.
Qed.

(** The first half of the handler for a request that is well formed and
    within both rate limits: it reaches the lookups with the business
    tables untouched. *)
Lemma claim_reaches_lookup (tenantId : string) (request : Claim.Request)
    (env : Claim.Env) (db : Db) (input : Claim.ClaimReferralInput) :
  well_formed request input ->
  admitted tenantId request input env db ->
  exists db1,
    same_rows db db1
    /\ (forall key, key <> ip_key request -> key <> user_key input ->
        counter tenantId key (Claim.now env) db1
        = counter tenantId key (Claim.now env) db)
    /\ Claim.handleClaimReferral tenantId request env db
       = match DbHelpers.getReferralByReferredExternalUserId
                 tenantId (Claim.referredUserId input) db1 with
         | Some existingReferral =>
             (Claim.replay_response existingReferral db1, db1)
         | None =>
             match DbHelpers.getUserByReferralCode
                     tenantId (Claim.referralCode input) db1 with
             | None =>
                 Claim.claim_code_not_found tenantId (Claim.getClientIp request)
                   env db1
             | Some referrer =>
                 Claim.claim_with_referrer tenantId input referrer env db1
             end
         end.
Proof.
  intros Hwf [Hip Huser].
  destruct (well_formed_lengths _ _ Hwf) as [Hlu Hlc].
  destruct Hwf as ((data & Hbody & Hparse) & _).
  unfold Claim.handleClaimReferral.
  apply check_allowed_iff in Hip.
  pose proof (check_same_rows tenantId (ip_key request) RateLimit.CLAIM_PER_IP
                Claim.ClaimIpCheck env db) as Hrows0.
  pose proof (fun key' (H : ip_key request <> key') =>
                check_other_counter tenantId (ip_key request) key'
                  RateLimit.CLAIM_PER_IP Claim.ClaimIpCheck env db H) as Hcnt0.
  fold (ip_key request).
  destruct (Claim.check tenantId (ip_key request) RateLimit.CLAIM_PER_IP
              Claim.ClaimIpCheck env db) as [ipRateLimit db0].
  cbn [fst snd] in *. rewrite Hip, Hbody, Hparse. cbn [negb].
  unfold Claim.claim_with_input. rewrite Hlu, Hlc.
  assert (Huser0 : admits tenantId (user_key input) RateLimit.CLAIM_PER_USER
                     (Claim.store_ok env Claim.ClaimUserCheck) (Claim.now env) db0).
  { unfold admits in *. rewrite Hcnt0 by apply ip_key_not_user_key. exact Huser. }
  apply check_allowed_iff in Huser0.
  pose proof (check_same_rows tenantId (user_key input) RateLimit.CLAIM_PER_USER
                Claim.ClaimUserCheck env db0) as Hrows1.
  pose proof (fun key' (H : user_key input <> key') =>
                check_other_counter tenantId (user_key input) key'
                  RateLimit.CLAIM_PER_USER Claim.ClaimUserCheck env db0 H) as Hcnt1.
  fold (user_key input).
  destruct (Claim.check tenantId (user_key input) RateLimit.CLAIM_PER_USER
              Claim.ClaimUserCheck env db0) as [userRateLimit db1].
  cbn [fst snd] in *. rewrite Huser0. cbn [negb].
  exists db1. split; [eapply same_rows_trans; eassumption|].
  split; [|reflexivity].
  intros key Hk1 Hk2. rewrite Hcnt1, Hcnt0; congruence.
Qed.

Lemma replay_response_is_replay (r : referrals.row) (db : Db) :
  is_replay_of r (Claim.replay_response r db).
Proof. eexists. split; [reflexivity|]. repeat split. Qed.




(** The scenario of the specification: referrer [u1] of tier pro, 200
    units for pro-tier referrers and nothing for the referred user. The
    first claim is answered 201 with the referrer's reward; the same
    claim sent again is answered 200 with the same referral id and no
    reward. *)
Example claim_then_replay :
  let first := Claim.handleClaimReferral "t1" Scenario.request1 Scenario.env1
                 Scenario.db0 in
  let second := Claim.handleClaimReferral "t1" Scenario.request1 Scenario.env2
                  (snd first) in
  status_of (fst first) = Some 201
  /\ option_map Claim.referrerReward (data_of (fst first))
     = Some (Some {| Claim.amount := 200; Claim.currency := "AUD" |})
  /\ option_map Claim.referredReward (data_of (fst first)) = Some None
  /\ option_map Claim.alreadyProcessed (data_of (fst first)) = Some false
  /\ status_of (fst second) = Some 200
  /\ option_map Claim.alreadyProcessed (data_of (fst second)) = Some true
  /\ option_map Claim.referrerReward (data_of (fst second)) = Some None
  /\ option_map Claim.referredReward (data_of (fst second)) = Some None
  /\ option_map (fun d => Claim.id (Claim.referral d)) (data_of (fst second))
     = option_map (fun d => Claim.id (Claim.referral d)) (data_of (fst first))
  /\ DbHelpers.sumRewardsByUser "t1" "U1" (snd second) = Some 200.
Proof. cbv zeta. by_computation. Qed.

Example eleventh_claim_in_a_minute :
  fst (Claim.handleClaimReferral "t1" Scenario.request1 Scenario.env1
         Scenario.db_after_ten)
  = Claim.errorResponse "RATE_LIMITED" 429
      (Claim.RateLimitDetails (Some 10) 28).
Proof. vm_compute. reflexivity. Qed.

Lemma check_refused (tenantId key : string) (limit : Z) (call : Claim.RlCall)
    (env : Claim.Env) (db : Db) :
  ~ admits tenantId key limit (Claim.store_ok env call) (Claim.now env) db ->
  RateLimit.allowed (fst (Claim.check tenantId key limit call env db)) = false.
Proof.
  intros Hno.
  destruct (RateLimit.allowed _) eqn:Hallowed; [|reflexivity].
  exfalso. apply Hno, check_allowed_iff, Hallowed.
Qed.

(** C5, as amended. The per-IP rate check is the first step and does not
    look at the body: a request over the per-IP limit is answered
    RATE_LIMITED. A request within the per-IP limit whose body is not
    valid JSON, fails the schema or carries an overlong string is
    answered INVALID_REQUEST (400) whatever the per-user counters hold,
    and counts against the per-IP counter only. The per-user rate check
    comes after these input checks: a well-formed request within the
    per-IP limit and over the per-user limit is answered RATE_LIMITED. *)
Theorem claim_validation_order (tenantId : string) (request : Claim.Request)
    (env : Claim.Env) (db : Db) :
  let out := Claim.handleClaimReferral tenantId request env db in
  let ip_admits :=
    admits tenantId (ip_key request) RateLimit.CLAIM_PER_IP
      (Claim.store_ok env Claim.ClaimIpCheck) (Claim.now env) db in
  (~ ip_admits ->
   code_of (fst out) = Some "RATE_LIMITED" /\ status_of (fst out) = Some 429)
  /\ (ip_admits -> malformed request ->
      code_of (fst out) = Some "INVALID_REQUEST"
      /\ status_of (fst out) = Some 400
      /\ same_rows db (snd out)
      /\ forall key, key <> ip_key request ->
           counter tenantId key (Claim.now env) (snd out)
           = counter tenantId key (Claim.now env) db)
  /\ (forall input,
        ip_admits -> well_formed request input ->
        ~ admits tenantId (user_key input) RateLimit.CLAIM_PER_USER
            (Claim.store_ok env Claim.ClaimUserCheck) (Claim.now env) db ->
        code_of (fst out) = Some "RATE_LIMITED"
        /\ status_of (fst out) = Some 429).
Proof.
  cbv zeta. unfold Claim.handleClaimReferral. fold (ip_key request).
  pose proof (check_same_rows tenantId (ip_key request) RateLimit.CLAIM_PER_IP
                Claim.ClaimIpCheck env db) as Hrows0.
  pose proof (fun key' (H : ip_key request <> key') =>
                check_other_counter tenantId (ip_key request) key'
                  RateLimit.CLAIM_PER_IP Claim.ClaimIpCheck env db H) as Hcnt0.
  pose proof (check_allowed_iff tenantId (ip_key request) RateLimit.CLAIM_PER_IP
                Claim.ClaimIpCheck env db) as Hip.
  destruct (Claim.check tenantId (ip_key request) RateLimit.CLAIM_PER_IP
              Claim.ClaimIpCheck env db) as [ipRateLimit db0].
  cbn [fst snd] in *. split; [|split].
  - intros Hno. destruct (RateLimit.allowed ipRateLimit).
    + exfalso. apply Hno, Hip. reflexivity.
    + split; reflexivity.
  - intros Hadm Hbad. apply Hip in Hadm. rewrite Hadm. cbn [negb].
    assert (Hkeys : forall key, key <> ip_key request ->
                      counter tenantId key (Claim.now env) db0
                      = counter tenantId key (Claim.now env) db)
      by (intros key Hne; apply Hcnt0; congruence).
    destruct Hbad as [Hbody|[(data & Hbody & Hparse)|(input & (data & Hbody & Hparse) & Hlong)]];
      rewrite Hbody; try rewrite Hparse; cbn [fst snd code_of status_of]; auto.
    unfold Claim.claim_with_input.
    destruct (Nat.ltb Claim.MAX_EXTERNAL_USER_ID_LENGTH _) eqn:Hlu;
      [cbn [fst snd code_of status_of]; auto|].
    destruct (Nat.ltb Claim.MAX_REFERRAL_CODE_LENGTH _) eqn:Hlc;
      [cbn [fst snd code_of status_of]; auto|].
    apply Nat.ltb_ge in Hlu, Hlc. lia.
  - intros input Hadm Hwf Hno. apply Hip in Hadm. rewrite Hadm. cbn [negb].
    destruct (well_formed_lengths _ _ Hwf) as [Hlu Hlc].
    destruct Hwf as ((data & Hbody & Hparse) & _).
    rewrite Hbody, Hparse. unfold Claim.claim_with_input. rewrite Hlu, Hlc.
    fold (user_key input).
    assert (Hno0 : ~ admits tenantId (user_key input) RateLimit.CLAIM_PER_USER
                       (Claim.store_ok env Claim.ClaimUserCheck)
                       (Claim.now env) db0).
    { unfold admits in *. rewrite Hcnt0 by apply ip_key_not_user_key. exact Hno. }
    apply check_refused in Hno0.
    destruct (Claim.check tenantId (user_key input) RateLimit.CLAIM_PER_USER
                Claim.ClaimUserCheck env db0) as [userRateLimit db1].
    cbn [fst] in Hno0. rewrite Hno0. split; reflexivity.
Qed.

Lemma claim_validation_order_witness :
  (code_of (fst (Claim.handleClaimReferral "t1" Scenario.request_long
                   Scenario.env1 Scenario.db_after_twenty))
   = Some "RATE_LIMITED")
  /\ (code_of (fst (Claim.handleClaimReferral "t1" Scenario.request_long
                      Scenario.env1 Scenario.db_after_ten))
      = Some "INVALID_REQUEST")
  /\ (code_of (fst (Claim.handleClaimReferral "t1" Scenario.request1
                      Scenario.env1 Scenario.db_after_ten))
      = Some "RATE_LIMITED").
Proof.
  destruct (claim_validation_order "t1" Scenario.request_long Scenario.env1
              Scenario.db_after_twenty) as (Hfirst & _ & _).
  destruct (claim_validation_order "t1" Scenario.request_long Scenario.env1
              Scenario.db_after_ten) as (_ & Hsecond & _).
  destruct (claim_validation_order "t1" Scenario.request1 Scenario.env1
              Scenario.db_after_ten) as (_ & _ & Hthird).
  split; [|split].
  - apply Hfirst.
    intros [Hdown|Hcount]; [discriminate Hdown|].
    vm_compute in Hcount. apply Hcount. reflexivity.
  - apply Hsecond.
    + right. vm_compute. discriminate.
    + right. right. exists Scenario.input_long.
      split; [eexists; split; reflexivity|]. right. vm_compute. lia.
  - apply (Hthird Scenario.input1).
    + right. vm_compute. discriminate.
    + split; [eexists; split; reflexivity|]. split; vm_compute; lia.
    + intros [Hdown|Hcount]; [discriminate Hdown|].
      vm_compute in Hcount. apply Hcount. reflexivity.
Defined.

(** C5 as stated fails: the per-IP rate check runs before the body is
    read. The twenty-first request of a minute from one address is
    answered RATE_LIMITED although its referral code is too long. *)
Lemma overlong_code_can_be_rate_limited :
  ~ (forall tenantId request env db input,
       too_long request input ->
       code_of (fst (Claim.handleClaimReferral tenantId request env db))
       = Some "INVALID_REQUEST").
Proof.
  intros Hclaim.
  specialize (Hclaim "t1" Scenario.request_long Scenario.env1
                Scenario.db_after_twenty Scenario.input_long).
  assert (Hlong : too_long Scenario.request_long Scenario.input_long).
  { split; [eexists; split; reflexivity|]. right. vm_compute. lia. }
  apply Hclaim in Hlong. vm_compute in Hlong. discriminate Hlong.
Qed.

Lemma code_unknown_lookup (tenantId code : string) (db : Db) :
  code_unknown tenantId code db ->
  DbHelpers.getUserByReferralCode tenantId code db = None.
Proof.
  intros Hunknown. unfold DbHelpers.getUserByReferralCode.
  destruct (find _ _) as [u|] eqn:Hfind; [|reflexivity].
  apply find_some in Hfind as [Hin Hmatch].
  apply andb_true_iff in Hmatch as [Ht Hc]. apply String.eqb_eq in Ht, Hc.
  exfalso. exact (Hunknown u Hin Ht Hc).
Qed.

Lemma not_referred_lookup (tenantId externalUserId : string) (db : Db) :
  not_referred tenantId externalUserId db ->
  DbHelpers.getReferralByReferredExternalUserId tenantId externalUserId db = None.
Proof.
  intros Hnone. unfold DbHelpers.getReferralByReferredExternalUserId.
  destruct (find _ _) as [r|] eqn:Hfind; [|reflexivity].
  apply find_some in Hfind as [Hin Hmatch].
  apply andb_true_iff in Hmatch as [Ht Hu]. apply String.eqb_eq in Ht, Hu.
  exfalso. exact (Hnone r Hin Ht Hu).
Qed.

Lemma increment_counter (tenantId key : string) (env : Claim.Env) (db : Db) :
  let db' :=
    set_rate_limits
      (RateLimit.incrementRateLimitKey tenantId key 1 (Claim.now env)
         (Claim.store_ok env Claim.InvalidRefIncrement) (rate_limits_tbl db)) db in
  same_rows db db'
  /\ counter tenantId key (Claim.now env) db'
     = counter tenantId key (Claim.now env) db
       + (if Claim.store_ok env Claim.InvalidRefIncrement then 1 else 0).
Proof.
  cbv zeta. split; [repeat split|].
  unfold RateLimit.incrementRateLimitKey, RateLimit.upsert, counter.
  destruct (Claim.store_ok env Claim.InvalidRefIncrement);
    cbn [snd rate_limits_tbl set_rate_limits]; [|lia].
  rewrite lookup_insert_eq.
  destruct (rate_limits_tbl db !! _); simpl; lia.
Qed.

Lemma check_counter (tenantId key : string) (limit : Z) (call : Claim.RlCall)
    (env : Claim.Env) (db : Db) :
  counter tenantId key (Claim.now env)
    (snd (Claim.check tenantId key limit call env db))
  = counter tenantId key (Claim.now env) db
    + (if Claim.store_ok env call then 1 else 0).
Proof.
  unfold Claim.check, RateLimit.checkRateLimit, RateLimit.upsert, counter.
  cbn [RateLimit.windowMs RateLimit.tenantId RateLimit.key RateLimit.limit default].
  destruct (Claim.store_ok env call);
    cbn [snd rate_limits_tbl set_rate_limits]; [|lia].
  rewrite lookup_insert_eq.
  destruct (rate_limits_tbl db !! _); simpl; lia.
Qed.

(** The unknown-code branch on its own: what it answers and what it does
    to the invalid-attempts counter. *)
Lemma claim_code_not_found_outcome (tenantId clientIp : string) (env : Claim.Env)
    (db : Db) :
  let out := Claim.claim_code_not_found tenantId clientIp env db in
  let key := "invalid_ref:ip:" +:+ clientIp in
  let after := counter tenantId key (Claim.now env) (snd out) in
  same_rows db (snd out)
  /\ after
     = counter tenantId key (Claim.now env) db
       + (if Claim.store_ok env Claim.InvalidRefIncrement then 1 else 0)
       + (if Claim.store_ok env Claim.InvalidRefCheck then 1 else 0)
  /\ ((fst out = Claim.errorResponse "REFERRAL_CODE_NOT_FOUND" 404 Claim.NoDetails
       /\ (Claim.store_ok env Claim.InvalidRefCheck = false
           \/ after <= RateLimit.INVALID_REF_PER_IP))
      \/ ((exists retry,
             fst out = Claim.errorResponse "RATE_LIMITED" 429
                         (Claim.RateLimitDetails None retry))
          /\ RateLimit.INVALID_REF_PER_IP < after)).
Proof.
  cbv zeta. unfold Claim.claim_code_not_found.
  set (key := "invalid_ref:ip:" +:+ clientIp).
  set (db1 := set_rate_limits _ db).
  pose proof (increment_counter tenantId key env db) as [Hrows1 Hcnt1].
  fold db1 in Hrows1, Hcnt1.
  pose proof (check_same_rows tenantId key RateLimit.INVALID_REF_PER_IP
                Claim.InvalidRefCheck env db1) as Hrows2.
  pose proof (check_counter tenantId key RateLimit.INVALID_REF_PER_IP
                Claim.InvalidRefCheck env db1) as Hcnt2.
  pose proof (check_allowed_iff tenantId key RateLimit.INVALID_REF_PER_IP
                Claim.InvalidRefCheck env db1) as Hallowed.
  destruct (Claim.check tenantId key RateLimit.INVALID_REF_PER_IP
              Claim.InvalidRefCheck env db1) as [invalidRefLimit db2].
  cbn [fst snd] in *.
  assert (Hsame : same_rows db db2)
    by exact (same_rows_trans _ _ _ Hrows1 Hrows2).
  assert (Hafter :
            counter tenantId key (Claim.now env) db2
            = counter tenantId key (Claim.now env) db
              + (if Claim.store_ok env Claim.InvalidRefIncrement then 1 else 0)
              + (if Claim.store_ok env Claim.InvalidRefCheck then 1 else 0))
    by lia.
  unfold admits in Hallowed.
  destruct (RateLimit.allowed invalidRefLimit); cbn [negb fst snd].
  - split; [exact Hsame|]. split; [exact Hafter|]. left.
    split; [reflexivity|].
    destruct Hallowed as [[Hdown|Hle] _]; [reflexivity|left; exact Hdown|].
    destruct (Claim.store_ok env Claim.InvalidRefCheck); [right; lia|left; reflexivity].
  - split; [exact Hsame|]. split; [exact Hafter|]. right.
    split; [eexists; reflexivity|].
    destruct (Claim.store_ok env Claim.InvalidRefCheck) eqn:Hok.
    + destruct (Z_lt_le_dec RateLimit.INVALID_REF_PER_IP
                  (counter tenantId key (Claim.now env) db2)) as [Hlt|Hle];
        [exact Hlt|].
      exfalso. destruct Hallowed as [_ Hback].
      assert (false = true) by (apply Hback; right; lia). discriminate.
    + exfalso. destruct Hallowed as [_ Hback].
      assert (false = true) by (apply Hback; left; reflexivity). discriminate.
Qed.

(** C6, as amended. A claim that is well formed, whose two strings hold
    no code unit 0 (the database refuses such a string and the request
    ends in an error of its own), within the per-IP and per-user rate
    limits, for a user nobody has referred yet, under a code that no user
    of the tenant owns, fails: with
    REFERRAL_CODE_NOT_FOUND (404) while the per-IP counter of invalid
    attempts is within its limit (or its check errors), with RATE_LIMITED
    (429) once the counter has passed the limit. The counter never goes
    down and goes up whenever the rate-limit store takes one of the two
    statements; users, referrals, ledger, events and deliveries are as
    they were. *)
Theorem unknown_code_is_rejected (tenantId : string) (request : Claim.Request)
    (env : Claim.Env) (db : Db) (input : Claim.ClaimReferralInput) :
  well_formed request input ->
  storable input ->
  admitted tenantId request input env db ->
  not_referred tenantId (Claim.referredUserId input) db ->
  code_unknown tenantId (Claim.referralCode input) db ->
  let out := Claim.handleClaimReferral tenantId request env db in
  let before := counter tenantId (invalid_ref_key request) (Claim.now env) db in
  let after :=
    counter tenantId (invalid_ref_key request) (Claim.now env) (snd out) in
  same_rows db (snd out)
  /\ ((fst out = Claim.errorResponse "REFERRAL_CODE_NOT_FOUND" 404 Claim.NoDetails
       /\ (Claim.store_ok env Claim.InvalidRefCheck = false
           \/ after <= RateLimit.INVALID_REF_PER_IP))
      \/ ((exists retry,
             fst out = Claim.errorResponse "RATE_LIMITED" 429
                         (Claim.RateLimitDetails None retry))
          /\ RateLimit.INVALID_REF_PER_IP < after))
  /\ before <= after
  /\ (Claim.store_ok env Claim.InvalidRefIncrement = true
      \/ Claim.store_ok env Claim.InvalidRefCheck = true ->
      before < after).
Proof.
  intros Hwf _ Hadm Hnone Hunknown.
  destruct (claim_reaches_lookup _ _ _ _ _ Hwf Hadm) as (db1 & Hrows & Hcnt & ->).
  rewrite (same_rows_referral _ _ _ _ Hrows), (not_referred_lookup _ _ _ Hnone).
  rewrite (same_rows_referrer _ _ _ _ Hrows), (code_unknown_lookup _ _ _ Hunknown).
  destruct (claim_code_not_found_outcome tenantId (Claim.getClientIp request)
              env db1) as (Hrows2 & Hafter & Hanswer).
  fold (invalid_ref_key request) in Hafter, Hanswer.
  rewrite (Hcnt (invalid_ref_key request)) in Hafter.
  2: { unfold invalid_ref_key, ip_key. simpl. discriminate. }
  2: { unfold invalid_ref_key, user_key. simpl. discriminate. }
  cbv zeta. split; [eapply same_rows_trans; eassumption|].
  split; [exact Hanswer|]. rewrite Hafter.
  split.
  - destruct (Claim.store_ok env Claim.InvalidRefIncrement),
             (Claim.store_ok env Claim.InvalidRefCheck); lia.
  - intros [Hok|Hok]; rewrite Hok;
      [destruct (Claim.store_ok env Claim.InvalidRefCheck)
      |destruct (Claim.store_ok env Claim.InvalidRefIncrement)]; lia.
Qed.

Lemma unknown_code_is_rejected_witness :
  let out := Claim.handleClaimReferral "t1" Scenario.request_unknown3
               Scenario.env2 Scenario.db1 in
  same_rows Scenario.db1 (snd out)
  /\ counter "t1" (invalid_ref_key Scenario.request_unknown3)
       (Claim.now Scenario.env2) Scenario.db1
     < counter "t1" (invalid_ref_key Scenario.request_unknown3)
         (Claim.now Scenario.env2) (snd out).
Proof.
  destruct (unknown_code_is_rejected "t1" Scenario.request_unknown3
              Scenario.env2 Scenario.db1 Scenario.input_unknown3)
    as (Hrows & _ & _ & Hup).
  - split; [eexists; split; reflexivity|]. split; vm_compute; lia.
  - split; reflexivity.
  - split; right; vm_compute; discriminate.
  - intros r Hin _ Hu. vm_compute in Hin. destruct Hin as [<-|[]].
    vm_compute in Hu. discriminate Hu.
  - intros u Hin _ Hc. vm_compute in Hin.
    destruct Hin as [<-|[<-|[]]]; vm_compute in Hc; discriminate Hc.
  - split; [exact Hrows|]. apply Hup. left. reflexivity.
Defined.

(** C6 as stated fails: the idempotency short-circuit comes before the
    referral code is resolved. A claim for an already referred user under
    a code nobody owns is answered with the existing referral. *)
Lemma unknown_code_can_be_answered_as_replay :
  ~ (forall tenantId request env db input,
       (exists data, Claim.body request = Some data
                     /\ Claim.safeParse data = Some input) ->
       code_unknown tenantId (Claim.referralCode input) db ->
       code_of (fst (Claim.handleClaimReferral tenantId request env db))
       = Some "REFERRAL_CODE_NOT_FOUND").
Proof.
  intros Hclaim.
  specialize (Hclaim "t1" Scenario.request_unknown Scenario.env2 Scenario.db1
                Scenario.input_unknown).
  assert (Hunknown : code_unknown "t1" "NOPE" Scenario.db1).
  { intros u Hin _ Hc. vm_compute in Hin.
    destruct Hin as [<-|[<-|[]]]; vm_compute in Hc; discriminate Hc. }
  assert (Hcode := Hclaim (ex_intro _ _ (conj eq_refl eq_refl)) Hunknown).
  vm_compute in Hcode. discriminate Hcode.
Qed.

(** The first two claims of a minute under an unknown code are answered
    REFERRAL_CODE_NOT_FOUND and leave the counter of invalid attempts at
    four; the third is answered RATE_LIMITED. *)
Example third_unknown_code_in_a_minute :
  let db2 := repeat_claim 2 "t1" Scenario.request_unknown3 Scenario.env1
               Scenario.db0 in
  code_of (fst (Claim.handleClaimReferral "t1" Scenario.request_unknown3
                  Scenario.env1 Scenario.db0))
  = Some "REFERRAL_CODE_NOT_FOUND"
  /\ counter "t1" (invalid_ref_key Scenario.request_unknown3)
       (Claim.now Scenario.env1) db2 = 4
  /\ code_of (fst (Claim.handleClaimReferral "t1" Scenario.request_unknown3
                     Scenario.env1 db2))
     = Some "RATE_LIMITED"
  /\ users_tbl db2 = users_tbl Scenario.db0
  /\ referrals_tbl db2 = referrals_tbl Scenario.db0.
Proof. cbv zeta. by_computation. Qed.

(** *** The enqueue after the commit *)

Lemma keeps_queue_ret {A : Type} (a : A) : keeps_queue (Tx.ret a).
Proof. intros db a' db' [= _ <-]. reflexivity. Qed.

Lemma keeps_queue_throw {A : Type} : keeps_queue (@Tx.throw A).
Proof. intros db a db' H. discriminate H. Qed.

Lemma keeps_queue_query {A : Type} (q : Db -> A) : keeps_queue (Tx.query q).
Proof. intros db a db' [= _ <-]. reflexivity. Qed.

Lemma keeps_queue_bind {A B : Type} (m : Tx.t A) (k : A -> Tx.t B) :
  keeps_queue m -> (forall a, keeps_queue (k a)) -> keeps_queue (Tx.bind m k).
Proof.
  intros Hm Hk db b db' Hrun. unfold Tx.bind in Hrun.
  destruct (m db) as [[a db1]|] eqn:Hstep; [|discriminate].
  rewrite (Hk a _ _ _ Hrun). exact (Hm _ _ _ Hstep).
Qed.

Lemma keeps_queue_insert_user (u : users.row) :
  keeps_queue (Tx.insert_user_onConflictDoNothing u).
Proof.
  intros db a db'. unfold Tx.insert_user_onConflictDoNothing.
  destruct (existsb _ _); intros [= _ <-]; reflexivity.
Qed.

Lemma keeps_queue_insert_referral (r : referrals.row) :
  keeps_queue (Tx.insert_referral r).
Proof.
  intros db a db'. unfold Tx.insert_referral.
  destruct (existsb _ _); [discriminate|]. intros [= _ <-]. reflexivity.
Qed.

Lemma keeps_queue_insert_ledger (l : rewardsLedger.row) :
  keeps_queue (Tx.insert_ledger_onConflictDoNothing l).
Proof.
  intros db a db'. unfold Tx.insert_ledger_onConflictDoNothing.
  destruct (existsb _ _); intros H; inversion H; reflexivity.
Qed.

Lemma keeps_queue_insert_event (e : events.row) :
  keeps_queue (Tx.insert_event e).
Proof. intros db a db' [= _ <-]. reflexivity. Qed.

Lemma keeps_queue_insert_reward (tenantId id : string)
    (reward : option Rewards.RewardEntry) (createdAt : Z) :
  keeps_queue (Claim.insert_reward tenantId id reward createdAt).
Proof.
  destruct reward; [apply keeps_queue_insert_ledger|apply keeps_queue_ret].
Qed.

Create HintDb tx.

#[local] Hint Resolve keeps_queue_ret keeps_queue_throw keeps_queue_query
  keeps_queue_insert_user keeps_queue_insert_referral keeps_queue_insert_ledger
  keeps_queue_insert_event keeps_queue_insert_reward : tx.

Lemma transaction_keeps_queue (tenantId : string)
    (input : Claim.ClaimReferralInput) (referrer : users.row)
    (tenant : option tenants.row) (referredUser0 : option users.row)
    (env : Claim.Env) :
  keeps_queue
    (Claim.transaction tenantId input referrer tenant referredUser0 env).
Proof.
  unfold Claim.transaction.
  apply keeps_queue_bind; [auto with tx|]. intros [r|]; [auto with tx|].
  apply keeps_queue_bind.
  - destruct referredUser0; [auto with tx|].
    apply keeps_queue_bind; [auto with tx|]. intros [u|]; auto with tx.
  - intros [referredUser|]; [|auto with tx].
    apply keeps_queue_bind; [auto with tx|]. intros newReferral.
    apply keeps_queue_bind; [auto with tx|]. intros _.
    apply keeps_queue_bind; [auto with tx|]. intros _.
    apply keeps_queue_bind; [auto with tx|]. intros claimEvent.
    auto with tx.
Qed.

Lemma same_but_queue_refl (db : Db) : same_but_queue db db.
Proof. repeat split. Qed.

Lemma enqueue_same_but_queue (tenantId eventId : string) (now : Z)
    (newId : string) (db : Db) :
  same_but_queue db
    (snd (Enqueue.enqueueWebhookForExistingEvent tenantId eventId now newId db)).
Proof.
  unfold Enqueue.enqueueWebhookForExistingEvent.
  destruct (Enqueue.getTenantWebhookUrl tenantId db) as [u|];
    [destruct (Js.nonempty u)|]; repeat split.
Qed.

(** The reply of [after_commit] is built from the committed rows alone. *)
Lemma after_commit_enqueue (tenantId : string) (referrer : users.row)
    (newReferral : referrals.row) (rewards : Rewards.CalculateRewardsOutput)
    (eventId : string) (env : Claim.Env) (db : Db) (ok : bool) :
  let out :=
    Claim.after_commit tenantId referrer newReferral rewards eventId
      (with_enqueue ok env) db in
  let ko :=
    Claim.after_commit tenantId referrer newReferral rewards eventId
      (with_enqueue false env) db in
  fst out = fst ko /\ snd ko = db /\ same_but_queue db (snd out).
Proof.
  cbv zeta. unfold Claim.after_commit.
  cbn [with_enqueue Claim.enqueue_ok Claim.now Claim.newDeliveryId fst snd].
  split; [reflexivity|]. split; [destruct (Js.nonempty eventId); reflexivity|].
  destruct (Js.nonempty eventId), ok;
    auto using same_but_queue_refl, enqueue_same_but_queue.
Qed.

Lemma claim_with_referrer_enqueue (tenantId : string)
    (input : Claim.ClaimReferralInput) (referrer : users.row) (env : Claim.Env)
    (db : Db) (ok : bool) :
  let out :=
    Claim.claim_with_referrer tenantId input referrer (with_enqueue ok env) db in
  let ko :=
    Claim.claim_with_referrer tenantId input referrer (with_enqueue false env) db in
  fst out = fst ko
  /\ same_but_queue (snd ko) (snd out)
  /\ webhook_deliveries_tbl (snd ko) = webhook_deliveries_tbl db.
Proof.
  cbv zeta. unfold Claim.claim_with_referrer.
  destruct (String.eqb _ _); [auto using same_but_queue_refl|].
  destruct (match Claim.maxReferralsPerReferrer _ with Some _ => _ | None => _ end)
    as [[max cur]|]; [auto using same_but_queue_refl|].
  change (Claim.transaction tenantId input referrer
            (DbHelpers.getTenant tenantId db)
            (DbHelpers.getUserByExternalId tenantId (Claim.referredUserId input) db)
            (with_enqueue ok env))
    with (Claim.transaction tenantId input referrer
            (DbHelpers.getTenant tenantId db)
            (DbHelpers.getUserByExternalId tenantId (Claim.referredUserId input) db)
            (with_enqueue false env)).
  pose proof (transaction_keeps_queue tenantId input referrer
                (DbHelpers.getTenant tenantId db)
                (DbHelpers.getUserByExternalId tenantId
                   (Claim.referredUserId input) db)
                (with_enqueue false env) db) as Hqueue.
  destruct (Claim.transaction _ _ _ _ _ _ db)
    as [[[r|newReferral rewards eventId] db']|];
    [specialize (Hqueue _ _ eq_refl)|specialize (Hqueue _ _ eq_refl)|];
    [auto using same_but_queue_refl| |auto using same_but_queue_refl].
  destruct (after_commit_enqueue tenantId referrer newReferral rewards eventId
              env db' ok) as (Hresp & Hko & Hrest).
  split; [exact Hresp|]. rewrite Hko. split; [exact Hrest|exact Hqueue].
Qed.

(** C7. The reply to a claim does not depend on how the enqueue of the
    webhook delivery ends. Run with a failing enqueue, the handler gives
    the reply it gives with a working one; users, referrals, ledger,
    events and counters are the same in both runs; and the failing run
    leaves the delivery queue as it found it. *)
Theorem enqueue_failure_is_not_surfaced (tenantId : string)
    (request : Claim.Request) (env : Claim.Env) (db : Db) :
  let ok := Claim.handleClaimReferral tenantId request (with_enqueue true env) db in
  let ko := Claim.handleClaimReferral tenantId request (with_enqueue false env) db in
  fst ko = fst ok
  /\ same_but_queue (snd ko) (snd ok)
  /\ webhook_deliveries_tbl (snd ko) = webhook_deliveries_tbl db.
Proof.
  cbv zeta. unfold Claim.handleClaimReferral.
  change (Claim.check tenantId ("claim:ip:" +:+ Claim.getClientIp request)
            RateLimit.CLAIM_PER_IP Claim.ClaimIpCheck (with_enqueue true env) db)
    with (Claim.check tenantId ("claim:ip:" +:+ Claim.getClientIp request)
            RateLimit.CLAIM_PER_IP Claim.ClaimIpCheck (with_enqueue false env) db).
  pose proof (check_same_rows tenantId ("claim:ip:" +:+ Claim.getClientIp request)
                RateLimit.CLAIM_PER_IP Claim.ClaimIpCheck (with_enqueue false env)
                db) as (_ & _ & _ & _ & Hq0 & _).
  destruct (Claim.check _ _ _ _ _ db) as [ipRateLimit db0]. cbn [snd] in Hq0.
  destruct (negb (RateLimit.allowed ipRateLimit));
    [auto using same_but_queue_refl|].
  destruct (Claim.body request) as [data|]; [|auto using same_but_queue_refl].
  destruct (Claim.safeParse data) as [input|]; [|auto using same_but_queue_refl].
  unfold Claim.claim_with_input.
  destruct (Nat.ltb _ _); [auto using same_but_queue_refl|].
  destruct (Nat.ltb _ _); [auto using same_but_queue_refl|].
  change (Claim.check tenantId ("claim:user:" +:+ Claim.referredUserId input)
            RateLimit.CLAIM_PER_USER Claim.ClaimUserCheck (with_enqueue true env)
            db0)
    with (Claim.check tenantId ("claim:user:" +:+ Claim.referredUserId input)
            RateLimit.CLAIM_PER_USER Claim.ClaimUserCheck (with_enqueue false env)
            db0).
  pose proof (check_same_rows tenantId
                ("claim:user:" +:+ Claim.referredUserId input)
                RateLimit.CLAIM_PER_USER Claim.ClaimUserCheck
                (with_enqueue false env) db0) as (_ & _ & _ & _ & Hq1 & _).
  destruct (Claim.check _ _ _ _ _ db0) as [userRateLimit db1]. cbn [snd] in Hq1.
  rewrite <- Hq0, <- Hq1.
  destruct (negb (RateLimit.allowed userRateLimit));
    [auto using same_but_queue_refl|].
  destruct (DbHelpers.getReferralByReferredExternalUserId _ _ db1) as [r|];
    [auto using same_but_queue_refl|].
  destruct (DbHelpers.getUserByReferralCode _ _ db1) as [referrer|].
  - destruct (claim_with_referrer_enqueue tenantId input referrer env db1 true)
      as (Hresp & Hrest & Hqueue).
    auto.
  - change (Claim.claim_code_not_found tenantId (Claim.getClientIp request)
              (with_enqueue true env) db1)
      with (Claim.claim_code_not_found tenantId (Claim.getClientIp request)
              (with_enqueue false env) db1).
    split; [reflexivity|]. split; [apply same_but_queue_refl|].
    pose proof (claim_code_not_found_outcome tenantId (Claim.getClientIp request)
                  (with_enqueue false env) db1) as ((_ & _ & _ & _ & Hq2 & _) & _).
    exact Hq2.
Qed.

(** A first claim whose enqueue fails: the caller gets the 201 reply with
    the reward, the referral, the ledger row and the event are written,
    and nothing is queued. *)
Example first_claim_with_failing_enqueue :
  let out := Claim.handleClaimReferral "t1" Scenario.request1
               (with_enqueue false Scenario.env1) Scenario.db0 in
  fst out = fst (Claim.handleClaimReferral "t1" Scenario.request1 Scenario.env1
                   Scenario.db0)
  /\ option_map Claim.alreadyProcessed (data_of (fst out)) = Some false
  /\ option_map Claim.referrerReward (data_of (fst out))
     = Some (Some {| Claim.amount := 200; Claim.currency := "AUD" |})
  /\ status_of (fst out) = Some 201
  /\ referrals_tbl (snd out) = [Scenario.referral1]
  /\ map rewardsLedger.eventId (rewards_ledger_tbl (snd out))
     = ["ref_reward_R1_U1"]
  /\ map events.type (events_tbl (snd out)) = ["referral.claimed"]
  /\ webhook_deliveries_tbl (snd out) = [].
Proof. cbv zeta. by_computation. Qed.

End ClaimRoute.

(** ** Further properties of the claim route *)

Section ClaimRouteMore.
Import ClaimSpec ClaimFacts.

Lemma bind_inv {A B : Type} (m : Tx.t A) (k : A -> Tx.t B) (db db2 : Db) (b : B) :
  Tx.bind m k db = Some (b, db2) ->
  exists a db1, m db = Some (a, db1) /\ k a db1 = Some (b, db2).
Proof.
  unfold Tx.bind. destruct (m db) as [[a db1]|]; [|discriminate].
  intros H. exists a, db1. split; [reflexivity|exact H].
Qed.

Lemma query_inv {A : Type} (q : Db -> A) (db db' : Db) (a : A) :
  Tx.query q db = Some (a, db') -> a = q db /\ db' = db.
Proof. intros [= <- <-]. split; reflexivity. Qed.

Lemma ret_inv {A : Type} (x a : A) (db db' : Db) :
  Tx.ret x db = Some (a, db') -> a = x /\ db' = db.
Proof. intros [= <- <-]. split; reflexivity. Qed.

Lemma insert_user_inv (u : users.row) (db db' : Db) (o : option users.row) :
  Tx.insert_user_onConflictDoNothing u db = Some (o, db') ->
  (o = None /\ db' = db)
  \/ (o = Some u /\ db' = set_users (users_tbl db ++ [u]) db).
Proof.
  unfold Tx.insert_user_onConflictDoNothing.
  destruct (existsb _ _); intros [= <- <-]; auto.
Qed.

Lemma insert_referral_inv (r r' : referrals.row) (db db' : Db) :
  Tx.insert_referral r db = Some (r', db') ->
  r' = r
  /\ db' = set_referrals (referrals_tbl db ++ [r]) db
  /\ forall v, In v (referrals_tbl db) -> referral_key v <> referral_key r.
Proof.
  unfold Tx.insert_referral.
  destruct (existsb _ _) eqn:Hex; [discriminate|].
  intros [= <- <-]. split; [reflexivity|]. split; [reflexivity|].
  intros v Hin Hkey.
  assert (Hv : existsb
                 (fun v => String.eqb (referrals.tenantId v) (referrals.tenantId r)
                           && String.eqb (referrals.referredExternalUserId v)
                                (referrals.referredExternalUserId r))
                 (referrals_tbl db) = true).
  { apply existsb_exists. exists v. split; [exact Hin|].
    unfold referral_key in Hkey. injection Hkey as -> ->.
    rewrite !String.eqb_refl. reflexivity. }
  rewrite Hv in Hex. discriminate.
Qed.

Lemma insert_reward_inv (tenantId id : string)
    (reward : option Rewards.RewardEntry) (createdAt : Z) (db db' : Db) (u : unit) :
  Claim.insert_reward tenantId id reward createdAt db = Some (u, db') ->
  db' = set_rewards_ledger
          (granted_ledger tenantId id reward createdAt (rewards_ledger_tbl db)) db.
Proof.
  unfold Claim.insert_reward, granted_ledger.
  destruct reward as [e|].
  - unfold Tx.insert_ledger_onConflictDoNothing.
    destruct (existsb _ _); intros [= _ <-];
      [destruct db; reflexivity|reflexivity].
  - intros [= _ <-]. destruct db; reflexivity.
Qed.

Lemma insert_event_inv (e e' : events.row) (db db' : Db) :
  Tx.insert_event e db = Some (e', db') ->
  e' = e /\ db' = set_events (events_tbl db ++ [e]) db.
Proof. intros [= <- <-]. split; reflexivity. Qed.

(** The transaction answers [AlreadyProcessed] only from its first read,
    before it has written anything. *)
Lemma transaction_already_inv (tenantId : string)
    (input : Claim.ClaimReferralInput) (referrer : users.row)
    (tenant : option tenants.row) (referredUser0 : option users.row)
    (env : Claim.Env) (db db' : Db) (r : referrals.row) :
  Claim.transaction tenantId input referrer tenant referredUser0 env db
  = Some (Claim.AlreadyProcessed r, db') ->
  db' = db
  /\ DbHelpers.getReferralByReferredExternalUserId
       tenantId (Claim.referredUserId input) db = Some r.
Proof.
  unfold Claim.transaction. intros H.
  apply bind_inv in H as (doubleCheck & db1 & Hq & H).
  apply query_inv in Hq as [-> ->].
  destruct (DbHelpers.getReferralByReferredExternalUserId _ _ db) as [r0|].
  - apply ret_inv in H as [[= ->] ->]. split; reflexivity.
  - exfalso.
    apply bind_inv in H as (referredUser & db2 & _ & H).
    destruct referredUser as [referredUser|]; [|discriminate].
    apply bind_inv in H as (newReferral & db3 & _ & H).
    apply bind_inv in H as (u1 & db4 & _ & H).
    apply bind_inv in H as (u2 & db5 & _ & H).
    apply bind_inv in H as (claimEvent & db6 & _ & H).
    apply ret_inv in H as [H _]. discriminate.
Qed.

(** What a committed first claim has written. *)
Lemma transaction_created_inv (tenantId : string)
    (input : Claim.ClaimReferralInput) (referrer : users.row)
    (tenant : option tenants.row) (referredUser0 : option users.row)
    (env : Claim.Env) (db db' : Db) (nr : referrals.row)
    (rw : Rewards.CalculateRewardsOutput) (eid : string) :
  Claim.transaction tenantId input referrer tenant referredUser0 env db
  = Some (Claim.Created nr rw eid, db') ->
  exists referredUser,
    DbHelpers.getReferralByReferredExternalUserId
      tenantId (Claim.referredUserId input) db = None
    /\ (referredUser0 = Some referredUser \/ referredUser0 = None)
    /\ (users_tbl db' = users_tbl db
        \/ (referredUser0 = None
            /\ referredUser = placeholder_user tenantId input env
            /\ users_tbl db'
               = (users_tbl db ++ [placeholder_user tenantId input env])%list))
    /\ nr = new_referral tenantId input referrer referredUser env
    /\ referrals_tbl db' = (referrals_tbl db ++ [nr])%list
    /\ (forall v, In v (referrals_tbl db) -> referral_key v <> referral_key nr)
    /\ rw = Rewards.calculateRewards
              {| Rewards.in_referralId := referrals.id nr;
                 Rewards.in_referrerUserId := users.id referrer;
                 Rewards.in_referrerExternalUserId := users.externalUserId referrer;
                 Rewards.in_referrerTier := users.plan referrer;
                 Rewards.in_referredUserId := users.id referredUser;
                 Rewards.in_referredExternalUserId := Claim.referredUserId input;
                 Rewards.in_tenantRewardSettings :=
                   Claim.tenantRewardSettings tenant |}
    /\ rewards_ledger_tbl db'
       = granted_ledger tenantId (Claim.newReferredLedgerId env)
           (Rewards.referredReward rw) (Claim.now env)
           (granted_ledger tenantId (Claim.newReferrerLedgerId env)
              (Rewards.referrerReward rw) (Claim.now env)
              (rewards_ledger_tbl db))
    /\ eid = Claim.newEventId env
    /\ events_tbl db'
       = (events_tbl db ++
          [{| events.id := Claim.newEventId env;
              events.tenantId := tenantId;
              events.type := "referral.claimed";
              events.payloadJson :=
                events.ReferralClaimed (referrals.id nr)
                  (users.externalUserId referrer) (Claim.referredUserId input)
                  (Claim.referralCode input)
                  (option_map Rewards.rewardJson (Rewards.referrerReward rw))
                  (option_map Rewards.rewardJson (Rewards.referredReward rw));
              events.createdAt := Claim.now env |}])%list
    /\ tenants_tbl db' = tenants_tbl db
    /\ rate_limits_tbl db' = rate_limits_tbl db
    /\ webhook_deliveries_tbl db' = webhook_deliveries_tbl db.
Proof.
  unfold Claim.transaction. intros H.
  apply bind_inv in H as (doubleCheck & db1 & Hq & H).
  apply query_inv in Hq as [-> ->].
  destruct (DbHelpers.getReferralByReferredExternalUserId _ _ db) as [r0|] eqn:Hdc;
    [apply ret_inv in H as [H _]; discriminate|].
  apply bind_inv in H as (referredUser & db2 & Huser & H).
  destruct referredUser as [referredUser|]; [|discriminate].
  apply bind_inv in H as (newReferral & db3 & Href & H).
  apply insert_referral_inv in Href as (-> & -> & Hfresh).
  apply bind_inv in H as (u1 & db4 & Hg1 & H).
  apply insert_reward_inv in Hg1 as ->.
  apply bind_inv in H as (u2 & db5 & Hg2 & H).
  apply insert_reward_inv in Hg2 as ->.
  apply bind_inv in H as (claimEvent & db6 & Hev & H).
  apply insert_event_inv in Hev as [-> ->].
  apply ret_inv in H as [H ->]. injection H as Hnr Hrw Heid. subst nr rw eid.
  exists referredUser.
  assert (Hu : (referredUser0 = Some referredUser /\ db2 = db)
               \/ (referredUser0 = None
                   /\ ((db2 = db)
                       \/ (referredUser = placeholder_user tenantId input env
                           /\ db2 = set_users
                                      (users_tbl db
                                       ++ [placeholder_user tenantId input env]) db)))).
  { destruct referredUser0 as [u0|].
    - apply ret_inv in Huser as [[= <-] ->]. left. split; reflexivity.
    - right. split; [reflexivity|].
      apply bind_inv in Huser as (newUser & dbu & Hins & Huser).
      apply insert_user_inv in Hins as [[-> ->]|[-> ->]].
      + apply query_inv in Huser as [_ ->]. left. reflexivity.
      + apply ret_inv in Huser as [Hsame ->]. injection Hsame as ->.
        right. split; reflexivity. }
  split; [reflexivity|].
  split; [destruct Hu as [[-> _]|[-> _]]; auto|].
  split.
  { destruct Hu as [[_ ->]|[Hnone [->|[-> ->]]]]; auto. }
  assert (Hrest : referrals_tbl db2 = referrals_tbl db
                  /\ rewards_ledger_tbl db2 = rewards_ledger_tbl db
                  /\ events_tbl db2 = events_tbl db
                  /\ tenants_tbl db2 = tenants_tbl db
                  /\ rate_limits_tbl db2 = rate_limits_tbl db
                  /\ webhook_deliveries_tbl db2 = webhook_deliveries_tbl db).
  { destruct Hu as [[_ ->]|[_ [->|[_ ->]]]]; repeat split. }
  destruct Hrest as (Hr & Hl & He & Ht & Hrl & Hq).
  cbn [referrals_tbl rewards_ledger_tbl events_tbl tenants_tbl rate_limits_tbl
       webhook_deliveries_tbl users_tbl set_events set_rewards_ledger
       set_referrals].
  rewrite Hr, Hl, He, Ht, Hrl, Hq. unfold new_referral.
  split; [reflexivity|]. split; [reflexivity|].
  split; [intros v Hin; apply Hfresh; rewrite Hr; exact Hin|].
  repeat split.
Qed.

Lemma same_rows_sym (db db' : Db) : same_rows db db' -> same_rows db' db.
Proof. unfold same_rows. intuition congruence. Qed.

Lemma replay_response_status (r : referrals.row) (db : Db) :
  status_of (Claim.replay_response r db) = Some 200.
Proof. reflexivity. Qed.

(** Every path through the part of the handler that starts at the
    resolved referrer: a reply that is not 201 with nothing written, or
    the transaction committed and [after_commit] ran. *)
Lemma claim_with_referrer_outcome (tenantId : string)
    (input : Claim.ClaimReferralInput) (referrer : users.row) (env : Claim.Env)
    (db : Db) :
  let out := Claim.claim_with_referrer tenantId input referrer env db in
  (status_of (fst out) <> Some 201 /\ snd out = db)
  \/ (users.externalUserId referrer <> Claim.referredUserId input
      /\ cap_open tenantId referrer db
      /\ exists nr rw eid db2,
           Claim.transaction tenantId input referrer
             (DbHelpers.getTenant tenantId db)
             (DbHelpers.getUserByExternalId tenantId
                (Claim.referredUserId input) db) env db
           = Some (Claim.Created nr rw eid, db2)
           /\ out = Claim.after_commit tenantId referrer nr rw eid env db2).
Proof.
  cbv zeta. unfold Claim.claim_with_referrer.
  destruct (String.eqb _ _) eqn:Hself; [left; split; [discriminate|reflexivity]|].
  apply String.eqb_neq in Hself.
  assert (Hcap :
            match
              match Claim.maxReferralsPerReferrer (DbHelpers.getTenant tenantId db) with
              | Some max =>
                  if 0 <? max then
                    if max <=? DbHelpers.countReferralsByReferrer tenantId
                                 (users.id referrer) db
                    then Some (max, DbHelpers.countReferralsByReferrer tenantId
                                      (users.id referrer) db)
                    else None
                  else None
              | None => None
              end
            with
            | Some _ => True
            | None => cap_open tenantId referrer db
            end).
  { unfold cap_open.
    destruct (Claim.maxReferralsPerReferrer _) as [max|]; [|exact I].
    destruct (Z.ltb_spec 0 max); [|left; lia].
    destruct (Z.leb_spec max (DbHelpers.countReferralsByReferrer tenantId
                                (users.id referrer) db)); [exact I|right; lia]. }
  destruct (match Claim.maxReferralsPerReferrer _ with Some _ => _ | None => _ end)
    as [[max cur]|]; [left; split; [discriminate|reflexivity]|].
  destruct (Claim.transaction _ _ _ _ _ _ db)
    as [[[r|nr rw eid] db2]|] eqn:Htx.
  - left. apply transaction_already_inv in Htx as [-> _].
    split; [discriminate|reflexivity].
  - right. split; [exact Hself|]. split; [exact Hcap|].
    exists nr, rw, eid, db2. split; reflexivity.
  - left. split; [discriminate|reflexivity].
Qed.

(** Every path through the handler. *)
Lemma handle_outcome (tenantId : string) (request : Claim.Request)
    (env : Claim.Env) (db : Db) :
  let out := Claim.handleClaimReferral tenantId request env db in
  (status_of (fst out) <> Some 201 /\ same_rows db (snd out))
  \/ (exists input referrer db1 nr rw eid db2,
        (exists data, Claim.body request = Some data
                      /\ Claim.safeParse data = Some input)
        /\ same_rows db db1
        /\ DbHelpers.getUserByReferralCode
             tenantId (Claim.referralCode input) db1 = Some referrer
        /\ users.externalUserId referrer <> Claim.referredUserId input
        /\ cap_open tenantId referrer db1
        /\ Claim.transaction tenantId input referrer
             (DbHelpers.getTenant tenantId db1)
             (DbHelpers.getUserByExternalId tenantId
                (Claim.referredUserId input) db1) env db1
           = Some (Claim.Created nr rw eid, db2)
        /\ out = Claim.after_commit tenantId referrer nr rw eid env db2).
Proof.
  cbv zeta. unfold Claim.handleClaimReferral.
  pose proof (check_same_rows tenantId ("claim:ip:" +:+ Claim.getClientIp request)
                RateLimit.CLAIM_PER_IP Claim.ClaimIpCheck env db) as Hrows0.
  destruct (Claim.check _ _ _ _ _ db) as [ipRateLimit db0]. cbn [snd] in Hrows0.
  destruct (negb (RateLimit.allowed ipRateLimit));
    [left; split; [discriminate|exact Hrows0]|].
  destruct (Claim.body request) as [data|];
    [|left; split; [discriminate|exact Hrows0]].
  destruct (Claim.safeParse data) as [input|] eqn:Hparse;
    [|left; split; [discriminate|exact Hrows0]].
  unfold Claim.claim_with_input.
  destruct (Nat.ltb _ _); [left; split; [discriminate|exact Hrows0]|].
  destruct (Nat.ltb _ _); [left; split; [discriminate|exact Hrows0]|].
  pose proof (check_same_rows tenantId
                ("claim:user:" +:+ Claim.referredUserId input)
                RateLimit.CLAIM_PER_USER Claim.ClaimUserCheck env db0) as Hrows1.
  destruct (Claim.check _ _ _ _ _ db0) as [userRateLimit db1]. cbn [snd] in Hrows1.
  assert (Hrows : same_rows db db1) by exact (same_rows_trans _ _ _ Hrows0 Hrows1).
  destruct (negb (RateLimit.allowed userRateLimit));
    [left; split; [discriminate|exact Hrows]|].
  destruct (DbHelpers.getReferralByReferredExternalUserId _ _ db1) as [r|];
    [left; split; [discriminate|exact Hrows]|].
  destruct (DbHelpers.getUserByReferralCode _ _ db1) as [referrer|] eqn:Hreferrer.
  - destruct (claim_with_referrer_outcome tenantId input referrer env db1)
      as [[Hstatus Hdb]|(Hself & Hcap & nr & rw & eid & db2 & Htx & Hout)].
    + left. split; [exact Hstatus|]. rewrite Hdb. exact Hrows.
    + right. exists input, referrer, db1, nr, rw, eid, db2.
      split; [exists data; split; [reflexivity|exact Hparse]|].
      repeat (split; [assumption|]). exact Hout.
  - left.
    pose proof (claim_code_not_found_outcome tenantId (Claim.getClientIp request)
                  env db1) as (Hrows2 & _ & Hanswer).
    split; [|exact (same_rows_trans _ _ _ Hrows Hrows2)].
    destruct Hanswer as [[-> _]|[[retry ->] _]]; discriminate.
Qed.

(** X1. Only a 201 writes. Whatever the request and the state, when the
    handler does not answer 201 (an error reply, the idempotent 200, or an
    exception out of the transaction) the users, referrals, ledger, events,
    deliveries and tenants are as they were. *)
Theorem only_created_reply_writes (tenantId : string) (request : Claim.Request)
    (env : Claim.Env) (db : Db) :
  let out := Claim.handleClaimReferral tenantId request env db in
  status_of (fst out) <> Some 201 -> same_rows db (snd out).
Proof.
  cbv zeta. intros Hstatus.
  destruct (handle_outcome tenantId request env db)
    as [[_ Hrows]|(input & referrer & db1 & nr & rw & eid & db2 & _ & _ & _ & _ & _
                   & _ & Hout)]; [exact Hrows|].
  exfalso. apply Hstatus. rewrite Hout. reflexivity.
Qed.

Lemma only_created_reply_writes_witness :
  same_rows Scenario.db1
    (snd (Claim.handleClaimReferral "t1" Scenario.request1 Scenario.env2
            Scenario.db1)).
Proof.
  apply (only_created_reply_writes "t1" Scenario.request1 Scenario.env2
           Scenario.db1).
  vm_compute. discriminate.
Defined.

Lemma after_commit_effect (tenantId : string) (referrer : users.row)
    (newReferral : referrals.row) (rewards : Rewards.CalculateRewardsOutput)
    (eventId : string) (env : Claim.Env) (db : Db) :
  let out :=
    Claim.after_commit tenantId referrer newReferral rewards eventId env db in
  same_but_queue db (snd out)
  /\ exists data,
       fst out = Claim.successResponse data 201
       /\ Claim.alreadyProcessed data = false
       /\ Claim.id (Claim.referral data) = referrals.id newReferral
       /\ Claim.referredExternalUserId (Claim.referral data)
          = referrals.referredExternalUserId newReferral
       /\ Claim.referrerUserId (Claim.referral data) = users.externalUserId referrer
       /\ Claim.referrerReward data
          = Claim.reward_view (Rewards.referrerReward rewards)
       /\ Claim.referredReward data
          = Claim.reward_view (Rewards.referredReward rewards).
Proof.
  cbv zeta. unfold Claim.after_commit. cbn [fst snd]. split.
  - destruct (Js.nonempty eventId), (Claim.enqueue_ok env);
      auto using same_but_queue_refl, enqueue_same_but_queue.
  - eexists. split; [reflexivity|]. repeat split.
Qed.

Lemma unique_after_append (rows : list referrals.row) (r : referrals.row) :
  NoDup (map referral_key rows) ->
  (forall v, In v rows -> referral_key v <> referral_key r) ->
  NoDup (map referral_key (rows ++ [r])).
Proof.
  intros Hnd Hfresh. rewrite map_app. apply NoDup_app.
  split; [exact Hnd|]. split; [|apply NoDup_singleton].
  intros k Hk Hr. apply list_elem_of_In in Hk.
  apply in_map_iff in Hk as (v & <- & Hv).
  apply list_elem_of_singleton in Hr. exact (Hfresh v Hv Hr).
Qed.

(** X2. The handler keeps referrals unique: if no two referrals share a
    (tenant, referred external user id) before a request, none do after it,
    whatever the request. *)
Theorem claim_keeps_referrals_unique (tenantId : string)
    (request : Claim.Request) (env : Claim.Env) (db : Db) :
  referrals_unique db ->
  referrals_unique (snd (Claim.handleClaimReferral tenantId request env db)).
Proof.
  intros Huniq. unfold referrals_unique in *.
  destruct (handle_outcome tenantId request env db)
    as [[_ (_ & -> & _)]|(input & referrer & db1 & nr & rw & eid & db2 & _
                          & (_ & Hr1 & _) & _ & _ & _ & Htx & ->)];
    [exact Huniq|].
  destruct (after_commit_effect tenantId referrer nr rw eid env db2)
    as [(_ & -> & _) _].
  apply transaction_created_inv in Htx
    as (referredUser & _ & _ & _ & _ & -> & Hfresh & _).
  rewrite Hr1 in *. apply unique_after_append; assumption.
Qed.

Lemma claim_keeps_referrals_unique_witness :
  referrals_unique
    (snd (Claim.handleClaimReferral "t1" Scenario.request1 Scenario.env1
            Scenario.db0)).
Proof.
  apply (claim_keeps_referrals_unique "t1" Scenario.request1 Scenario.env1
           Scenario.db0).
  unfold referrals_unique. vm_compute. constructor.
Defined.

Lemma find_after_append {A : Type} (p : A -> bool) (l : list A) (x : A) :
  find p l = None -> p x = true -> find p (l ++ [x]) = Some x.
Proof.
  induction l as [|y l IH]; simpl; intros Hnone Hx; [rewrite Hx; reflexivity|].
  destruct (p y); [discriminate|]. apply IH; assumption.
Qed.

(** X3. A 201 is on record. When the handler answers 201 the reply says
    [alreadyProcessed = false], the referral it names is the one row
    appended to the referrals and is what the lookup by referred user now
    returns, and one [referral.claimed] event for that referral is appended
    to the event log. A later claim for the same referred user that is well
    formed and within the rate limits is therefore answered with that same
    referral id. *)
Theorem created_claim_is_recorded (tenantId : string) (request : Claim.Request)
    (env : Claim.Env) (db : Db) (data : Claim.ClaimReferralResponse) :
  let out := Claim.handleClaimReferral tenantId request env db in
  fst out = Claim.successResponse data 201 ->
  Claim.alreadyProcessed data = false
  /\ exists r e,
       referrals.id r = Claim.id (Claim.referral data)
       /\ referrals.referredExternalUserId r
          = Claim.referredExternalUserId (Claim.referral data)
       /\ referrals.status r = "completed"
       /\ referrals_tbl (snd out) = (referrals_tbl db ++ [r])%list
       /\ DbHelpers.getReferralByReferredExternalUserId tenantId
            (Claim.referredExternalUserId (Claim.referral data)) (snd out)
          = Some r
       /\ events_tbl (snd out) = (events_tbl db ++ [e])%list
       /\ events.type e = "referral.claimed"
       /\ events.tenantId e = tenantId
       /\ (exists code referrer referred rw1 rw2,
             events.payloadJson e
             = events.ReferralClaimed (referrals.id r) referrer referred code
                 rw1 rw2)
       /\ forall request2 env2 input2,
            well_formed request2 input2 ->
            Claim.referredUserId input2
            = Claim.referredExternalUserId (Claim.referral data) ->
            admitted tenantId request2 input2 env2 (snd out) ->
            is_replay_of r
              (fst (Claim.handleClaimReferral tenantId request2 env2 (snd out))).
Proof.
  cbv zeta. intros Hreply.
  destruct (handle_outcome tenantId request env db)
    as [[Hstatus _]|(input & referrer & db1 & nr & rw & eid & db2 & _
                     & (_ & Hr1 & _ & He1 & _) & _ & _ & _ & Htx & Hout)].
  { exfalso. apply Hstatus. rewrite Hreply. reflexivity. }
  rewrite Hout in Hreply |- *.
  destruct (after_commit_effect tenantId referrer nr rw eid env db2)
    as [(_ & Hr2 & _ & He2 & _) (data' & Hfst & Hap & Hid & Hext & _)].
  rewrite Hfst in Hreply. injection Hreply as <-.
  split; [exact Hap|].
  apply transaction_created_inv in Htx
    as (referredUser & Hnone & _ & _ & Hnr & Hrefs & _ & _ & _ & _ & Hev & _).
  assert (Hlookup :
            DbHelpers.getReferralByReferredExternalUserId tenantId
              (Claim.referredExternalUserId (Claim.referral data'))
              (snd (Claim.after_commit tenantId referrer nr rw eid env db2))
            = Some nr).
  { unfold DbHelpers.getReferralByReferredExternalUserId in *.
    rewrite Hr2, Hrefs, Hext, Hnr. cbn [new_referral referrals.referredExternalUserId].
    apply find_after_append; [exact Hnone|].
    cbn. rewrite !String.eqb_refl. reflexivity. }
  eexists nr, _. split; [symmetry; exact Hid|]. split; [symmetry; exact Hext|].
  split; [rewrite Hnr; reflexivity|].
  split; [rewrite Hr2, Hrefs, Hr1; reflexivity|].
  split; [exact Hlookup|].
  split; [rewrite He2, Hev, He1; reflexivity|].
  split; [reflexivity|]. split; [reflexivity|].
  split; [cbn; eauto 10|].
  intros request2 env2 input2 Hwf Hsame Hadm.
  destruct (claim_reaches_lookup _ _ _ _ _ Hwf Hadm) as (db3 & Hrows & _ & ->).
  rewrite (same_rows_referral _ _ _ _ Hrows), Hsame, Hlookup. cbn [fst].
  apply replay_response_is_replay.
Qed.

Lemma created_claim_is_recorded_witness :
  exists data r,
    fst (Claim.handleClaimReferral "t1" Scenario.request1 Scenario.env1
           Scenario.db0) = Claim.successResponse data 201
    /\ referrals.id r = Claim.id (Claim.referral data)
    /\ is_replay_of r
         (fst (Claim.handleClaimReferral "t1" Scenario.request1 Scenario.env2
                 Scenario.db1)).
Proof.
  eexists.
  destruct (created_claim_is_recorded "t1" Scenario.request1 Scenario.env1
              Scenario.db0 _ eq_refl)
    as (_ & r & e & Hid & _ & _ & _ & _ & _ & _ & _ & _ & Hreplay).
  exists r. split; [reflexivity|]. split; [exact Hid|].
  apply (Hreplay Scenario.request1 Scenario.env2 Scenario.input1).
  - split; [eexists; split; reflexivity|]. split; vm_compute; lia.
  - reflexivity.
  - split; right; vm_compute; discriminate.
Defined.

Lemma referrer_entry_key (i : Rewards.CalculateRewardsInput)
    (e : Rewards.RewardEntry) :
  Rewards.referrerReward (Rewards.calculateRewards i) = Some e ->
  Rewards.userId e = Rewards.in_referrerUserId i
  /\ Rewards.eventId e
     = Rewards.generateReferralEventId (Rewards.in_referralId i)
         (Rewards.in_referrerUserId i).
Proof.
  unfold Rewards.calculateRewards, Rewards.calculateReferrerReward.
  cbn [Rewards.referrerReward]. destruct (_ <=? 0); [discriminate|].
  intros [= <-]. split; reflexivity.
Qed.

Lemma referred_entry_key (i : Rewards.CalculateRewardsInput)
    (e : Rewards.RewardEntry) :
  Rewards.referredReward (Rewards.calculateRewards i) = Some e ->
  Rewards.userId e = Rewards.in_referredUserId i
  /\ Rewards.eventId e
     = Rewards.generateOnboardingEventId (Rewards.in_referralId i)
         (Rewards.in_referredUserId i).
Proof.
  unfold Rewards.calculateRewards, Rewards.calculateReferredReward.
  cbn [Rewards.referredReward]. destruct (_ <=? 0); [discriminate|].
  intros [= <-]. split; reflexivity.
Qed.

Lemma granted_keeps (tenantId id : string) (reward : option Rewards.RewardEntry)
    (createdAt : Z) (rows : list rewardsLedger.row) (l : rewardsLedger.row) :
  In l rows -> In l (granted_ledger tenantId id reward createdAt rows).
Proof.
  intros Hin. unfold granted_ledger. destruct reward as [e|]; [|exact Hin].
  cbv zeta. destruct (existsb _ _); [exact Hin|].
  apply in_or_app. left. exact Hin.
Qed.

Lemma granted_has_key (tenantId id : string) (e : Rewards.RewardEntry)
    (createdAt : Z) (rows : list rewardsLedger.row) :
  exists l,
    In l (granted_ledger tenantId id (Some e) createdAt rows)
    /\ rewardsLedger.tenantId l = tenantId
    /\ rewardsLedger.eventId l = Rewards.eventId e
    /\ rewardsLedger.userId l = Rewards.userId e.
Proof.
  unfold granted_ledger. cbv zeta.
  destruct (existsb _ _) eqn:Hex.
  - apply existsb_exists in Hex as (l & Hin & Hc).
    apply ledger_conflict_iff in Hc as (Ht & He & Hu).
    exists l. auto.
  - eexists. split; [apply in_or_app; right; left; reflexivity|].
    repeat split.
Qed.

Lemma granted_extends (tenantId id : string) (reward : option Rewards.RewardEntry)
    (createdAt : Z) (rows : list rewardsLedger.row) :
  exists added,
    granted_ledger tenantId id reward createdAt rows = (rows ++ added)%list
    /\ (length added <= 1)%nat
    /\ Forall (fun l => rewardsLedger.tenantId l = tenantId
                        /\ exists e, reward = Some e
                                     /\ rewardsLedger.eventId l = Rewards.eventId e
                                     /\ reward_of_row l
                                        = {| Claim.amount :=
                                               Rewards.amount (Rewards.rewardJson e);
                                             Claim.currency :=
                                               Rewards.reward_currency
                                                 (Rewards.rewardJson e) |})
         added
    /\ ((forall l, In l rows ->
                   forall e, reward = Some e ->
                             rewardsLedger.eventId l <> Rewards.eventId e) ->
        map reward_of_row added = option_list (Claim.reward_view reward)).
Proof.
  unfold granted_ledger. destruct reward as [e|].
  - cbv zeta. destruct (existsb _ _) eqn:Hex.
    + exists []. rewrite app_nil_r. split; [reflexivity|].
      split; [simpl; lia|]. split; [constructor|].
      intros Hfresh. exfalso.
      apply existsb_exists in Hex as (l & Hin & Hc).
      apply ledger_conflict_iff in Hc as (_ & He & _).
      exact (Hfresh l Hin e eq_refl He).
    + eexists [_]. split; [reflexivity|]. split; [simpl; lia|].
      split; [|reflexivity].
      constructor; [|constructor]. split; [reflexivity|].
      exists e. repeat split.
  - exists []. rewrite app_nil_r. split; [reflexivity|].
    split; [simpl; lia|]. split; [constructor|reflexivity].
Qed.

Lemma key_kinds_differ (referralId userId referralId' userId' : string) :
  Rewards.generateReferralEventId referralId userId
  <> Rewards.generateOnboardingEventId referralId' userId'.
Proof. unfold Rewards.generateReferralEventId, Rewards.generateOnboardingEventId.
  simpl. discriminate. Qed.

(** X4. The rewards of a 201 are in the ledger. When the handler answers 201
    the ledger is the old ledger followed by at most two new rows of the
    tenant; every reward the reply shows has a ledger row under its
    idempotency key ([ref_reward_<referral>_<user>] for the referrer,
    [onboard_<referral>_<user>] for the referred user); and when no older
    row carries a key of this referral, the new rows are exactly the rewards
    of the reply, amount and currency, referrer first. *)
Theorem created_claim_rewards_are_in_ledger (tenantId : string)
    (request : Claim.Request) (env : Claim.Env) (db : Db)
    (data : Claim.ClaimReferralResponse) :
  let out := Claim.handleClaimReferral tenantId request env db in
  fst out = Claim.successResponse data 201 ->
  exists added,
    rewards_ledger_tbl (snd out) = (rewards_ledger_tbl db ++ added)%list
    /\ (length added <= 2)%nat
    /\ Forall (fun l => rewardsLedger.tenantId l = tenantId) added
    /\ (forall v, Claim.referrerReward data = Some v ->
        exists l, In l (rewards_ledger_tbl (snd out))
                  /\ rewardsLedger.tenantId l = tenantId
                  /\ rewardsLedger.eventId l
                     = Rewards.generateReferralEventId
                         (Claim.id (Claim.referral data)) (rewardsLedger.userId l))
    /\ (forall v, Claim.referredReward data = Some v ->
        exists l, In l (rewards_ledger_tbl (snd out))
                  /\ rewardsLedger.tenantId l = tenantId
                  /\ rewardsLedger.eventId l
                     = Rewards.generateOnboardingEventId
                         (Claim.id (Claim.referral data)) (rewardsLedger.userId l))
    /\ (keys_unused (Claim.id (Claim.referral data)) db ->
        map reward_of_row added
        = (option_list (Claim.referrerReward data)
           ++ option_list (Claim.referredReward data))%list).
Proof.
  cbv zeta. intros Hreply.
  destruct (handle_outcome tenantId request env db)
    as [[Hstatus _]|(input & referrer & db1 & nr & rw & eid & db2 & _
                     & (_ & _ & Hl1 & _) & _ & _ & _ & Htx & Hout)].
  { exfalso. apply Hstatus. rewrite Hreply. reflexivity. }
  rewrite Hout in Hreply |- *.
  destruct (after_commit_effect tenantId referrer nr rw eid env db2)
    as [(_ & _ & Hl2 & _) (data' & Hfst & _ & Hid & _ & _ & Hv1 & Hv2)].
  rewrite Hfst in Hreply. injection Hreply as <-.
  apply transaction_created_inv in Htx
    as (referredUser & _ & _ & _ & Hnr & _ & _ & Hrw & Hledger & _).
  rewrite Hl2, Hledger, Hl1, Hid, Hv1, Hv2.
  match type of Hrw with
  | _ = Rewards.calculateRewards ?i =>
      pose proof (referrer_entry_key i) as Hk1;
      pose proof (referred_entry_key i) as Hk2
  end.
  rewrite <- Hrw in Hk1, Hk2. cbn [Rewards.in_referralId
    Rewards.in_referrerUserId Rewards.in_referredUserId] in Hk1, Hk2.
  destruct (granted_extends tenantId (Claim.newReferrerLedgerId env)
              (Rewards.referrerReward rw) (Claim.now env) (rewards_ledger_tbl db))
    as (added1 & Hg1 & Hlen1 & Hall1 & Hexact1).
  destruct (granted_extends tenantId (Claim.newReferredLedgerId env)
              (Rewards.referredReward rw) (Claim.now env)
              (rewards_ledger_tbl db ++ added1))
    as (added2 & Hg2 & Hlen2 & Hall2 & Hexact2).
  rewrite Hg1, Hg2, <- app_assoc.
  exists (added1 ++ added2)%list.
  split; [reflexivity|].
  split; [rewrite length_app; lia|].
  split.
  { apply Forall_app. split; [eapply Forall_impl; [exact Hall1|]
                             |eapply Forall_impl; [exact Hall2|]];
      intros l [Ht _]; exact Ht. }
  split.
  { intros v Hv. destruct (Rewards.referrerReward rw) as [e|] eqn:He;
      [|discriminate].
    destruct (granted_has_key tenantId (Claim.newReferrerLedgerId env) e
                (Claim.now env) (rewards_ledger_tbl db))
      as (l & Hin & Ht & Hev & Hu).
    exists l. rewrite Hg1 in Hin.
    split; [rewrite app_assoc; apply in_or_app; left; exact Hin|].
    split; [exact Ht|].
    destruct (Hk1 e eq_refl) as [Hue Hee]. rewrite Hev, Hu, Hee, Hue.
    reflexivity. }
  split.
  { intros v Hv. destruct (Rewards.referredReward rw) as [e|] eqn:He;
      [|discriminate].
    destruct (granted_has_key tenantId (Claim.newReferredLedgerId env) e
                (Claim.now env) (rewards_ledger_tbl db ++ added1))
      as (l & Hin & Ht & Hev & Hu).
    exists l. rewrite Hg2, <- app_assoc in Hin.
    split; [exact Hin|]. split; [exact Ht|].
    destruct (Hk2 e eq_refl) as [Hue Hee]. rewrite Hev, Hu, Hee, Hue.
    reflexivity. }
  intros Hunused. rewrite map_app. f_equal.
  - apply Hexact1. intros l Hin e He.
    destruct (Hk1 e He) as [_ ->].
    exact (proj1 (Hunused l _ Hin)).
  - apply Hexact2. intros l Hin e He.
    destruct (Hk2 e He) as [_ ->].
    apply in_app_or in Hin as [Hin|Hin]; [exact (proj2 (Hunused l _ Hin))|].
    rewrite Forall_forall in Hall1.
    destruct (Hall1 l (proj2 (list_elem_of_In _ _) Hin))
      as (_ & e1 & He1 & -> & _).
    destruct (Hk1 e1 He1) as [_ ->]. apply key_kinds_differ.
Qed.

Lemma created_claim_rewards_are_in_ledger_witness :
  exists added,
    rewards_ledger_tbl Scenario.db1
    = (rewards_ledger_tbl Scenario.db0 ++ added)%list
    /\ map reward_of_row added
       = [{| Claim.amount := 200; Claim.currency := "AUD" |}].
Proof.
  destruct (created_claim_rewards_are_in_ledger "t1" Scenario.request1
              Scenario.env1 Scenario.db0 _ eq_refl)
    as (added & Hext & _ & _ & _ & _ & Hexact).
  exists added. split; [exact Hext|].
  apply Hexact. intros l userId Hin. destruct Hin.
Defined.

Lemma same_rows_tenant (db db' : Db) (tenantId : string) :
  same_rows db db' ->
  DbHelpers.getTenant tenantId db' = DbHelpers.getTenant tenantId db.
Proof.
  intros (_ & _ & _ & _ & _ & H). unfold DbHelpers.getTenant.
  rewrite H. reflexivity.
Qed.

Lemma same_rows_count (db db' : Db) (tenantId referrerUserId : string) :
  same_rows db db' ->
  DbHelpers.countReferralsByReferrer tenantId referrerUserId db'
  = DbHelpers.countReferralsByReferrer tenantId referrerUserId db.
Proof.
  intros (_ & H & _). unfold DbHelpers.countReferralsByReferrer.
  rewrite H. reflexivity.
Qed.

Lemma same_rows_user (db db' : Db) (tenantId externalUserId : string) :
  same_rows db db' ->
  DbHelpers.getUserByExternalId tenantId externalUserId db'
  = DbHelpers.getUserByExternalId tenantId externalUserId db.
Proof.
  intros (H & _). unfold DbHelpers.getUserByExternalId.
  rewrite H. reflexivity.
Qed.

(** The handler up to the resolved referrer, for a request that gets
    that far. *)
Lemma claim_reaches_referrer (tenantId : string) (request : Claim.Request)
    (env : Claim.Env) (db : Db) (input : Claim.ClaimReferralInput)
    (referrer : users.row) :
  well_formed request input ->
  admitted tenantId request input env db ->
  not_referred tenantId (Claim.referredUserId input) db ->
  resolves_to tenantId input referrer db ->
  exists db1,
    same_rows db db1
    /\ Claim.handleClaimReferral tenantId request env db
       = Claim.claim_with_referrer tenantId input referrer env db1.
Proof.
  intros Hwf Hadm Hnone Hres.
  destruct (claim_reaches_lookup _ _ _ _ _ Hwf Hadm) as (db1 & Hrows & _ & ->).
  exists db1. split; [exact Hrows|].
  rewrite (same_rows_referral _ _ _ _ Hrows), (not_referred_lookup _ _ _ Hnone).
  rewrite (same_rows_referrer _ _ _ _ Hrows). unfold resolves_to in Hres.
  rewrite Hres. reflexivity.
Qed.

(** X5. A self-referral is refused. A claim that is well formed, within the
    rate limits, for a user without a referral, whose code belongs to a user
    with the referred user's own external id, is answered SELF_REFERRAL
    (400) and writes nothing but the two counters. *)
Theorem self_referral_is_rejected (tenantId : string) (request : Claim.Request)
    (env : Claim.Env) (db : Db) (input : Claim.ClaimReferralInput)
    (referrer : users.row) :
  well_formed request input ->
  admitted tenantId request input env db ->
  not_referred tenantId (Claim.referredUserId input) db ->
  resolves_to tenantId input referrer db ->
  users.externalUserId referrer = Claim.referredUserId input ->
  let out := Claim.handleClaimReferral tenantId request env db in
  fst out = Claim.errorResponse "SELF_REFERRAL" 400 Claim.NoDetails
  /\ same_rows db (snd out).
Proof.
  intros Hwf Hadm Hnone Hres Hself.
  destruct (claim_reaches_referrer _ _ _ _ _ _ Hwf Hadm Hnone Hres)
    as (db1 & Hrows & ->).
  unfold Claim.claim_with_referrer. rewrite Hself, String.eqb_refl.
  split; [reflexivity|exact Hrows].
Qed.

Lemma self_referral_is_rejected_witness :
  let out := Claim.handleClaimReferral "t1" Cases.request_self Scenario.env2
               Scenario.db1 in
  fst out = Claim.errorResponse "SELF_REFERRAL" 400 Claim.NoDetails
  /\ same_rows Scenario.db1 (snd out).
Proof.
  apply (self_referral_is_rejected "t1" Cases.request_self Scenario.env2
           Scenario.db1 Cases.input_self Scenario.referrer1).
  - split; [eexists; split; reflexivity|]. split; vm_compute; lia.
  - split; right; vm_compute; discriminate.
  - intros r Hin _ Hu. vm_compute in Hin. destruct Hin as [<-|[]].
    vm_compute in Hu. discriminate Hu.
  - vm_compute. reflexivity.
  - reflexivity.
Defined.



Lemma count_after_append (tenantId referrerUserId : string) (db db' : Db)
    (r : referrals.row) :
  referrals_tbl db' = (referrals_tbl db ++ [r])%list ->
  DbHelpers.countReferralsByReferrer tenantId referrerUserId db'
  = DbHelpers.countReferralsByReferrer tenantId referrerUserId db
    + (if String.eqb (referrals.tenantId r) tenantId
          && String.eqb (referrals.referrerUserId r) referrerUserId
       then 1 else 0).
Proof.
  intros Happ. unfold DbHelpers.countReferralsByReferrer.
  rewrite Happ, List.filter_app, length_app. cbn [List.filter].
  destruct (_ && _); cbn [length]; lia.
Qed.

(** X7. Handled alone, a request keeps the cap. For a request that is
    handled with no other claim committing between its reads and its own
    transaction, while the tenant sets a positive
    [max_referrals_per_referrer], a referrer who is within the cap before
    the request is within it after the request, whatever the request. The
    count is read before the transaction and not again inside it, so this
    is a property of requests handled one after the other: two claims
    that overlap can take the referrer past the cap, as
    [overlapping_claims_pass_the_cap] shows. *)
Theorem cap_is_never_exceeded (tenantId : string) (request : Claim.Request)
    (env : Claim.Env) (db : Db) (referrerUserId : string) (max : Z) :
  Claim.maxReferralsPerReferrer (DbHelpers.getTenant tenantId db) = Some max ->
  0 < max ->
  DbHelpers.countReferralsByReferrer tenantId referrerUserId db <= max ->
  DbHelpers.countReferralsByReferrer tenantId referrerUserId
    (snd (Claim.handleClaimReferral tenantId request env db)) <= max.
Proof.
  intros Hmax Hpos Hwithin.
  destruct (handle_outcome tenantId request env db)
    as [[_ Hrows]|(input & referrer & db1 & nr & rw & eid & db2 & _
                   & Hrows & _ & _ & Hcap & Htx & ->)].
  { rewrite (same_rows_count _ _ _ _ Hrows). exact Hwithin. }
  destruct (after_commit_effect tenantId referrer nr rw eid env db2)
    as [(_ & Hr2 & _) _].
  apply transaction_created_inv in Htx
    as (referredUser & _ & _ & _ & Hnr & Hrefs & _).
  rewrite <- Hr2 in Hrefs.
  rewrite (count_after_append _ _ _ _ _ Hrefs), (same_rows_count _ _ _ _ Hrows).
  unfold cap_open in Hcap.
  rewrite (same_rows_tenant _ _ _ Hrows), Hmax in Hcap.
  rewrite (same_rows_count _ _ _ _ Hrows) in Hcap.
  rewrite Hnr. cbn [new_referral referrals.tenantId referrals.referrerUserId].
  rewrite String.eqb_refl. cbn [andb].
  destruct (String.eqb (users.id referrer) referrerUserId) eqn:Hsame; [|lia].
  apply String.eqb_eq in Hsame. subst referrerUserId. lia.
Qed.

Lemma cap_is_never_exceeded_witness :
  DbHelpers.countReferralsByReferrer "t1" "U1"
    (snd (Claim.handleClaimReferral "t1" Cases.request_u3 Scenario.env2
            Cases.db1_capped)) <= 1.
Proof.
  apply (cap_is_never_exceeded "t1" Cases.request_u3 Scenario.env2
           Cases.db1_capped "U1" 1).
  - reflexivity.
  - lia.
  - vm_compute. discriminate.
Defined.

(** The handler that runs alone is the one whose reads and transaction
    see the same database. *)
Lemma claim_with_referrer_alone (tenantId : string)
    (input : Claim.ClaimReferralInput) (referrer : users.row) (env : Claim.Env)
    (db : Db) :
  ClaimOverlap.claim_with_referrer tenantId input referrer env db db
  = Claim.claim_with_referrer tenantId input referrer env db.
Proof. reflexivity. Qed.

(** Two claims under one code, for a tenant with a cap of one and a
    referrer without referrals: the second has made its cap check when
    the first commits, and commits too. Both are answered 201 and the
    referrer has two referrals. *)
Example overlapping_claims_pass_the_cap :
  let seen := Cases.db0_capped in
  let first := Claim.handleClaimReferral "t1" Scenario.request1 Scenario.env1 seen in
  let second :=
    ClaimOverlap.claim_with_referrer "t1" Cases.input_u3 Scenario.referrer1
      Scenario.env2 seen (snd first) in
  Claim.maxReferralsPerReferrer (DbHelpers.getTenant "t1" seen) = Some 1
  /\ DbHelpers.countReferralsByReferrer "t1" "U1" seen = 0
  /\ status_of (fst first) = Some 201
  /\ status_of (fst second) = Some 201
  /\ DbHelpers.countReferralsByReferrer "t1" "U1" (snd second) = 2.
Proof. cbv zeta. by_computation. Qed.

Lemma cap_open_passes (tenantId : string) (referrer : users.row) (db : Db) :
  cap_open tenantId referrer db ->
  match Claim.maxReferralsPerReferrer (DbHelpers.getTenant tenantId db) with
  | Some max =>
      if 0 <? max then
        if max <=? DbHelpers.countReferralsByReferrer tenantId
                     (users.id referrer) db
        then Some (max, DbHelpers.countReferralsByReferrer tenantId
                          (users.id referrer) db)
        else None
      else None
  | None => None
  end = None.
Proof.
  unfold cap_open. destruct (Claim.maxReferralsPerReferrer _) as [max|];
    [|reflexivity].
  intros [Hoff|Hroom].
  - destruct (Z.ltb_spec 0 max); [lia|reflexivity].
  - destruct (0 <? max); [|reflexivity].
    destruct (Z.leb_spec max (DbHelpers.countReferralsByReferrer tenantId
                                (users.id referrer) db)); [lia|reflexivity].
Qed.

Lemma user_unknown_lookup (tenantId externalUserId : string) (db : Db) :
  user_unknown tenantId externalUserId db ->
  DbHelpers.getUserByExternalId tenantId externalUserId db = None.
Proof.
  intros Hunknown. unfold DbHelpers.getUserByExternalId.
  destruct (find _ _) as [u|] eqn:Hfind; [|reflexivity].
  apply find_some in Hfind as [Hin Hmatch].
  apply andb_true_iff in Hmatch as [Ht Hu]. apply String.eqb_eq in Ht, Hu.
  exfalso. exact (Hunknown u Hin Ht Hu).
Qed.

(** X8. A taken placeholder code breaks the claim. The handler gives a
    referred user it does not know yet the referral code [ref_pending_] +
    the first eight characters of the external id. When another user of the
    tenant already owns that code, the insert does nothing, the re-read by
    external id finds nobody, the transaction throws, and the claim ends in
    an exception with nothing written but the two counters: no user, no
    referral, no reward, no event. *)
Theorem taken_placeholder_code_throws (tenantId : string)
    (request : Claim.Request) (env : Claim.Env) (db : Db)
    (input : Claim.ClaimReferralInput) (referrer : users.row) :
  well_formed request input ->
  admitted tenantId request input env db ->
  not_referred tenantId (Claim.referredUserId input) db ->
  resolves_to tenantId input referrer db ->
  users.externalUserId referrer <> Claim.referredUserId input ->
  cap_open tenantId referrer db ->
  user_unknown tenantId (Claim.referredUserId input) db ->
  placeholder_taken tenantId input db ->
  let out := Claim.handleClaimReferral tenantId request env db in
  fst out = Claim.thrown /\ same_rows db (snd out).
Proof.
  intros Hwf Hadm Hnone Hres Hother Hcap Hunknown (u & Hin & Ht & Hcode).
  destruct (claim_reaches_referrer _ _ _ _ _ _ Hwf Hadm Hnone Hres)
    as (db1 & Hrows & ->).
  unfold Claim.claim_with_referrer.
  apply String.eqb_neq in Hother. rewrite Hother.
  assert (Hcap1 : cap_open tenantId referrer db1).
  { unfold cap_open in *.
    rewrite (same_rows_tenant _ _ _ Hrows), (same_rows_count _ _ _ _ Hrows).
    exact Hcap. }
  rewrite (cap_open_passes _ _ _ Hcap1).
  rewrite (same_rows_user _ _ _ _ Hrows), (user_unknown_lookup _ _ _ Hunknown).
  assert (Htx : Claim.transaction tenantId input referrer
                  (DbHelpers.getTenant tenantId db1) None env db1 = None).
  { unfold Claim.transaction, Tx.bind, Tx.query.
    rewrite (same_rows_referral _ _ _ _ Hrows), (not_referred_lookup _ _ _ Hnone).
    unfold Tx.insert_user_onConflictDoNothing.
    assert (Hex : existsb
                    (fun v =>
                       String.eqb (users.tenantId v) tenantId
                       && (String.eqb (users.externalUserId v)
                             (Claim.referredUserId input)
                           || String.eqb (users.referralCode v)
                                ("ref_pending_"
                                 +:+ Js.slice0 8 (Claim.referredUserId input))))
                    (users_tbl db1) = true).
    { apply existsb_exists. exists u. destruct Hrows as (-> & _).
      split; [exact Hin|]. rewrite Ht, Hcode, !String.eqb_refl.
      rewrite orb_true_r. reflexivity. }
    cbn [users.tenantId users.externalUserId users.referralCode]. rewrite Hex.
    rewrite (same_rows_user _ _ _ _ Hrows), (user_unknown_lookup _ _ _ Hunknown).
    reflexivity. }
  rewrite Htx. split; [reflexivity|exact Hrows].
Qed.

Lemma taken_placeholder_code_throws_witness :
  let out := Claim.handleClaimReferral "t1" Cases.request_customer_002
               Scenario.env2 Cases.db_customer in
  fst out = Claim.thrown /\ same_rows Cases.db_customer (snd out).
Proof.
  apply (taken_placeholder_code_throws "t1" Cases.request_customer_002
           Scenario.env2 Cases.db_customer Cases.input_customer_002
           Scenario.referrer1).
  - split; [eexists; split; reflexivity|]. split; vm_compute; lia.
  - split; right; vm_compute; discriminate.
  - intros r Hin _ Hu. vm_compute in Hin. destruct Hin as [<-|[]].
    vm_compute in Hu. discriminate Hu.
  - vm_compute. reflexivity.
  - vm_compute. discriminate.
  - vm_compute. exact I.
  - intros u Hin _ Hu. vm_compute in Hin.
    destruct Hin as [<-|[<-|[]]]; vm_compute in Hu; discriminate Hu.
  - eexists. split; [vm_compute; right; left; reflexivity|].
    split; reflexivity.
Defined.

End ClaimRouteMore.

(** ** Further properties of the webhook dispatcher *)

Section DispatcherMore.
Import WorkerSpec WorkerFacts.

(** X9. A delivered attempt settles the row. When the event exists, the
    worker has a signing secret and the destination answers 2xx, the attempt
    posts the event once to the row's URL, marks the row [success] with one
    more attempt, no next attempt and no error, and appends a [webhook.sent]
    event; no other row changes. *)
Theorem successful_delivery_is_settled (cfg : Worker.Config)
    (row : webhookDeliveries.row) (a : Worker.Attempt) (db : Db) :
  unique_ids db ->
  In row (webhook_deliveries_tbl db) ->
  event_exists (webhookDeliveries.tenantId row) (webhookDeliveries.eventId row) db ->
  signing_configured cfg ->
  attempt_succeeds a (webhookDeliveries.url row) ->
  exists db' request e sent,
    Worker.processDelivery cfg (Worker.record_of row) a db = Some (db', [request])
    /\ In e (events_tbl db)
    /\ events.id e = webhookDeliveries.eventId row
    /\ carries request (webhookDeliveries.url row) e
    /\ rows_changed (webhookDeliveries.id row) (after_success (Worker.now a))
         (webhook_deliveries_tbl db) (webhook_deliveries_tbl db')
    /\ events_tbl db' = (events_tbl db ++ [sent])%list
    /\ events.type sent = "webhook.sent"
    /\ events.tenantId sent = webhookDeliveries.tenantId row.
Proof.
  intros Huniq Hin Hev (secret & Hsecret & Hnonempty) Hok.
  destruct (find_event_some _ _ _ Hev) as (event & Hfind & Hevin & _ & Hevid).
  unfold Worker.processDelivery. cbn [Worker.record_of Worker.tenantId
    Worker.eventId Worker.url Worker.id Worker.attemptCount].
  rewrite Hfind, Hsecret, Hnonempty. cbn [negb]. rewrite Hok.
  replace (webhookDeliveries.attemptCount row + 1)%nat
    with (S (webhookDeliveries.attemptCount row)) by lia.
  eexists _, _, event, _. split; [reflexivity|].
  split; [exact Hevin|]. split; [exact Hevid|].
  split; [repeat split|]. split.
  - cbn [webhook_deliveries_tbl set_events set_webhook_deliveries].
    apply rows_changed_update. intros r Hr Hid.
    pose proof (unique_row _ r row Huniq Hr Hin Hid) as ->.
    repeat split.
  - split; [reflexivity|]. split; reflexivity.
Qed.

Lemma successful_delivery_is_settled_witness :
  exists db' request e sent,
    Worker.processDelivery Scenario.cfg (Worker.record_of Scenario.delivery1)
      (Cases.answering 1700000013000 "W1" "D1") Scenario.db1
    = Some (db', [request])
    /\ carries request "https://example.test/hook" e
    /\ rows_changed "D1" (after_success 1700000013000)
         (webhook_deliveries_tbl Scenario.db1) (webhook_deliveries_tbl db')
    /\ events.type sent = "webhook.sent".
Proof.
  destruct (successful_delivery_is_settled Scenario.cfg Scenario.delivery1
              (Cases.answering 1700000013000 "W1" "D1") Scenario.db1)
    as (db' & request & e & sent & Hrun & _ & _ & Hreq & Hrows & _ & Htype & _).
  - unfold unique_ids. vm_compute. repeat constructor. intros H. inversion H.
  - vm_compute. left. reflexivity.
  - eexists. split; [vm_compute; left; reflexivity|]. split; reflexivity.
  - exists "whsec_test". split; reflexivity.
  - intros body. reflexivity.
  - exists db', request, e, sent. auto.
Defined.

Lemma extends_refl {A : Type} (l : list A) : extends l l.
Proof. exists []. rewrite app_nil_r. reflexivity. Qed.

Lemma extends_trans {A : Type} (l1 l2 l3 : list A) :
  extends l1 l2 -> extends l2 l3 -> extends l1 l3.
Proof.
  intros [a1 ->] [a2 ->]. exists (a1 ++ a2)%list. rewrite app_assoc. reflexivity.
Qed.

(** What one attempt can do to the database: it writes the rows of its
    delivery in the queue, appends at most one event, and sends at most
    one request. *)
Lemma processDelivery_effect (cfg : Worker.Config)
    (delivery : Worker.DeliveryRecord) (a : Worker.Attempt) (db db' : Db)
    (sent : list Worker.HttpRequest) :
  Worker.processDelivery cfg delivery a db = Some (db', sent) ->
  users_tbl db' = users_tbl db
  /\ referrals_tbl db' = referrals_tbl db
  /\ rewards_ledger_tbl db' = rewards_ledger_tbl db
  /\ tenants_tbl db' = tenants_tbl db
  /\ rate_limits_tbl db' = rate_limits_tbl db
  /\ extends (events_tbl db) (events_tbl db')
  /\ (length sent <= 1)%nat
  /\ exists set,
       webhook_deliveries_tbl db'
       = Worker.update_delivery (Worker.id delivery) set (webhook_deliveries_tbl db)
       /\ forall r,
            webhookDeliveries.id (set r) = webhookDeliveries.id r
            /\ ((webhookDeliveries.status (set r) = "failed"
                 /\ webhookDeliveries.attemptCount (set r)
                    = webhookDeliveries.attemptCount r)
                \/ (webhookDeliveries.status (set r) = "success"
                    /\ webhookDeliveries.attemptCount (set r)
                       = S (Worker.attemptCount delivery))
                \/ (webhookDeliveries.attemptCount (set r)
                    = S (Worker.attemptCount delivery)
                    /\ webhookDeliveries.status (set r)
                       = if Worker.WEBHOOK_RETRY_LIMIT cfg
                            <=? Z.of_nat (S (Worker.attemptCount delivery))
                         then "failed" else "pending")).
Proof.
  unfold Worker.processDelivery.
  replace (Worker.attemptCount delivery + 1)%nat
    with (S (Worker.attemptCount delivery)) by lia.
  destruct (find _ (events_tbl db)) as [event|].
  - destruct (Worker.WEBHOOK_SIGNING_SECRET cfg) as [secret|]; [|discriminate].
    destruct (negb (Js.nonempty secret)); [discriminate|].
    destruct (Worker.success_of _); intros [= <- <-];
      cbn [users_tbl referrals_tbl rewards_ledger_tbl tenants_tbl rate_limits_tbl
           events_tbl webhook_deliveries_tbl set_events set_webhook_deliveries];
      do 5 (split; [reflexivity|]);
      (split; [unfold extends; eexists; reflexivity|]); (split; [simpl; lia|]);
      eexists; (split; [reflexivity|]); intros r; (split; [reflexivity|]).
    + right. left. split; reflexivity.
    + right. right. split; [reflexivity|]. cbn.
      destruct (_ <=? _); reflexivity.
  - intros [= <- <-].
    cbn [users_tbl referrals_tbl rewards_ledger_tbl tenants_tbl rate_limits_tbl
         events_tbl webhook_deliveries_tbl set_events set_webhook_deliveries].
    do 5 (split; [reflexivity|]).
    split; [apply extends_refl|]. split; [simpl; lia|].
    eexists. split; [reflexivity|]. intros r. split; [reflexivity|].
    left. split; reflexivity.
Qed.

(** The frame of a batch. *)
Lemma batch_effect (cfg : Worker.Config)
    (deliveries : list Worker.DeliveryRecord) (attempt : string -> Worker.Attempt)
    (db : Db) :
  let out := Worker.processWithConcurrency cfg deliveries attempt db in
  users_tbl (fst out) = users_tbl db
  /\ referrals_tbl (fst out) = referrals_tbl db
  /\ rewards_ledger_tbl (fst out) = rewards_ledger_tbl db
  /\ tenants_tbl (fst out) = tenants_tbl db
  /\ rate_limits_tbl (fst out) = rate_limits_tbl db
  /\ extends (events_tbl db) (events_tbl (fst out))
  /\ map webhookDeliveries.id (webhook_deliveries_tbl (fst out))
     = map webhookDeliveries.id (webhook_deliveries_tbl db)
  /\ (length (snd out) <= length deliveries)%nat.
Proof.
  cbv zeta. revert db.
  induction deliveries as [|d rest IH]; intros db;
    [cbn; repeat split; auto using extends_refl|].
  cbn [Worker.processWithConcurrency].
  destruct (Worker.processDelivery cfg d (attempt (Worker.id d)) db)
    as [[db1 sent1]|] eqn:Hstep.
  - apply processDelivery_effect in Hstep
      as (Hu & Hr & Hl & Ht & Hrl & He & Hlen & set & Hrows & Hset).
    specialize (IH db1).
    destruct (Worker.processWithConcurrency cfg rest attempt db1) as [db2 sent2].
    cbn [fst snd] in *.
    destruct IH as (Hu2 & Hr2 & Hl2 & Ht2 & Hrl2 & He2 & Hid2 & Hlen2).
    rewrite Hu2, Hr2, Hl2, Ht2, Hrl2, Hid2, Hrows.
    repeat (split; [assumption|]).
    split; [exact (extends_trans _ _ _ He He2)|].
    split; [apply update_delivery_ids; intros r; apply Hset|].
    rewrite length_app. cbn [length]. lia.
  - specialize (IH db).
    destruct (Worker.processWithConcurrency cfg rest attempt db) as [db2 sent2].
    cbn [fst snd] in *.
    destruct IH as (Hu2 & Hr2 & Hl2 & Ht2 & Hrl2 & He2 & Hid2 & Hlen2).
    repeat (split; [assumption|]). cbn [length app] in *. lia.
Qed.

Lemma poll_batch_size (cfg : Worker.Config) (now : Z) (db : Db) :
  (length (Worker.fetchDueDeliveries cfg now db) <= Worker.BATCH_SIZE cfg)%nat.
Proof.
  unfold Worker.fetchDueDeliveries. rewrite length_map, length_firstn. lia.
Qed.

(** X10. The dispatcher stays in its lane. However many turns the worker
    loop runs and however the destinations answer, it leaves users,
    referrals, reward ledger, tenants and rate-limit counters as they were;
    it only appends to the event log; it adds no row to the delivery queue
    and removes none; and a turn sends at most [BATCH_SIZE] requests. *)
Theorem worker_leaves_business_rows (cfg : Worker.Config)
    (turns : list (Z * (string -> Worker.Attempt))) (db : Db) :
  let out := Worker.runWorkerLoop cfg turns db in
  users_tbl (fst out) = users_tbl db
  /\ referrals_tbl (fst out) = referrals_tbl db
  /\ rewards_ledger_tbl (fst out) = rewards_ledger_tbl db
  /\ tenants_tbl (fst out) = tenants_tbl db
  /\ rate_limits_tbl (fst out) = rate_limits_tbl db
  /\ extends (events_tbl db) (events_tbl (fst out))
  /\ map webhookDeliveries.id (webhook_deliveries_tbl (fst out))
     = map webhookDeliveries.id (webhook_deliveries_tbl db)
  /\ (length (snd out) <= length turns * Worker.BATCH_SIZE cfg)%nat.
Proof.
  cbv zeta. revert db.
  induction turns as [|[now attempt] rest IH]; intros db;
    [cbn; repeat split; auto using extends_refl|].
  cbn [Worker.runWorkerLoop]. unfold Worker.poll.
  pose proof (batch_effect cfg (Worker.fetchDueDeliveries cfg now db) attempt db)
    as (Hu & Hr & Hl & Ht & Hrl & He & Hid & Hlen).
  pose proof (poll_batch_size cfg now db) as Hbatch.
  destruct (Worker.processWithConcurrency cfg _ attempt db) as [db1 sent1].
  specialize (IH db1).
  destruct (Worker.runWorkerLoop cfg rest db1) as [db2 sent2].
  cbn [fst snd] in *.
  destruct IH as (Hu2 & Hr2 & Hl2 & Ht2 & Hrl2 & He2 & Hid2 & Hlen2).
  rewrite Hu2, Hr2, Hl2, Ht2, Hrl2, Hid2.
  repeat (split; [assumption|]).
  split; [exact (extends_trans _ _ _ He He2)|]. split; [exact Hid|].
  rewrite length_app. cbn [length]. lia.
Qed.

Lemma worker_leaves_business_rows_witness :
  let out := Worker.runWorkerLoop Scenario.cfg Scenario.six_turns Scenario.db1 in
  referrals_tbl (fst out) = referrals_tbl Scenario.db1
  /\ rewards_ledger_tbl (fst out) = rewards_ledger_tbl Scenario.db1
  /\ extends (events_tbl Scenario.db1) (events_tbl (fst out))
  /\ (length (snd out) <= 60)%nat.
Proof.
  destruct (worker_leaves_business_rows Scenario.cfg Scenario.six_turns
              Scenario.db1) as (_ & Hr & Hl & _ & _ & He & _ & Hlen).
  split; [exact Hr|]. split; [exact Hl|]. split; [exact He|]. exact Hlen.
Defined.

Lemma settled_row_not_selected (cfg : Worker.Config) (now : Z) (db : Db)
    (row : webhookDeliveries.row) (d : Worker.DeliveryRecord) :
  unique_ids db ->
  In row (webhook_deliveries_tbl db) ->
  settled row ->
  In d (Worker.fetchDueDeliveries cfg now db) ->
  Worker.id d <> webhookDeliveries.id row.
Proof.
  intros Huniq Hin Hsettled Hd Hid.
  apply poller_selects_due in Hd as (r & Hr & -> & Hpending & t & Hat & _).
  pose proof (unique_row _ r row Huniq Hr Hin Hid) as ->.
  destruct Hsettled as [Hst|Hnone]; [contradiction|].
  rewrite Hnone in Hat. discriminate.
Qed.

(** X11. A settled delivery is left alone. A row that is not pending (it is
    delivered, or failed), or that has no next attempt, is picked in no turn
    of the worker loop, however long the loop runs, and is in the queue
    unchanged at the end: a delivered webhook is never sent again. *)
Theorem settled_rows_are_left_alone (cfg : Worker.Config)
    (turns : list (Z * (string -> Worker.Attempt))) (db : Db)
    (row : webhookDeliveries.row) :
  unique_ids db ->
  In row (webhook_deliveries_tbl db) ->
  settled row ->
  (forall d, In d (selected cfg turns db) ->
             Worker.id d <> webhookDeliveries.id row)
  /\ In row (webhook_deliveries_tbl (fst (Worker.runWorkerLoop cfg turns db))).
Proof.
  revert db. induction turns as [|[now attempt] rest IH];
    intros db Huniq Hin Hsettled; [split; [intros d []|exact Hin]|].
  cbn [selected Worker.runWorkerLoop].
  assert (Hbatch : forall d, In d (Worker.fetchDueDeliveries cfg now db) ->
                             Worker.id d <> webhookDeliveries.id row)
    by (intros d; apply settled_row_not_selected; assumption).
  destruct (batch_keeps_other_rows cfg _ attempt db row Hbatch Hin)
    as [Hin1 Hids].
  fold (Worker.poll cfg now attempt db) in Hin1, Hids.
  assert (Huniq1 : unique_ids (fst (Worker.poll cfg now attempt db)))
    by (unfold unique_ids; rewrite Hids; exact Huniq).
  destruct (IH _ Huniq1 Hin1 Hsettled) as [IHsel IHin].
  destruct (Worker.poll cfg now attempt db) as [db1 sent1]. cbn [fst] in *.
  destruct (Worker.runWorkerLoop cfg rest db1) as [db2 sent2]. cbn [fst] in *.
  split; [|exact IHin].
  intros d Hd. apply in_app_or in Hd as [Hd|Hd]; [apply Hbatch|apply IHsel]; exact Hd.
Qed.

Lemma settled_rows_are_left_alone_witness :
  (forall d, In d (selected Scenario.cfg [Scenario.turn 2; Scenario.turn 3]
                     Cases.db_delivered) ->
             Worker.id d <> "D1")
  /\ In Cases.delivery1_delivered
       (webhook_deliveries_tbl
          (fst (Worker.runWorkerLoop Scenario.cfg
                  [Scenario.turn 2; Scenario.turn 3] Cases.db_delivered))).
Proof.
  apply (settled_rows_are_left_alone Scenario.cfg
           [Scenario.turn 2; Scenario.turn 3] Cases.db_delivered
           Cases.delivery1_delivered).
  - unfold unique_ids. vm_compute. repeat constructor. intros H. inversion H.
  - vm_compute. left. reflexivity.
  - left. vm_compute. discriminate.
Defined.

(** X12. Without a signing secret nothing moves. When the worker has no
    signing secret (unset or empty) and every queued delivery has its event,
    each attempt throws before any request is made: however many turns the
    loop runs, it sends nothing and leaves the database as it is, so a due
    delivery stays pending and due, with the attempt count it had. *)
Theorem missing_secret_stalls_queue (cfg : Worker.Config)
    (turns : list (Z * (string -> Worker.Attempt))) (db : Db) :
  secret_missing cfg ->
  events_present db ->
  Worker.runWorkerLoop cfg turns db = (db, []).
Proof.
  intros Hsecret Hevents.
  assert (Hthrows : forall d a,
            (exists row, In row (webhook_deliveries_tbl db)
                         /\ d = Worker.record_of row) ->
            Worker.processDelivery cfg d a db = None).
  { intros d a (row & Hin & ->). unfold Worker.processDelivery.
    destruct (find_event_some _ _ _ (Hevents row Hin)) as (e & Hfind & _).
    cbn [Worker.record_of Worker.tenantId Worker.eventId]. rewrite Hfind.
    destruct Hsecret as [->| ->]; reflexivity. }
  assert (Hbatch : forall deliveries attempt,
            (forall d, In d deliveries ->
                       exists row, In row (webhook_deliveries_tbl db)
                                   /\ d = Worker.record_of row) ->
            Worker.processWithConcurrency cfg deliveries attempt db = (db, [])).
  { induction deliveries as [|d rest IH]; intros attempt Hrows; [reflexivity|].
    cbn [Worker.processWithConcurrency].
    rewrite (Hthrows d _ (Hrows d (or_introl eq_refl))).
    rewrite (IH attempt (fun d' H => Hrows d' (or_intror H))). reflexivity. }
  induction turns as [|[now attempt] rest IH]; [reflexivity|].
  cbn [Worker.runWorkerLoop]. unfold Worker.poll.
  rewrite Hbatch.
  - rewrite IH. reflexivity.
  - intros d Hd. apply poller_selects_due in Hd as (row & Hin & -> & _).
    exists row. split; [exact Hin|reflexivity].
Qed.

Lemma missing_secret_stalls_queue_witness :
  Worker.runWorkerLoop (Worker.default_config None) Scenario.six_turns
    Scenario.db1 = (Scenario.db1, []).
Proof.
  apply (missing_secret_stalls_queue (Worker.default_config None)
           Scenario.six_turns Scenario.db1).
  - left. reflexivity.
  - intros r Hin. vm_compute in Hin. destruct Hin as [<-|[]].
    eexists. split; [vm_compute; left; reflexivity|]. split; reflexivity.
Defined.

Lemma NoDup_ids_filter (p : webhookDeliveries.row -> bool)
    (rows : list webhookDeliveries.row) :
  NoDup (map webhookDeliveries.id rows) ->
  NoDup (map webhookDeliveries.id (List.filter p rows)).
Proof.
  induction rows as [|r rows IH]; simpl; intros Hnd; [constructor|].
  apply NoDup_cons in Hnd as [Hnotin Hnd].
  destruct (p r); simpl; [|apply IH, Hnd].
  apply NoDup_cons. split; [|apply IH, Hnd].
  intros Hin. apply Hnotin.
  apply list_elem_of_In in Hin. apply list_elem_of_In.
  apply in_map_iff in Hin as (x & Hx & Hin).
  apply filter_In in Hin as [Hin _].
  apply in_map_iff. exists x. split; assumption.
Qed.

Lemma NoDup_ids_firstn (n : nat) (rows : list webhookDeliveries.row) :
  NoDup (map webhookDeliveries.id rows) ->
  NoDup (map webhookDeliveries.id (firstn n rows)).
Proof.
  revert rows. induction n as [|n IH]; intros [|r rows]; simpl; intros Hnd;
    try constructor.
  - apply NoDup_cons in Hnd as [Hnotin _].
    intros Hin. apply Hnotin.
    apply list_elem_of_In in Hin. apply list_elem_of_In.
    apply in_map_iff in Hin as (x & Hx & Hin).
    apply In_firstn in Hin.
    apply in_map_iff. exists x. split; assumption.
  - apply NoDup_cons in Hnd as [_ Hnd]. apply IH, Hnd.
Qed.

Lemma batch_ids_unique (cfg : Worker.Config) (now : Z) (db : Db) :
  unique_ids db ->
  NoDup (map Worker.id (Worker.fetchDueDeliveries cfg now db)).
Proof.
  intros Huniq. unfold Worker.fetchDueDeliveries.
  rewrite map_map.
  change (fun x => Worker.id (Worker.record_of x)) with webhookDeliveries.id.
  apply NoDup_ids_firstn, NoDup_ids_filter, Huniq.
Qed.

Lemma batch_within_budget (cfg : Worker.Config)
    (deliveries : list Worker.DeliveryRecord)
    (attempt : string -> Worker.Attempt) (db : Db) :
  NoDup (map Worker.id deliveries) ->
  (forall d, In d deliveries ->
             exists row, In row (webhook_deliveries_tbl db)
                         /\ d = Worker.record_of row
                         /\ webhookDeliveries.status row = "pending") ->
  unique_ids db ->
  within_budget cfg db ->
  within_budget cfg
    (fst (Worker.processWithConcurrency cfg deliveries attempt db)).
Proof.
  revert db. induction deliveries as [|d rest IH];
    intros db Hnd Hrows Huniq Hbudget; [exact Hbudget|].
  cbn [Worker.processWithConcurrency].
  cbn [map] in Hnd. apply NoDup_cons in Hnd as [Hnotin Hnd].
  assert (Hstep : exists db1 sent1,
            match Worker.processDelivery cfg d (attempt (Worker.id d)) db with
            | Some r => r
            | None => (db, [])
            end = (db1, sent1)
            /\ (forall d', In d' rest ->
                  exists row, In row (webhook_deliveries_tbl db1)
                              /\ d' = Worker.record_of row
                              /\ webhookDeliveries.status row = "pending")
            /\ unique_ids db1 /\ within_budget cfg db1).
  { destruct (Worker.processDelivery cfg d (attempt (Worker.id d)) db)
      as [[db1 sent1]|] eqn:Hp.
    - exists db1, sent1. split; [reflexivity|].
      apply processDelivery_effect in Hp
        as (_ & _ & _ & _ & _ & _ & _ & set & Hrows1 & Hset).
      destruct (Hrows d (or_introl eq_refl)) as (row & Hrow & Hd & Hpending).
      split; [|split].
      + intros d' Hd'.
        destruct (Hrows d' (or_intror Hd')) as (row' & Hrow' & -> & Hp').
        exists row'. split; [|split; [reflexivity|exact Hp']].
        rewrite Hrows1. apply update_delivery_other; [exact Hrow'|].
        intros Heq. apply Hnotin. apply list_elem_of_In.
        apply in_map_iff. exists (Worker.record_of row').
        split; [exact Heq|exact Hd'].
      + unfold unique_ids. rewrite Hrows1.
        rewrite update_delivery_ids; [exact Huniq|]. intros r. apply Hset.
      + intros r' Hin'. rewrite Hrows1 in Hin'.
        unfold Worker.update_delivery in Hin'.
        apply in_map_iff in Hin' as (r & <- & Hin).
        destruct (String.eqb _ _) eqn:Heq; [|apply Hbudget, Hin].
        apply String.eqb_eq in Heq.
        assert (r = row) as ->.
        { apply (unique_row _ _ _ Huniq Hin Hrow). rewrite Heq, Hd. reflexivity. }
        destruct (Hbudget row Hrow) as [Hle Hlt]. specialize (Hlt Hpending).
        assert (Hcount : Worker.attemptCount d = webhookDeliveries.attemptCount row)
          by (rewrite Hd; reflexivity).
        destruct (Hset row) as [_ [[Hst Hc]|[[Hst Hc]|[Hc Hst]]]];
          rewrite Hc, ?Hcount.
        * split; [exact Hle|]. rewrite Hst. discriminate.
        * split; [lia|]. rewrite Hst. discriminate.
        * split; [lia|]. rewrite Hst, Hcount.
          destruct (Z.leb_spec (Worker.WEBHOOK_RETRY_LIMIT cfg)
                      (Z.of_nat (S (webhookDeliveries.attemptCount row))));
            [discriminate|intros _; assumption].
    - exists db, []. split; [reflexivity|]. split; [|split; assumption].
      intros d' Hd'. apply Hrows. right. exact Hd'. }
  destruct Hstep as (db1 & sent1 & -> & Hrows1 & Huniq1 & Hbudget1).
  specialize (IH db1 Hnd Hrows1 Huniq1 Hbudget1).
  destruct (Worker.processWithConcurrency cfg rest attempt db1) as [db2 sent2].
  exact IH.
Qed.

(** X13. The retry limit bounds every row. If delivery ids are distinct, no
    row has used more attempts than WEBHOOK_RETRY_LIMIT and every pending
    row still has one left, then the same holds after any number of turns of
    the worker loop, whatever the endpoints answer: the worker never makes
    an attempt beyond the limit, and a row that reaches it is no longer
    pending. *)
Theorem attempts_stay_within_limit (cfg : Worker.Config)
    (turns : list (Z * (string -> Worker.Attempt))) (db : Db) :
  unique_ids db ->
  within_budget cfg db ->
  unique_ids (fst (Worker.runWorkerLoop cfg turns db))
  /\ within_budget cfg (fst (Worker.runWorkerLoop cfg turns db)).
Proof.
  revert db. induction turns as [|[now attempt] rest IH];
    intros db Huniq Hbudget; [split; assumption|].
  cbn [Worker.runWorkerLoop].
  assert (Hturn : unique_ids (fst (Worker.poll cfg now attempt db))
                  /\ within_budget cfg (fst (Worker.poll cfg now attempt db))).
  { split.
    - unfold unique_ids.
      destruct (batch_effect cfg (Worker.fetchDueDeliveries cfg now db)
                  attempt db) as (_ & _ & _ & _ & _ & _ & Hids & _).
      unfold Worker.poll. rewrite Hids. exact Huniq.
    - unfold Worker.poll. apply batch_within_budget.
      + apply batch_ids_unique, Huniq.
      + intros d Hd.
        apply poller_selects_due in Hd as (row & Hin & -> & Hp & _).
        exists row. split; [exact Hin|]. split; [reflexivity|exact Hp].
      + exact Huniq.
      + exact Hbudget. }
  destruct Hturn as [Huniq1 Hbudget1].
  destruct (Worker.poll cfg now attempt db) as [db1 sent1]. cbn [fst] in *.
  specialize (IH db1 Huniq1 Hbudget1).
  destruct (Worker.runWorkerLoop cfg rest db1) as [db2 sent2]. exact IH.
Qed.

Lemma attempts_stay_within_limit_witness :
  unique_ids (fst (Worker.runWorkerLoop Scenario.cfg Scenario.six_turns
                     Scenario.db1))
  /\ within_budget Scenario.cfg
       (fst (Worker.runWorkerLoop Scenario.cfg Scenario.six_turns Scenario.db1)).
Proof.
  apply (attempts_stay_within_limit Scenario.cfg Scenario.six_turns Scenario.db1).
  - unfold unique_ids. vm_compute. repeat constructor. intros H. inversion H.
  - intros r Hin. vm_compute in Hin. destruct Hin as [<-|[]].
    split; [vm_compute; discriminate|intros _; vm_compute; reflexivity].
Defined.

(** X14. Retries never get closer together. The wait before the next attempt
    grows (weakly) with the number of attempts made, is at least ten seconds
    once an attempt has been made, and is never more than two hours, however
    many attempts were made. *)
Theorem backoff_grows_and_is_capped (n m : nat) :
  (n <= m)%nat ->
  Worker.getNextAttemptDelay n <= Worker.getNextAttemptDelay m
  /\ ((1 <= n)%nat -> 10000 <= Worker.getNextAttemptDelay n)
  /\ 0 <= Worker.getNextAttemptDelay n <= 7200000.
Proof.
  intros Hle. rewrite !getNextAttemptDelay_table.
  do 6 (destruct n as [|n]; [do 6 (destruct m as [|m]; [cbn; lia|]); cbn; lia|]).
  do 6 (destruct m as [|m]; [lia|]). cbn. lia.
Qed.

Lemma backoff_grows_and_is_capped_witness :
  Worker.getNextAttemptDelay 2 <= Worker.getNextAttemptDelay 9
  /\ 10000 <= Worker.getNextAttemptDelay 2.
Proof.
  destruct (backoff_grows_and_is_capped 2 9) as (Hle & Hmin & _); [lia|].
  split; [exact Hle|apply Hmin; lia].
Defined.

End DispatcherMore.

(** ** Further properties of the rate limiter *)

Section RateLimiterMore.
Import RateLimitFacts.

Lemma checks_nth (config : RateLimit.RateLimitConfig) (windowStart : Z)
    (nows : list Z) (store : gmap (string * string * Z) Z) (i : nat)
    (r : RateLimit.RateLimitResult) :
  in_window config windowStart nows ->
  fst (checks config nows store) !! i = Some r ->
  RateLimit.allowed r
  = (count_in config windowStart store + Z.of_nat (S i) <=? RateLimit.limit config)
  /\ RateLimit.remaining r
     = Z.max 0 (RateLimit.limit config
                - (count_in config windowStart store + Z.of_nat (S i))).
Proof.
  revert store i. induction nows as [|now rest IH]; intros store i Hwin Hr;
    [discriminate|].
  apply Forall_cons in Hwin as [Hnow Hrest].
  cbn [checks] in Hr.
  unfold RateLimit.checkRateLimit in Hr. fold (window_of config) in Hr.
  rewrite Hnow in Hr. unfold RateLimit.upsert in Hr.
  set (k := (RateLimit.tenantId config, RateLimit.key config, windowStart)) in *.
  set (count := match store !! k with Some c => c + 1 | None => 1 end) in *.
  assert (Hcount : count = count_in config windowStart store + 1).
  { unfold count, count_in. fold k. destruct (store !! k); reflexivity. }
  specialize (IH (<[k:=count]> store)).
  destruct (checks config rest (<[k:=count]> store)) as [rs store2].
  cbn [fst] in *. destruct i as [|i].
  - injection Hr as <-. cbn [RateLimit.allowed RateLimit.remaining].
    rewrite Hcount. split; reflexivity.
  - destruct (IH i Hrest Hr) as [Ha Hrem].
    assert (Hnext : count_in config windowStart (<[k:=count]> store) = count).
    { unfold count_in. fold k. rewrite lookup_insert_eq. reflexivity. }
    rewrite Hnext, Hcount in Ha, Hrem. rewrite Ha, Hrem.
    replace (count_in config windowStart store + 1 + Z.of_nat (S i))
      with (count_in config windowStart store + Z.of_nat (S (S i))) by lia.
    split; reflexivity.
Qed.

(** X15. A window admits exactly the limit. When checks of one key all fall
    in one window and the store answers, the [n]-th of them (counting from
    1) is allowed exactly when the counter the window started with plus [n]
    is within the limit, and reports what is then left of the limit; so a
    fresh window lets [limit] requests through and refuses every later one. *)
Theorem window_admits_exactly_limit (config : RateLimit.RateLimitConfig)
    (windowStart : Z) (nows : list Z) (store : gmap (string * string * Z) Z) :
  in_window config windowStart nows ->
  forall i r,
    fst (checks config nows store) !! i = Some r ->
    (RateLimit.allowed r = true
     <-> count_in config windowStart store + Z.of_nat (S i)
         <= RateLimit.limit config)
    /\ RateLimit.remaining r
       = Z.max 0 (RateLimit.limit config
                  - (count_in config windowStart store + Z.of_nat (S i))).
Proof.
  intros Hwin i r Hr.
  destruct (checks_nth config windowStart nows store i r Hwin Hr) as [Ha Hrem].
  split; [|exact Hrem]. rewrite Ha. apply Z.leb_le.
Qed.

Lemma window_admits_exactly_limit_witness :
  in_window Cases.two_per_minute 1699999980000 Cases.three_clicks
  /\ forall i r,
       fst (checks Cases.two_per_minute Cases.three_clicks ∅) !! i = Some r ->
       (RateLimit.allowed r = true
        <-> count_in Cases.two_per_minute 1699999980000 ∅ + Z.of_nat (S i)
            <= RateLimit.limit Cases.two_per_minute)
       /\ RateLimit.remaining r
          = Z.max 0 (RateLimit.limit Cases.two_per_minute
                     - (count_in Cases.two_per_minute 1699999980000 ∅
                        + Z.of_nat (S i))).
Proof.
  assert (Hwin : in_window Cases.two_per_minute 1699999980000 Cases.three_clicks)
    by (repeat constructor).
  split; [exact Hwin|].
  exact (window_admits_exactly_limit Cases.two_per_minute 1699999980000
           Cases.three_clicks ∅ Hwin).
Defined.

Lemma window_bounds (now w : Z) :
  0 <= now -> 0 < w ->
  RateLimit.window_start now w = w * (now / w)
  /\ RateLimit.window_start now w <= now < RateLimit.window_start now w + w.
Proof.
  intros Hnow Hw. unfold RateLimit.window_start.
  rewrite Z.rem_mod_nonneg by lia.
  pose proof (Z.div_mod now w ltac:(lia)) as Hdm.
  pose proof (Z.mod_pos_bound now w Hw) as Hb.
  split; lia.
Qed.

Lemma ceil_div_exact (m : Z) : Js.ceil_div (1000 * m) 1000 = m.
Proof.
  unfold Js.ceil_div.
  replace (- (1000 * m)) with ((- m) * 1000) by lia.
  rewrite Z.div_mul by lia. lia.
Qed.

(** X16. A refusal says when to come back. With the clock at or after the
    epoch and a window of whole seconds, the reset time of a check is the
    end of its window, which lies ahead of the clock by at most the window;
    an allowed check has [retryAfterSeconds = 0]; a refused one has it
    between 1 and the window's seconds, and a caller that waits that long
    arrives in the next window, whose counter is separate. *)
Theorem refusal_says_when_to_retry (config : RateLimit.RateLimitConfig)
    (now seconds : Z) (store_ok : bool) (store : gmap (string * string * Z) Z) :
  0 <= now ->
  0 < seconds ->
  window_of config = 1000 * seconds ->
  let r := fst (RateLimit.checkRateLimit config now store_ok store) in
  let windowStart := RateLimit.window_start now (window_of config) in
  RateLimit.resetAt r * 1000 = windowStart + window_of config
  /\ now < RateLimit.resetAt r * 1000 <= now + window_of config
  /\ (RateLimit.allowed r = true -> RateLimit.retryAfterSeconds r = 0)
  /\ (RateLimit.allowed r = false ->
      1 <= RateLimit.retryAfterSeconds r <= seconds
      /\ RateLimit.window_start (now + RateLimit.retryAfterSeconds r * 1000)
           (window_of config)
         = windowStart + window_of config).
Proof.
  intros Hnow Hsec Hw. cbv zeta.
  destruct (window_bounds now (window_of config) Hnow ltac:(lia)) as [Hws Hb].
  set (ws := RateLimit.window_start now (window_of config)) in *.
  assert (Hreset : Js.ceil_div (ws + window_of config) 1000
                   = seconds * (now / window_of config) + seconds).
  { rewrite Hws, Hw.
    replace (1000 * seconds * (now / (1000 * seconds)) + 1000 * seconds)
      with (1000 * (seconds * (now / (1000 * seconds)) + seconds)) by lia.
    apply ceil_div_exact. }
  assert (Hend : (seconds * (now / window_of config) + seconds) * 1000
                 = ws + window_of config) by (rewrite Hws, Hw; lia).
  assert (Hresult : RateLimit.resetAt
                      (fst (RateLimit.checkRateLimit config now store_ok store))
                    = seconds * (now / window_of config) + seconds
                    /\ RateLimit.retryAfterSeconds
                         (fst (RateLimit.checkRateLimit config now store_ok store))
                       = (if RateLimit.allowed
                               (fst (RateLimit.checkRateLimit config now store_ok
                                       store))
                          then 0
                          else Js.ceil_div
                                 ((seconds * (now / window_of config) + seconds)
                                  * 1000 - now) 1000)).
  { unfold RateLimit.checkRateLimit. fold (window_of config). fold ws.
    rewrite Hreset. destruct store_ok; [|split; reflexivity].
    destruct (RateLimit.upsert _ _ _ _ _) as [count store']. split; reflexivity. }
  destruct Hresult as [Hr Hretry]. rewrite Hr, Hretry.
  split; [exact Hend|]. split; [lia|].
  destruct (RateLimit.allowed _);
    [split; [reflexivity|discriminate]|split; [discriminate|]].
  intros _. rewrite Hend.
  set (m := seconds * (now / window_of config) + seconds) in *.
  assert (Hwait : Js.ceil_div (ws + window_of config - now) 1000 = m - now / 1000).
  { unfold Js.ceil_div. rewrite <- Hend.
    replace (- (m * 1000 - now)) with (now + (- m) * 1000) by lia.
    rewrite Z.div_add by lia. lia. }
  rewrite Hwait.
  pose proof (Z.div_mod now 1000 ltac:(lia)) as Hdm.
  pose proof (Z.mod_pos_bound now 1000 ltac:(lia)) as Hmb.
  split; [nia|].
  assert (Hlater : now + (m - now / 1000) * 1000
                   = window_of config * (now / window_of config + 1)
                     + now mod 1000) by (rewrite Hw in *; lia).
  rewrite Hlater. unfold RateLimit.window_start.
  rewrite Z.rem_mod_nonneg by nia.
  rewrite Z.add_comm, Z.mul_comm, Z.mod_add by lia.
  rewrite (Z.mod_small (now mod 1000)) by lia.
  rewrite Hws. lia.
Qed.

Lemma refusal_says_when_to_retry_witness :
  let r := fst (RateLimit.checkRateLimit Cases.two_per_minute 1700000002000 true
                  Cases.two_counted) in
  RateLimit.allowed r = false
  /\ 1 <= RateLimit.retryAfterSeconds r <= 60
  /\ RateLimit.window_start (1700000002000 + RateLimit.retryAfterSeconds r * 1000)
       (window_of Cases.two_per_minute)
     = RateLimit.window_start 1700000002000 (window_of Cases.two_per_minute)
       + window_of Cases.two_per_minute.
Proof.
  cbv zeta.
  destruct (refusal_says_when_to_retry Cases.two_per_minute 1700000002000 60 true
              Cases.two_counted) as (_ & _ & _ & Hrefused);
    [lia|lia|reflexivity|].
  assert (Hno : RateLimit.allowed
                  (fst (RateLimit.checkRateLimit Cases.two_per_minute
                          1700000002000 true Cases.two_counted)) = false)
    by (vm_compute; reflexivity).
  split; [exact Hno|]. exact (Hrefused Hno).
Defined.

Lemma cleanup_lookup (now : Z) (store_ok : bool)
    (store : gmap (string * string * Z) Z) (tenantId key : string)
    (windowStart : Z) :
  now - 300000 <= windowStart ->
  snd (RateLimitCleanup.cleanupOldRateLimits now store_ok store)
    !! (tenantId, key, windowStart)
  = store !! (tenantId, key, windowStart).
Proof.
  intros Hlive. unfold RateLimitCleanup.cleanupOldRateLimits.
  destruct store_ok; [|reflexivity]. cbn [snd].
  apply option_eq. intros c. rewrite map_lookup_filter_Some. cbn [fst snd].
  split; [intros [H _]; exact H|intros H; split; [exact H|lia]].
Qed.

(** X17. Cleaning up never disturbs a limit in force. For a window of at
    most five minutes, a check made at or after a cleanup answers exactly as
    it would have without the cleanup; the cleanup only removes rows, it
    never adds or changes a counter, and it reports a count that is not
    negative. *)
Theorem cleanup_spares_live_windows (config : RateLimit.RateLimitConfig)
    (cleanedAt now : Z) (cleanup_ok store_ok : bool)
    (store : gmap (string * string * Z) Z) :
  0 < window_of config <= 300000 ->
  cleanedAt <= now ->
  let cleaned := RateLimitCleanup.cleanupOldRateLimits cleanedAt cleanup_ok store in
  fst (RateLimit.checkRateLimit config now store_ok (snd cleaned))
  = fst (RateLimit.checkRateLimit config now store_ok store)
  /\ (forall k c, snd cleaned !! k = Some c -> store !! k = Some c)
  /\ 0 <= fst cleaned.
Proof.
  intros Hw Hlater. cbv zeta. split; [|split].
  - unfold RateLimit.checkRateLimit. fold (window_of config).
    destruct store_ok; [|reflexivity].
    unfold RateLimit.upsert. rewrite cleanup_lookup; [reflexivity|].
    unfold RateLimit.window_start.
    pose proof (Z.rem_bound_abs now (window_of config) ltac:(lia)). lia.
  - intros k c. unfold RateLimitCleanup.cleanupOldRateLimits.
    destruct cleanup_ok; [|auto]. cbn [snd].
    rewrite map_lookup_filter_Some. intros [H _]. exact H.
  - unfold RateLimitCleanup.cleanupOldRateLimits.
    destruct cleanup_ok; [|cbn; lia]. cbn [fst].
    match goal with
    | |- context [size (filter ?P store)] =>
        assert (Hsub : filter P store ⊆ store) by apply map_filter_subseteq;
        apply map_subseteq_size in Hsub
    end.
    lia.
Qed.

Lemma cleanup_spares_live_windows_witness :
  fst (RateLimit.checkRateLimit Cases.two_per_minute 1700000002000 true
         (snd (RateLimitCleanup.cleanupOldRateLimits 1700000001500 true
                 Cases.two_counted)))
  = fst (RateLimit.checkRateLimit Cases.two_per_minute 1700000002000 true
           Cases.two_counted).
Proof.
  destruct (cleanup_spares_live_windows Cases.two_per_minute 1700000001500
              1700000002000 true true Cases.two_counted) as [H _].
  - vm_compute. split; [reflexivity|discriminate].
  - lia.
  - exact H.
Defined.

End RateLimiterMore.

(** ** Referral codes *)

Section ReferralCodes.
Import CodeFacts.

Lemma append_cons (x : ascii) (a b : string) :
  String x a +:+ b = String x (a +:+ b).
Proof. reflexivity. Qed.

Lemma append_assoc (a b c : string) : (a +:+ b) +:+ c = a +:+ (b +:+ c).
Proof.
  induction a as [|x a IH]; [reflexivity|].
  rewrite !append_cons, IH. reflexivity.
Qed.

Lemma append_empty_r (a : string) : a +:+ "" = a.
Proof.
  induction a as [|x a IH]; [reflexivity|]. rewrite append_cons, IH. reflexivity.
Qed.

Lemma length_append (a b : string) :
  String.length (a +:+ b) = (String.length a + String.length b)%nat.
Proof.
  induction a as [|x a IH]; [reflexivity|].
  rewrite append_cons. cbn [String.length]. rewrite IH. reflexivity.
Qed.

Lemma chars_append (a b : string) :
  list_ascii_of_string (a +:+ b)
  = (list_ascii_of_string a ++ list_ascii_of_string b)%list.
Proof.
  induction a as [|x a IH]; [reflexivity|].
  rewrite append_cons. cbn [list_ascii_of_string app]. rewrite IH. reflexivity.
Qed.

(** Every byte picks a character of the alphabet that is not ambiguous. *)
Lemma byte_picks_url_safe (b : Byte.byte) :
  exists c,
    ReferralCode.char_at ReferralCode.URL_SAFE_CHARS
      (Byte.to_nat b mod String.length ReferralCode.URL_SAFE_CHARS)
    = String c EmptyString
    /\ url_safe c
    /\ existsb (Ascii.eqb c) (list_ascii_of_string "IOilo01") = false.
Proof.
  destruct b; eexists; (split; [vm_compute; reflexivity|]);
    split; vm_compute; reflexivity.
Qed.

Lemma not_ambiguous (c : ascii) :
  existsb (Ascii.eqb c) (list_ascii_of_string "IOilo01") = false -> ~ ambiguous c.
Proof.
  intros Hno Hin. unfold ambiguous in Hin.
  assert (Hyes : existsb (Ascii.eqb c) (list_ascii_of_string "IOilo01") = true).
  { apply existsb_exists. exists c. split; [exact Hin|apply Ascii.eqb_refl]. }
  rewrite Hyes in Hno. discriminate.
Qed.

Lemma random_part_shape (bytes : nat -> Byte.byte) (indices : list nat)
    (result : string) :
  exists added,
    fold_left
      (fun result i =>
         result +:+ ReferralCode.char_at ReferralCode.URL_SAFE_CHARS
                      (Byte.to_nat (bytes i)
                       mod String.length ReferralCode.URL_SAFE_CHARS))
      indices result
    = result +:+ added
    /\ String.length added = length indices
    /\ forall c, In c (list_ascii_of_string added) -> url_safe c /\ ~ ambiguous c.
Proof.
  revert result. induction indices as [|i indices IH]; intros result.
  - exists "". split; [symmetry; apply append_empty_r|].
    split; [reflexivity|intros c []].
  - cbn [fold_left].
    destruct (byte_picks_url_safe (bytes i)) as (c0 & -> & Hsafe & Hclear).
    destruct (IH (result +:+ String c0 "")) as (added & -> & Hlen & Hall).
    exists (String c0 added). split; [apply append_assoc|].
    split; [cbn [String.length length]; rewrite Hlen; reflexivity|].
    intros c [<-|Hin]; [split; [exact Hsafe|apply not_ambiguous, Hclear]|].
    apply Hall, Hin.
Qed.

(** X18. Every candidate is a well-formed code. Whatever bytes are drawn,
    the candidate is [ref_] followed by twelve characters of the URL-safe
    alphabet, none of them one of the look-alikes I, O, i, l, o, 0, 1; it is
    16 characters long, so the claim route's schema and length bound accept
    it as a referral code. *)
Theorem candidate_code_is_well_formed (bytes : nat -> Byte.byte) :
  let code := ReferralCode.generateReferralCodeCandidate bytes in
  exists randomPart,
    code = "ref_" +:+ randomPart
    /\ String.length randomPart = 12%nat
    /\ (forall c, In c (list_ascii_of_string randomPart) ->
                  url_safe c /\ ~ ambiguous c)
    /\ String.length code = 16%nat
    /\ Claim.string_min1 (Some (Js.JStr code)) = Some code
    /\ (String.length code <= Claim.MAX_REFERRAL_CODE_LENGTH)%nat.
Proof.
  cbv zeta. unfold ReferralCode.generateReferralCodeCandidate,
    ReferralCode.generateUrlSafeRandom.
  destruct (random_part_shape bytes (seq 0 12) "") as (added & -> & Hlen & Hall).
  rewrite length_seq in Hlen. change ("" +:+ added) with added.
  exists added. split; [reflexivity|]. split; [exact Hlen|].
  split; [exact Hall|].
  assert (Hsize : String.length ("ref_" +:+ added) = 16%nat)
    by (rewrite length_append, Hlen; reflexivity).
  split; [exact Hsize|]. split; [reflexivity|].
  rewrite Hsize. unfold Claim.MAX_REFERRAL_CODE_LENGTH. lia.
Qed.

Lemma checkCodeExists_taken (tenantId code : string) (db : Db) :
  ReferralCode.checkCodeExists tenantId code db = true <-> taken tenantId code db.
Proof.
  unfold ReferralCode.checkCodeExists, taken.
  destruct (find _ (users_tbl db)) as [u|] eqn:Hfind.
  - split; [intros _|reflexivity].
    apply find_some in Hfind as [Hin Hu].
    apply andb_true_iff in Hu as [Ht Hc].
    apply String.eqb_eq in Ht, Hc. exists u. auto.
  - split; [discriminate|]. intros (u & Hin & Ht & Hc).
    pose proof (find_none _ _ Hfind u Hin) as Hno. cbv beta in Hno.
    rewrite Ht, Hc, !String.eqb_refl in Hno. discriminate.
Qed.

Lemma checkCodeExists_lookup (tenantId code : string) (db : Db) :
  ReferralCode.checkCodeExists tenantId code db = false ->
  DbHelpers.getUserByReferralCode tenantId code db = None.
Proof.
  unfold ReferralCode.checkCodeExists, DbHelpers.getUserByReferralCode.
  destruct (find _ (users_tbl db)); [discriminate|reflexivity].
Qed.

Lemma unique_code_from (tenantId : string) (attempt remaining : nat)
    (draws : nat -> nat -> Byte.byte) (db : Db) :
  match ReferralCode.generateUniqueReferralCode_from tenantId attempt remaining
          draws db with
  | Some code =>
      exists n, (attempt <= n < attempt + remaining)%nat
                /\ code = candidate draws n
                /\ ReferralCode.checkCodeExists tenantId code db = false
                /\ forall j, (attempt <= j < n)%nat ->
                             taken tenantId (candidate draws j) db
  | None =>
      forall j, (attempt <= j < attempt + remaining)%nat ->
                taken tenantId (candidate draws j) db
  end.
Proof.
  revert attempt. induction remaining as [|remaining IH]; intros attempt;
    cbn [ReferralCode.generateUniqueReferralCode_from]; [intros j Hj; lia|].
  fold (candidate draws attempt).
  destruct (ReferralCode.checkCodeExists tenantId (candidate draws attempt) db)
    eqn:Hexists; cbn [negb].
  - apply checkCodeExists_taken in Hexists. specialize (IH (S attempt)).
    destruct (ReferralCode.generateUniqueReferralCode_from _ _ _ _ _) as [code|].
    + destruct IH as (n & Hn & Hcode & Hfree & Hbefore).
      exists n. split; [lia|]. split; [exact Hcode|]. split; [exact Hfree|].
      intros j Hj. destruct (Nat.eq_dec j attempt) as [->|Hne];
        [exact Hexists|apply Hbefore; lia].
    + intros j Hj. destruct (Nat.eq_dec j attempt) as [->|Hne];
        [exact Hexists|apply IH; lia].
  - exists attempt. split; [lia|]. split; [reflexivity|].
    split; [exact Hexists|]. intros j Hj. lia.
Qed.

(** X19. The generated code is the first free candidate. When
    [generateUniqueReferralCode] returns a code, it is the candidate of the
    first attempt whose code no user of the tenant owns, within the allowed
    number of attempts; the lookup of the claim route finds no owner for it,
    and once a user of the tenant is inserted with it the lookup returns
    that user. It throws only when the candidates of all the attempts are
    taken. *)
Theorem unique_code_is_first_free_candidate (tenantId : string)
    (maxAttempts : option nat) (draws : nat -> nat -> Byte.byte) (db : Db) :
  match ReferralCode.generateUniqueReferralCode tenantId maxAttempts draws db with
  | Some code =>
      (exists n, (n < default 5%nat maxAttempts)%nat
                 /\ code = candidate draws n
                 /\ forall j, (j < n)%nat -> taken tenantId (candidate draws j) db)
      /\ ~ taken tenantId code db
      /\ DbHelpers.getUserByReferralCode tenantId code db = None
      /\ forall u, users.tenantId u = tenantId ->
                   users.referralCode u = code ->
                   DbHelpers.getUserByReferralCode tenantId code (with_user u db)
                   = Some u
  | None =>
      forall j, (j < default 5%nat maxAttempts)%nat ->
                taken tenantId (candidate draws j) db
  end.
Proof.
  unfold ReferralCode.generateUniqueReferralCode.
  pose proof (unique_code_from tenantId 0 (default 5%nat maxAttempts) draws db)
    as H.
  destruct (ReferralCode.generateUniqueReferralCode_from _ _ _ _ _) as [code|].
  - destruct H as (n & Hn & Hcode & Hfree & Hbefore).
    split; [exists n; split; [lia|]; split; [exact Hcode|];
            intros j Hj; apply Hbefore; lia|].
    split; [intros Htaken; apply checkCodeExists_taken in Htaken;
            rewrite Htaken in Hfree; discriminate|].
    pose proof (checkCodeExists_lookup _ _ _ Hfree) as Hnone.
    split; [exact Hnone|].
    intros u Ht Hc. unfold DbHelpers.getUserByReferralCode, with_user in *.
    destruct db; cbn [users_tbl set_users] in *.
    apply find_after_append; [exact Hnone|].
    rewrite Ht, Hc, !String.eqb_refl. reflexivity.
  - intros j Hj. apply H. lia.
Qed.

Lemma candidate_code_is_well_formed_witness :
  exists randomPart,
    ReferralCode.generateReferralCodeCandidate (Cases.zero_draws 0)
    = "ref_" +:+ randomPart
    /\ String.length randomPart = 12%nat.
Proof.
  destruct (candidate_code_is_well_formed (Cases.zero_draws 0))
    as (randomPart & Hcode & Hlen & _).
  exists randomPart. split; [exact Hcode|exact Hlen].
Defined.

Lemma unique_code_is_first_free_candidate_witness :
  ReferralCode.generateUniqueReferralCode "t1" None Cases.zero_draws Scenario.db0
  = Some "ref_AAAAAAAAAAAA"
  /\ DbHelpers.getUserByReferralCode "t1" "ref_AAAAAAAAAAAA" Scenario.db0 = None.
Proof.
  pose proof (unique_code_is_first_free_candidate "t1" None Cases.zero_draws
                Scenario.db0) as H.
  assert (Hrun : ReferralCode.generateUniqueReferralCode "t1" None
                   Cases.zero_draws Scenario.db0 = Some "ref_AAAAAAAAAAAA")
    by (vm_compute; reflexivity).
  rewrite Hrun in H. destruct H as (_ & _ & Hnone & _).
  split; [exact Hrun|exact Hnone].
Defined.

End ReferralCodes.

(** ** The bearer header and the scopes of a key *)

Section ApiKeys.
Import AuthFacts.

Lemma split_space_nonempty (s : string) : Auth.split_space s <> [].
Proof.
  destruct s as [|c s]; cbn [Auth.split_space]; [discriminate|].
  destruct (Ascii.eqb c " "); [discriminate|].
  destruct (Auth.split_space s); discriminate.
Qed.

Lemma no_space_cons (c : ascii) (s : string) :
  no_space (String c s) <-> c <> " "%char /\ no_space s.
Proof.
  unfold no_space. cbn [list_ascii_of_string In]. split.
  - intros H. split; [intros ->; apply H; left; reflexivity|].
    intros Hin. apply H. right. exact Hin.
  - intros [Hc Hs] [Heq|Hin]; [apply Hc; exact Heq|exact (Hs Hin)].
Qed.

(** The parts of a split: the first part is what precedes the first
    space, and the rest is the split of what follows it. *)
Lemma split_space_parts (s part : string) (parts : list string) :
  Auth.split_space s = part :: parts <->
  no_space part
  /\ ((parts = [] /\ s = part)
      \/ (exists rest, s = part +:+ String " " rest
                       /\ Auth.split_space rest = parts)).
Proof.
  revert part parts. induction s as [|c s IH]; intros part parts.
  - cbn [Auth.split_space]. split.
    + intros [= <- <-]. split; [intros []|left; split; reflexivity].
    + intros [_ [[-> <-]|(rest & Hs & _)]]; [reflexivity|].
      destruct part; discriminate.
  - cbn [Auth.split_space]. destruct (Ascii.eqb_spec c " ") as [->|Hc].
    + split.
      * intros [= <- <-]. split; [intros []|].
        right. exists s. split; reflexivity.
      * intros [Hpart [[_ <-]|(rest & Hs & <-)]].
        -- exfalso. apply no_space_cons in Hpart as [Hne _]. apply Hne. reflexivity.
        -- destruct part as [|x part].
           ++ injection Hs as <-. reflexivity.
           ++ rewrite append_cons in Hs. injection Hs as <- _.
              exfalso. apply no_space_cons in Hpart as [Hne _].
              apply Hne. reflexivity.
    + destruct (Auth.split_space s) as [|p ps] eqn:Hsplit;
        [exfalso; exact (split_space_nonempty s Hsplit)|].
      destruct (IH p ps) as [Hfwd _]. specialize (Hfwd eq_refl).
      destruct Hfwd as [Hp Hcases]. split.
      * intros [= <- <-]. split; [apply no_space_cons; split; assumption|].
        destruct Hcases as [[-> ->]|(rest & -> & Hrest)];
          [left; split; reflexivity|].
        right. exists rest. split; [reflexivity|exact Hrest].
      * intros [Hpart Hcases'].
        destruct part as [|x part].
        { exfalso. destruct Hcases' as [[_ Hs]|(rest & Hs & _)];
            [discriminate|].
          injection Hs as -> _. apply Hc. reflexivity. }
        apply no_space_cons in Hpart as [_ Hpart].
        assert (Hx : x = c /\ ((parts = [] /\ s = part)
                               \/ (exists rest, s = part +:+ String " " rest
                                                /\ Auth.split_space rest = parts))).
        { destruct Hcases' as [[-> Hs]|(rest & Hs & Hrest)].
          - injection Hs as -> ->. split; [reflexivity|left; split; reflexivity].
          - rewrite append_cons in Hs. injection Hs as -> ->.
            split; [reflexivity|]. right. exists rest. split; [reflexivity|exact Hrest]. }
        destruct Hx as [-> Hx].
        destruct (IH part parts) as [_ Hback].
        specialize (Hback (conj Hpart Hx)).
        rewrite ?Hsplit in Hback. injection Hback as -> ->. reflexivity.
Qed.

Lemma split_space_two (s scheme token : string) :
  Auth.split_space s = [scheme; token] <->
  s = scheme +:+ String " " token /\ no_space scheme /\ no_space token.
Proof.
  rewrite split_space_parts. split.
  - intros [Hscheme [[H _]|(rest & -> & Hrest)]]; [discriminate|].
    apply split_space_parts in Hrest as [Htoken [[_ ->]|(rest' & _ & Hnil)]].
    + auto.
    + exfalso. exact (split_space_nonempty _ Hnil).
  - intros (-> & Hscheme & Htoken). split; [exact Hscheme|].
    right. exists token. split; [reflexivity|].
    apply split_space_parts. split; [exact Htoken|left; split; reflexivity].
Qed.

Lemma chars_of_list (l : list ascii) :
  list_ascii_of_string (string_of_list_ascii l) = l.
Proof. apply list_ascii_of_string_of_list_ascii. Qed.

Lemma bearer_has_no_space (scheme : string) :
  Js.toLowerCase scheme = "bearer" -> no_space scheme.
Proof.
  intros Hlower Hin. unfold Js.toLowerCase in Hlower.
  apply (in_map Js.lower_char) in Hin.
  rewrite <- (chars_of_list (map Js.lower_char _)), Hlower in Hin.
  vm_compute in Hin. intuition discriminate.
Qed.

(** X20. What counts as a bearer header. [extractBearerToken] returns a
    token exactly for a header made of a scheme that reads [bearer] in any
    letter case, one space, and a token without a space; the token is
    returned as it is (it may be empty). Any other header, or none, gives no
    token. *)
Theorem bearer_header_is_recognised (authHeader : option string) (token : string) :
  Auth.extractBearerToken authHeader = Some token <->
  exists scheme,
    authHeader = Some (scheme +:+ String " " token)
    /\ Js.toLowerCase scheme = "bearer"
    /\ no_space token.
Proof.
  unfold Auth.extractBearerToken. split.
  - destruct authHeader as [h|]; [|discriminate].
    destruct (negb (Js.nonempty h)); [discriminate|].
    destruct (Auth.split_space h) as [|scheme [|tok [|x rest]]] eqn:Hsplit;
      try discriminate.
    destruct (String.eqb_spec (Js.toLowerCase scheme) "bearer") as [Hlower|];
      [|discriminate].
    cbn [negb]. intros [= <-].
    apply split_space_two in Hsplit as (-> & _ & Htoken).
    exists scheme. auto.
  - intros (scheme & -> & Hlower & Htoken).
    assert (Hsplit : Auth.split_space (scheme +:+ String " " token)
                     = [scheme; token]).
    { apply split_space_two. split; [reflexivity|].
      split; [apply bearer_has_no_space, Hlower|exact Htoken]. }
    rewrite Hsplit, Hlower.
    destruct scheme; [discriminate|]. reflexivity.
Qed.

Lemma bearer_header_is_recognised_witness :
  Auth.extractBearerToken (Some "BEARER rk_live_abc") = Some "rk_live_abc".
Proof.
  apply (proj2 (bearer_header_is_recognised (Some "BEARER rk_live_abc")
                  "rk_live_abc")).
  exists "BEARER". split; [reflexivity|]. split; [reflexivity|].
  intros H. vm_compute in H. intuition discriminate.
Defined.

Lemma includes_In (l : list string) (s : string) :
  Auth.includes l s = true <-> In s l.
Proof.
  unfold Auth.includes. rewrite existsb_exists. split.
  - intros (x & Hin & Heq). apply String.eqb_eq in Heq. subst. exact Hin.
  - intros Hin. exists s. split; [exact Hin|apply String.eqb_refl].
Qed.

Lemma hasScope_iff (context : Auth.AuthContext) (requiredScope : string) :
  Auth.hasScope context requiredScope = true <->
  In "admin" (Auth.scopes context)
  \/ (In "write" (Auth.scopes context)
      /\ (requiredScope = "read" \/ requiredScope = "write"))
  \/ In requiredScope (Auth.scopes context).
Proof.
  unfold Auth.hasScope. rewrite <- !includes_In.
  destruct (Auth.includes (Auth.scopes context) "admin"); [tauto|].
  destruct (Auth.includes (Auth.scopes context) "write"); cbn [andb].
  - destruct (String.eqb_spec requiredScope "read") as [->|Hr]; cbn [orb]; [tauto|].
    destruct (String.eqb_spec requiredScope "write") as [->|Hw]; [tauto|].
    split; [tauto|]. intros [H|[[_ [H|H]]|H]]; try discriminate; tauto.
  - split; [tauto|]. intros [H|[[H _]|H]]; try discriminate; tauto.
Qed.

(** X21. A key with more scopes passes every check the smaller key passes:
    [hasScope], [hasAnyScope] and [hasAllScopes] are monotone in the scopes
    of the key. *)
Theorem more_scopes_never_lose_access (c1 c2 : Auth.AuthContext)
    (requiredScopes : list string) :
  at_least c1 c2 ->
  (forall requiredScope,
     Auth.hasScope c1 requiredScope = true ->
     Auth.hasScope c2 requiredScope = true)
  /\ (Auth.hasAnyScope c1 requiredScopes = true ->
      Auth.hasAnyScope c2 requiredScopes = true)
  /\ (Auth.hasAllScopes c1 requiredScopes = true ->
      Auth.hasAllScopes c2 requiredScopes = true).
Proof.
  intros Hmore.
  assert (Hone : forall r, Auth.hasScope c1 r = true -> Auth.hasScope c2 r = true).
  { intros r. rewrite !hasScope_iff.
    intros [H|[[H Hr]|H]]; [left|right; left; split; [|exact Hr]|right; right];
      apply Hmore, H. }
  split; [exact Hone|]. unfold Auth.hasAnyScope, Auth.hasAllScopes. split.
  - rewrite !existsb_exists. intros (r & Hin & Hr). exists r. auto.
  - rewrite !forallb_forall. intros Hall r Hin. auto.
Qed.

Lemma more_scopes_never_lose_access_witness :
  at_least Cases.writer_key Cases.owner_key
  /\ Auth.hasAllScopes Cases.owner_key ["read"; "write"] = true.
Proof.
  assert (Hmore : at_least Cases.writer_key Cases.owner_key)
    by (intros s [<-|[]]; vm_compute; left; reflexivity).
  destruct (more_scopes_never_lose_access Cases.writer_key Cases.owner_key
              ["read"; "write"] Hmore) as (_ & _ & Hall).
  split; [exact Hmore|]. apply Hall. reflexivity.
Defined.

(** X22. The scopes are ordered. A key with [admin] passes every check,
    whatever scopes are required; a key that may [write] may also [read]; a
    key whose only scope is [write] passes exactly the checks for [read] and
    [write], and a key with [read] alone may not write. *)
Theorem scopes_are_ordered (context : Auth.AuthContext) :
  (In "admin" (Auth.scopes context) ->
   forall requiredScopes, Auth.hasAllScopes context requiredScopes = true)
  /\ (Auth.hasScope context "write" = true -> Auth.hasScope context "read" = true)
  /\ (forall requiredScope,
        Auth.scopes context = ["write"] ->
        (Auth.hasScope context requiredScope = true
         <-> requiredScope = "read" \/ requiredScope = "write"))
  /\ (Auth.scopes context = ["read"] -> Auth.hasScope context "write" = false).
Proof.
  split; [|split; [|split]].
  - intros Hadmin requiredScopes. unfold Auth.hasAllScopes.
    apply forallb_forall. intros r _. apply hasScope_iff. left. exact Hadmin.
  - rewrite !hasScope_iff. intros [H|[[H _]|H]]; [tauto| |]; right; left; tauto.
  - intros r Hscopes. rewrite hasScope_iff, Hscopes. cbn [In]. split.
    + intros [[H|[]]|[[_ H]|[H|[]]]]; [discriminate|exact H|right; symmetry; exact H].
    + intros H. right. left. tauto.
  - intros Hscopes. unfold Auth.hasScope. rewrite Hscopes. reflexivity.
Qed.

Lemma scopes_are_ordered_witness :
  Auth.hasAllScopes Cases.owner_key ["read"; "write"; "billing"] = true.
Proof.
  destruct (scopes_are_ordered Cases.owner_key) as [Hadmin _].
  apply Hadmin. vm_compute. right. left. reflexivity.
Defined.

End ApiKeys.

(** ** Signing and verifying a webhook *)

Section SignedWebhooks.

Variable hmac_sha256_hex : string -> string -> string.

Lemma timingSafeEqual_refl (a : string) : Sign.timingSafeEqual a a = Some true.
Proof.
  unfold Sign.timingSafeEqual. rewrite Nat.eqb_refl, String.eqb_refl. reflexivity.
Qed.

(** X23. What is signed verifies. With a signing secret set, [signWebhook]
    returns a signature that [verifyWebhookSignature] accepts for the same
    payload and timestamp, and the verification accepts no other signature:
    one of the same byte length is rejected, and one of another byte length
    makes the comparison throw instead of answering [false]. *)
Theorem signed_webhook_verifies (env_secret : option string) (secret : string)
    (now : Z) (payload : string) (ts : option string) :
  Sign.getWebhookSigningSecret env_secret = Some secret ->
  exists s,
    Sign.signWebhook hmac_sha256_hex env_secret now payload ts = Some s
    /\ Sign.timestamp s = default (pretty (now / 1000)) ts
    /\ Sign.verifyWebhookSignature hmac_sha256_hex env_secret payload
         (Sign.timestamp s) (Sign.signature s) = Some true
    /\ forall other,
         other <> Sign.signature s ->
         Sign.verifyWebhookSignature hmac_sha256_hex env_secret payload
           (Sign.timestamp s) other
         = if Nat.eqb (Sign.byteLength other) (Sign.byteLength (Sign.signature s))
           then Some false else None.
Proof.
  intros Hsecret.
  unfold Sign.signWebhook, Sign.verifyWebhookSignature. rewrite Hsecret.
  eexists. split; [reflexivity|]. cbn [Sign.timestamp Sign.signature].
  split; [reflexivity|]. split; [apply timingSafeEqual_refl|].
  intros other Hother. unfold Sign.timingSafeEqual.
  destruct (Nat.eqb _ _); [|reflexivity].
  destruct (String.eqb_spec other
              (hmac_sha256_hex secret
                 (default (pretty (now / 1000)) ts +:+ "." +:+ payload)));
    [contradiction|reflexivity].
Qed.

End SignedWebhooks.

Lemma signed_webhook_verifies_witness :
  exists s,
    Sign.signWebhook Cases.toy_hmac (Some "whsec_test") 1700000013000
      "{}" None = Some s
    /\ Sign.timestamp s = "1700000013"
    /\ Sign.verifyWebhookSignature Cases.toy_hmac (Some "whsec_test") "{}"
         (Sign.timestamp s) (Sign.signature s) = Some true.
Proof.
  destruct (signed_webhook_verifies Cases.toy_hmac (Some "whsec_test")
              "whsec_test" 1700000013000 "{}" None eq_refl)
    as (s & Hsign & Hts & Hverify & _).
  exists s. split; [exact Hsign|]. split; [exact Hts|exact Hverify].
Defined.

(** ** From the claim to the destination *)

Section ClaimToDestination.
Import ClaimSpec ClaimFacts WorkerSpec WorkerFacts.

Lemma destination_tenants (tenantId : string) (db db' : Db) :
  tenants_tbl db' = tenants_tbl db ->
  Enqueue.getTenantWebhookUrl tenantId db'
  = Enqueue.getTenantWebhookUrl tenantId db.
Proof.
  intros H. unfold Enqueue.getTenantWebhookUrl, DbHelpers.getTenant.
  rewrite H. reflexivity.
Qed.

Lemma destination_url (tenantId url : string) (db : Db) :
  destination tenantId db = Some url ->
  Enqueue.getTenantWebhookUrl tenantId db = Some url /\ Js.nonempty url = true.
Proof.
  unfold destination.
  destruct (Enqueue.getTenantWebhookUrl tenantId db) as [u|]; [|discriminate].
  destruct (Js.nonempty u) eqn:Hu; [|discriminate].
  intros [= <-]. split; [reflexivity|exact Hu].
Qed.

(** The attempt made for a queued row whose event is found, when the
    destination answers 2xx. *)
Lemma processDelivery_delivers (cfg : Worker.Config)
    (row : webhookDeliveries.row) (a : Worker.Attempt) (db : Db) (e : events.row) :
  find (fun e => String.eqb (events.tenantId e) (webhookDeliveries.tenantId row)
                 && String.eqb (events.id e) (webhookDeliveries.eventId row))
       (events_tbl db) = Some e ->
  signing_configured cfg ->
  attempt_succeeds a (webhookDeliveries.url row) ->
  exists db' request,
    Worker.processDelivery cfg (Worker.record_of row) a db = Some (db', [request])
    /\ carries request (webhookDeliveries.url row) e.
Proof.
  intros Hfind (secret & Hsecret & Hnonempty) Hok.
  unfold Worker.processDelivery. cbn [Worker.record_of Worker.tenantId
    Worker.eventId Worker.url Worker.id Worker.attemptCount].
  rewrite Hfind, Hsecret, Hnonempty. cbn [negb]. rewrite Hok.
  eexists _, _. split; [reflexivity|]. repeat split.
Qed.

(** X24. A claimed referral is announced. When the handler answers 201, the
    tenant has a webhook URL, the enqueue goes through and the id drawn for
    the event is new, the queue gets one more row: a pending delivery of the
    [referral.claimed] event to that URL, due from the moment of the claim.
    The worker's attempt for this row, with a signing secret and a 2xx
    answer, posts exactly one request to the URL, and its body is the
    [referral.claimed] event of the tenant naming the referral, the
    referrer, the referred user and the code of the reply. *)
Theorem claimed_referral_is_announced (tenantId : string)
    (request : Claim.Request) (env : Claim.Env) (db : Db)
    (data : Claim.ClaimReferralResponse) (url : string)
    (cfg : Worker.Config) (a : Worker.Attempt) :
  let out := Claim.handleClaimReferral tenantId request env db in
  fst out = Claim.successResponse data 201 ->
  destination tenantId db = Some url ->
  Claim.enqueue_ok env = true ->
  Js.nonempty (Claim.newEventId env) = true ->
  ~ event_exists tenantId (Claim.newEventId env) db ->
  signing_configured cfg ->
  attempt_succeeds a url ->
  exists row db' posted,
    webhook_deliveries_tbl (snd out) = (webhook_deliveries_tbl db ++ [row])%list
    /\ row = fresh_delivery (Claim.newDeliveryId env) tenantId
               (Claim.newEventId env) url (Claim.now env)
    /\ (forall now, Claim.now env <= now -> Worker.due now row = true)
    /\ Worker.processDelivery cfg (Worker.record_of row) a (snd out)
       = Some (db', [posted])
    /\ Worker.req_url posted = url
    /\ Worker.body_id (Worker.req_body posted) = Claim.newEventId env
    /\ Worker.body_type (Worker.req_body posted) = "referral.claimed"
    /\ Worker.body_tenantId (Worker.req_body posted) = tenantId
    /\ exists referrerReward referredReward,
         Worker.body_data (Worker.req_body posted)
         = events.ReferralClaimed
             (Claim.id (Claim.referral data))
             (Claim.referrerUserId (Claim.referral data))
             (Claim.referredExternalUserId (Claim.referral data))
             (Claim.refCodeUsed (Claim.referral data))
             referrerReward referredReward.
Proof.
  cbv zeta. intros Hreply Hdest Henq Hid Hnew Hsecret Hok.
  destruct (handle_outcome tenantId request env db)
    as [[Hstatus _]|(input & referrer & db1 & nr & rw & eid & db2 & _
                     & Hrows & _ & _ & _ & Htx & Hout)].
  { exfalso. apply Hstatus. rewrite Hreply. reflexivity. }
  rewrite Hout in Hreply |- *.
  destruct Hrows as (_ & _ & _ & He1 & Hq1 & Ht1).
  apply transaction_created_inv in Htx
    as (referredUser & _ & _ & _ & Hnr & _ & _ & _ & _ & Heid & Hev & Ht2 & _ & Hq2).
  subst eid nr.
  apply destination_url in Hdest as [Hurl Hnonempty].
  assert (Hurl2 : Enqueue.getTenantWebhookUrl tenantId db2 = Some url).
  { rewrite (destination_tenants tenantId db db2); [exact Hurl|].
    rewrite Ht2. exact Ht1. }
  unfold Claim.after_commit in Hreply |- *. cbn [fst snd] in Hreply |- *.
  injection Hreply as <-.
  cbn [Claim.referral Claim.id Claim.referrerUserId Claim.referredExternalUserId
       Claim.refCodeUsed new_referral referrals.id
       referrals.referredExternalUserId referrals.refCodeUsed].
  rewrite Hid, Henq.
  unfold Enqueue.enqueueWebhookForExistingEvent. rewrite Hurl2, Hnonempty.
  unfold Enqueue.enqueueWebhookDelivery. cbn [snd webhook_deliveries_tbl
    set_webhook_deliveries].
  fold (fresh_delivery (Claim.newDeliveryId env) tenantId (Claim.newEventId env)
          url (Claim.now env)).
  set (row := fresh_delivery (Claim.newDeliveryId env) tenantId
                (Claim.newEventId env) url (Claim.now env)).
  set (db3 := set_webhook_deliveries (webhook_deliveries_tbl db2 ++ [row]) db2).
  match type of Hev with
  | _ = (_ ++ [?e])%list => set (ev := e) in *
  end.
  assert (Hfind :
    find (fun e => String.eqb (events.tenantId e) (webhookDeliveries.tenantId row)
                   && String.eqb (events.id e) (webhookDeliveries.eventId row))
         (events_tbl db3)
    = Some ev).
  { unfold db3. destruct db2; cbn [events_tbl set_webhook_deliveries] in *.
    rewrite Hev. apply find_after_append.
    - rewrite He1. apply (find_event_none tenantId (Claim.newEventId env) db Hnew).
    - cbn [events.tenantId events.id row ev fresh_delivery
           webhookDeliveries.tenantId webhookDeliveries.eventId].
      rewrite !String.eqb_refl. reflexivity. }
  destruct (processDelivery_delivers cfg row a db3 _ Hfind Hsecret Hok)
    as (db' & posted & Hrun & Hurl' & Hbid & Hbtype & Hbtenant & _ & Hbdata).
  exists row, db', posted.
  split; [rewrite Hq2, Hq1; reflexivity|]. split; [reflexivity|].
  split; [intros now Hnow; unfold Worker.due, row; cbn; apply Z.leb_le, Hnow|].
  split; [exact Hrun|]. split; [exact Hurl'|].
  rewrite Hbid, Hbtype, Hbtenant, Hbdata. unfold ev.
  cbn [events.id events.type events.tenantId events.payloadJson].
  do 3 (split; [reflexivity|]). eexists _, _. reflexivity.
Qed.

Lemma claimed_referral_is_announced_witness :
  exists data row db' posted,
    fst (Claim.handleClaimReferral "t1" Scenario.request1 Scenario.env1
           Scenario.db0) = Claim.successResponse data 201
    /\ webhook_deliveries_tbl Scenario.db1 = [row]
    /\ Worker.processDelivery Scenario.cfg (Worker.record_of row)
         (Cases.answering 1700000013150 "W1" "D1") Scenario.db1
       = Some (db', [posted])
    /\ Worker.req_url posted = "https://example.test/hook"
    /\ Worker.body_type (Worker.req_body posted) = "referral.claimed".
Proof.
  eexists.
  destruct (claimed_referral_is_announced "t1" Scenario.request1 Scenario.env1
              Scenario.db0 _ "https://example.test/hook" Scenario.cfg
              (Cases.answering 1700000013150 "W1" "D1") eq_refl)
    as (row & db' & posted & Hq & _ & _ & Hrun & Hurl & _ & Htype & _).
  - reflexivity.
  - reflexivity.
  - reflexivity.
  - intros (e & [] & _).
  - exists "whsec_test". split; reflexivity.
  - intros body. reflexivity.
  - exists row, db', posted. split; [reflexivity|].
    split; [exact Hq|]. split; [exact Hrun|]. split; [exact Hurl|exact Htype].
Defined.

End ClaimToDestination.

(** ** Creating an event with its delivery *)

Section EventCreation.
Import WorkerSpec WorkerFacts.

(** X25. An event created with its delivery can be delivered.
    [createEventAndEnqueueWebhook] with a new event id always records the
    event. When the tenant has a webhook URL it also queues one pending
    delivery of that event to the URL, due at once, and the worker's attempt
    for it (with a signing secret and a 2xx answer) posts that very event;
    when the tenant has no URL, the queue is left as it is and the result
    says that nothing was enqueued. *)
Theorem created_event_is_deliverable (tenantId eventType : string)
    (payload : events.payload) (now : Z) (newEventId newDeliveryId : string)
    (db : Db) (cfg : Worker.Config) (a : Worker.Attempt) :
  ~ event_exists tenantId newEventId db ->
  signing_configured cfg ->
  let out := CreateEvent.createEventAndEnqueueWebhook tenantId eventType payload
               now newEventId newDeliveryId db in
  let event := {| events.id := newEventId; events.tenantId := tenantId;
                  events.type := eventType; events.payloadJson := payload;
                  events.createdAt := now |} in
  CreateEvent.eventId (fst out) = newEventId
  /\ events_tbl (snd out) = (events_tbl db ++ [event])%list
  /\ match destination tenantId db with
     | Some url =>
         let row := fresh_delivery newDeliveryId tenantId newEventId url now in
         CreateEvent.webhookEnqueued (fst out) = true
         /\ CreateEvent.deliveryId (fst out) = Some newDeliveryId
         /\ webhook_deliveries_tbl (snd out)
            = (webhook_deliveries_tbl db ++ [row])%list
         /\ Worker.due now row = true
         /\ (attempt_succeeds a url ->
             exists db' posted,
               Worker.processDelivery cfg (Worker.record_of row) a (snd out)
               = Some (db', [posted])
               /\ carries posted url event)
     | None =>
         CreateEvent.webhookEnqueued (fst out) = false
         /\ CreateEvent.deliveryId (fst out) = None
         /\ webhook_deliveries_tbl (snd out) = webhook_deliveries_tbl db
     end.
Proof.
  intros Hnew Hsecret. cbv zeta.
  unfold CreateEvent.createEventAndEnqueueWebhook. cbv zeta.
  set (event := {| events.id := newEventId; events.tenantId := tenantId;
                   events.type := eventType; events.payloadJson := payload;
                   events.createdAt := now |}).
  set (db1 := set_events (events_tbl db ++ [event]) db).
  assert (Hurl1 : Enqueue.getTenantWebhookUrl tenantId db1
                  = Enqueue.getTenantWebhookUrl tenantId db)
    by (apply destination_tenants; destruct db; reflexivity).
  rewrite Hurl1. unfold destination.
  destruct (Enqueue.getTenantWebhookUrl tenantId db) as [url|];
    cbn [Enqueue.url_unset].
  - destruct (Js.nonempty url) eqn:Hnonempty; cbn [negb].
    + unfold Enqueue.enqueueWebhookDelivery.
      cbn [fst snd default CreateEvent.eventId CreateEvent.webhookEnqueued
           CreateEvent.deliveryId Enqueue.deliveryId events.id
           webhookDeliveries.id].
      fold (fresh_delivery newDeliveryId tenantId newEventId url now).
      set (row := fresh_delivery newDeliveryId tenantId newEventId url now).
      split; [reflexivity|].
      split; [destruct db; reflexivity|].
      split; [reflexivity|]. split; [reflexivity|].
      split; [destruct db; reflexivity|].
      split; [unfold Worker.due, row; cbn; apply Z.leb_refl|].
      intros Hok.
      apply (processDelivery_delivers cfg row a _ event); [|exact Hsecret|exact Hok].
      destruct db; cbn [events_tbl set_events set_webhook_deliveries db1] in *.
      apply find_after_append.
      * apply (find_event_none tenantId newEventId _ Hnew).
      * cbn. rewrite !String.eqb_refl. reflexivity.
    + cbn [fst snd CreateEvent.eventId CreateEvent.webhookEnqueued
           CreateEvent.deliveryId events.id].
      split; [reflexivity|]. split; [destruct db; reflexivity|].
      split; [reflexivity|]. split; [reflexivity|destruct db; reflexivity].
  - cbn [fst snd CreateEvent.eventId CreateEvent.webhookEnqueued
         CreateEvent.deliveryId events.id].
    split; [reflexivity|]. split; [destruct db; reflexivity|].
    split; [reflexivity|]. split; [reflexivity|destruct db; reflexivity].
Qed.

Lemma created_event_is_deliverable_witness :
  let out := CreateEvent.createEventAndEnqueueWebhook "t1" "user.created"
               (events.WebhookSent "" "" None 0 "") 1700000012345 "E9" "D9"
               Scenario.db0 in
  CreateEvent.webhookEnqueued (fst out) = true
  /\ exists db' posted,
       Worker.processDelivery Scenario.cfg
         (Worker.record_of
            (fresh_delivery "D9" "t1" "E9" "https://example.test/hook"
               1700000012345))
         (Cases.answering 1700000013150 "W1" "D9") (snd out)
       = Some (db', [posted])
       /\ Worker.body_type (Worker.req_body posted) = "user.created".
Proof.
  cbv zeta.
  pose proof (created_event_is_deliverable "t1" "user.created"
                (events.WebhookSent "" "" None 0 "") 1700000012345 "E9" "D9"
                Scenario.db0 Scenario.cfg
                (Cases.answering 1700000013150 "W1" "D9")) as H.
  cbv zeta in H.
  destruct H as (_ & _ & H).
  - intros (e & [] & _).
  - exists "whsec_test". split; reflexivity.
  - change (destination "t1" Scenario.db0)
      with (Some "https://example.test/hook") in H.
    destruct H as (Hq & _ & _ & _ & Hrun). split; [exact Hq|].
    destruct Hrun as (db' & posted & Hrun & _ & _ & Htype & _);
      [intros body; reflexivity|].
    exists db', posted. split; [exact Hrun|exact Htype].
Defined.

End EventCreation.

(** ** Reward keys and balances *)

Section RewardKeys.
Import ClaimSpec ClaimFacts RewardFacts.

Lemma append_same_length (a b x y : string) :
  String.length a = String.length b ->
  a +:+ x = b +:+ y -> a = b /\ x = y.
Proof.
  revert b. induction a as [|c a IH]; intros [|d b] Hlen H; try discriminate.
  - split; [reflexivity|exact H].
  - rewrite !append_cons in H. injection H as -> H.
    injection Hlen as Hlen. destruct (IH b Hlen H) as [-> ->].
    split; reflexivity.
Qed.

Lemma key_tail_inj (referralId userId referralId' userId' : string) :
  String.length referralId = String.length referralId' ->
  referralId +:+ "_" +:+ userId = referralId' +:+ "_" +:+ userId' ->
  referralId = referralId' /\ userId = userId'.
Proof.
  intros Hlen H. apply append_same_length in H as [-> H]; [|exact Hlen].
  apply (String.app_inj "_") in H. subst. split; reflexivity.
Qed.

Lemma referral_key_inj (referralId userId referralId' userId' : string) :
  String.length referralId = String.length referralId' ->
  Rewards.generateReferralEventId referralId userId
  = Rewards.generateReferralEventId referralId' userId' ->
  referralId = referralId' /\ userId = userId'.
Proof.
  unfold Rewards.generateReferralEventId. intros Hlen H.
  apply (String.app_inj "ref_reward_") in H. exact (key_tail_inj _ _ _ _ Hlen H).
Qed.

Lemma onboarding_key_inj (referralId userId referralId' userId' : string) :
  String.length referralId = String.length referralId' ->
  Rewards.generateOnboardingEventId referralId userId
  = Rewards.generateOnboardingEventId referralId' userId' ->
  referralId = referralId' /\ userId = userId'.
Proof.
  unfold Rewards.generateOnboardingEventId. intros Hlen H.
  apply (String.app_inj "onboard_") in H. exact (key_tail_inj _ _ _ _ Hlen H).
Qed.

(** X26. A reward key names one grant. For referral ids of one length (they
    are UUIDs), two referral-reward keys are equal only for the same
    referral and the same user, likewise two onboarding keys, and a
    referral-reward key is never an onboarding key: under the ledger's
    unique key, a grant can only collide with itself. *)
Theorem reward_keys_identify_the_grant
    (referralId userId referralId' userId' : string) :
  String.length referralId = String.length referralId' ->
  (Rewards.generateReferralEventId referralId userId
   = Rewards.generateReferralEventId referralId' userId' ->
   referralId = referralId' /\ userId = userId')
  /\ (Rewards.generateOnboardingEventId referralId userId
      = Rewards.generateOnboardingEventId referralId' userId' ->
      referralId = referralId' /\ userId = userId')
  /\ Rewards.generateReferralEventId referralId userId
     <> Rewards.generateOnboardingEventId referralId' userId'.
Proof.
  intros Hlen. split; [|split].
  - apply referral_key_inj, Hlen.
  - apply onboarding_key_inj, Hlen.
  - apply key_kinds_differ.
Qed.

Lemma reward_keys_identify_the_grant_witness :
  String.length "R1" = String.length "R2"
  /\ (Rewards.generateReferralEventId "R1" "U1"
      = Rewards.generateReferralEventId "R2" "U1" ->
      "R1" = "R2" /\ "U1" = "U1").
Proof.
  destruct (reward_keys_identify_the_grant "R1" "U1" "R2" "U1" eq_refl)
    as [H _].
  split; [reflexivity|exact H].
Defined.

(** Without the length condition two grants can share a key. *)
Example reward_keys_of_uneven_ids_collide :
  Rewards.generateReferralEventId "a_b" "c"
  = Rewards.generateReferralEventId "a" "b_c".
Proof. reflexivity. Qed.

(** X27. A new referral id has unused keys. When every ledger row was
    granted for a referral whose id has the length of the new id and differs
    from it, no row carries a key of the new referral. *)
Theorem fresh_referral_id_has_unused_keys (referralId : string)
    (ids : list string) (db : Db) :
  (forall r, In r ids ->
             String.length r = String.length referralId /\ r <> referralId) ->
  keyed_by ids db ->
  keys_unused referralId db.
Proof.
  intros Hids Hkeyed l userId Hin.
  destruct (Hkeyed l Hin) as (r & u & Hr & Hkey).
  destruct (Hids r Hr) as [Hlen Hne].
  destruct Hkey as [-> | ->]; split.
  - intros H. apply Hne. exact (proj1 (referral_key_inj _ _ _ _ Hlen H)).
  - apply key_kinds_differ.
  - intros H. exact (key_kinds_differ _ _ _ _ (eq_sym H)).
  - intros H. apply Hne. exact (proj1 (onboarding_key_inj _ _ _ _ Hlen H)).
Qed.

Lemma fresh_referral_id_has_unused_keys_witness :
  keyed_by ["R1"] Scenario.db1 /\ keys_unused "R2" Scenario.db1.
Proof.
  assert (Hkeyed : keyed_by ["R1"] Scenario.db1).
  { intros l Hin. vm_compute in Hin. destruct Hin as [<-|[]].
    exists "R1", "U1". split; [left; reflexivity|left; reflexivity]. }
  split; [exact Hkeyed|].
  apply (fresh_referral_id_has_unused_keys "R2" ["R1"] Scenario.db1);
    [|exact Hkeyed].
  intros r [<-|[]]. split; [reflexivity|discriminate].
Defined.

End RewardKeys.

Section Balances.
Import ClaimSpec ClaimFacts.

Lemma sum_amounts_app (a b : list rewardsLedger.row) :
  DbHelpers.sum_amounts (a ++ b)
  = DbHelpers.sum_amounts a + DbHelpers.sum_amounts b.
Proof.
  unfold DbHelpers.sum_amounts.
  induction a as [|l a IH]; cbn [app map fold_right]; [lia|].
  change (fold_right Z.add 0
            (map (fun l => Rewards.amount (rewardsLedger.rewardJson l)) (a ++ b)))
    with (DbHelpers.sum_amounts (a ++ b)) in *.
  unfold DbHelpers.sum_amounts in *. rewrite IH. lia.
Qed.

(** A reward the engine grants is positive. *)
Lemma granted_amount_positive (i : Rewards.CalculateRewardsInput)
    (e : Rewards.RewardEntry) :
  Rewards.referrerReward (Rewards.calculateRewards i) = Some e
  \/ Rewards.referredReward (Rewards.calculateRewards i) = Some e ->
  0 < Rewards.amount (Rewards.rewardJson e).
Proof.
  unfold Rewards.calculateRewards, Rewards.calculateReferrerReward,
    Rewards.calculateReferredReward.
  cbn [Rewards.referrerReward Rewards.referredReward].
  intros [H|H];
    match type of H with
    | (if ?a <=? 0 then _ else _) = _ =>
        destruct (Z.leb_spec a 0) as [|Hpos]; [discriminate|];
        injection H as <-; exact Hpos
    end.
Qed.

Lemma granted_total (p : rewardsLedger.row -> bool) (tenantId id : string)
    (reward : option Rewards.RewardEntry) (createdAt : Z)
    (rows : list rewardsLedger.row) :
  (forall e, reward = Some e -> 0 < Rewards.amount (Rewards.rewardJson e)) ->
  DbHelpers.sum_amounts (List.filter p rows)
  <= DbHelpers.sum_amounts
       (List.filter p (granted_ledger tenantId id reward createdAt rows)).
Proof.
  intros Hpos. unfold granted_ledger. destruct reward as [e|]; [|lia].
  cbv zeta. destruct (existsb _ _); [lia|].
  rewrite List.filter_app, sum_amounts_app. cbn [List.filter].
  destruct (p _); [|cbn; lia].
  unfold DbHelpers.sum_amounts at 3.
  cbn [map fold_right Claim.ledger_row rewardsLedger.rewardJson].
  specialize (Hpos e eq_refl). lia.
Qed.

Lemma sumRewardsByUser_total (tenantId userId : string) (db : Db) (total : Z) :
  DbHelpers.sumRewardsByUser tenantId userId db = Some total ->
  total = DbHelpers.sum_amounts
            (List.filter
               (fun l => String.eqb (rewardsLedger.tenantId l) tenantId
                         && String.eqb (rewardsLedger.userId l) userId)
               (rewards_ledger_tbl db)).
Proof.
  unfold DbHelpers.sumRewardsByUser. cbv zeta.
  destruct (_ && _)%bool; [|discriminate]. intros [= <-]. reflexivity.
Qed.

(** X28. A claim never lowers a balance. Whatever the request, the reward
    total of any user, as [sumRewardsByUser] reports it, is after the
    request at least what it was before; and unless the reply is a 201 it is
    the same. *)
Theorem claim_never_lowers_a_balance (tenantId : string)
    (request : Claim.Request) (env : Claim.Env) (db : Db)
    (ofTenant userId : string) (before after : Z) :
  let out := Claim.handleClaimReferral tenantId request env db in
  DbHelpers.sumRewardsByUser ofTenant userId db = Some before ->
  DbHelpers.sumRewardsByUser ofTenant userId (snd out) = Some after ->
  before <= after
  /\ (status_of (fst out) <> Some 201 -> after = before).
Proof.
  cbv zeta. intros Hbefore Hafter.
  apply sumRewardsByUser_total in Hbefore, Hafter. subst before after.
  destruct (handle_outcome tenantId request env db)
    as [[Hstatus (_ & _ & Hl & _)]
       |(input & referrer & db1 & nr & rw & eid & db2 & _
         & (_ & _ & Hl1 & _) & _ & _ & _ & Htx & Hout)].
  { rewrite Hl. split; [lia|reflexivity]. }
  rewrite Hout.
  destruct (after_commit_effect tenantId referrer nr rw eid env db2)
    as [(_ & _ & Hl2 & _) (data & Hfst & _)].
  rewrite Hfst, Hl2. split; [|intros Hno; exfalso; apply Hno; reflexivity].
  apply transaction_created_inv in Htx
    as (referredUser & _ & _ & _ & _ & _ & _ & Hrw & Hledger & _).
  rewrite Hledger, Hl1.
  etransitivity; [|apply granted_total].
  - apply granted_total. intros e He. rewrite Hrw in He.
    eapply granted_amount_positive. left. exact He.
  - intros e He. rewrite Hrw in He.
    eapply granted_amount_positive. right. exact He.
Qed.

Lemma claim_never_lowers_a_balance_witness :
  DbHelpers.sumRewardsByUser "t1" "U1" Scenario.db0 = Some 0
  /\ DbHelpers.sumRewardsByUser "t1" "U1" Scenario.db1 = Some 200
  /\ 0 <= 200.
Proof.
  assert (Hbefore : DbHelpers.sumRewardsByUser "t1" "U1" Scenario.db0 = Some 0)
    by (vm_compute; reflexivity).
  assert (Hafter : DbHelpers.sumRewardsByUser "t1" "U1"
                     (snd (Claim.handleClaimReferral "t1" Scenario.request1
                             Scenario.env1 Scenario.db0)) = Some 200)
    by (vm_compute; reflexivity).
  destruct (claim_never_lowers_a_balance "t1" Scenario.request1 Scenario.env1
              Scenario.db0 "t1" "U1" 0 200 Hbefore Hafter) as [Hle _].
  split; [exact Hbefore|]. split; [exact Hafter|exact Hle].
Defined.

End Balances.
